(** * Aave V3 liquidation bot: the liquidation opportunity engine

    A shallow embedding of the profit calculator and the two execution
    paths ([core/liquidator.ts]), the price cache
    ([services/priceMonitor.ts]), the health factor monitor
    ([services/healthFactorMonitor.ts]), the strategy scanners
    ([strategies/eModeStrategy.ts] and the [OracleDelayStrategy] class),
    the execution entry points of [strategies/strategyManager.ts] and the
    executor contract ([contracts/FlashLoanLiquidator.sol]).

    Conventions.
    - An ethers [BigNumber] is an unbounded integer: [Z].  Its [div]
      truncates towards zero ([Z.quot]) and raises on a zero divisor.
    - A JavaScript [number] is an IEEE 754 binary64 value: Rocq's primitive
      [float], whose operations are the hardware ones.  [parseFloat] rounds
      a decimal string to the nearest number.
    - [Date.now()] is a whole number of milliseconds: [Z].
    - A thrown value is represented by its message.
    - The chain, the oracle, the HTTP price source and the clock are read
      from a [World]; everything the bot mutates lives in a [State].  The
      monitor and the wallet keep a state of their own, and their chain
      answers are read from a [Chain.t] and a [Wallet]; the answers do not
      change while one entry point runs.
    - A call of the contract returns or reverts; a revert keeps none of
      the calls made. *)

From Stdlib Require Import ZArith Lia List Bool String Ascii.
From Stdlib.Strings Require Import Byte.
From Stdlib Require Import Floats Permutation Sorted.
From stdpp Require Import base option gmap strings.

Set Warnings "-inexact-float".

Import ListNotations.
Local Open Scope string_scope.
Local Open Scope Z_scope.

(** ** Thrown values and results *)

Inductive result (A : Type) : Type :=
| Ok (a : A)
| Throw (msg : string).
Arguments Ok {A} a.
Arguments Throw {A} msg.

(** ** JavaScript numbers *)

Module Number.

(** [!x] for a number: [0], [-0] and [NaN] are falsy. *)
Definition falsy (x : float) : bool :=
  (PrimFloat.eqb x 0 || PrimFloat.is_nan x)%bool.

(** [x || d] where [x] may be [undefined]. *)
Definition or_default (x : option float) (d : float) : float :=
  match x with
  | Some v => if falsy v then d else v
  | None => d
  end.

(** [Math.floor x] as an exact integer; [None] for [NaN] and the
    infinities. *)
Definition floor (x : float) : option Z :=
  match Prim2SF x with
  | S754_zero _ => Some 0
  | S754_finite s m e =>
      let n := if s then Zneg m else Zpos m in
      Some (match e with
            | Zneg p => Z.shiftr n (Zpos p)
            | _ => Z.shiftl n e
            end)
  | S754_infinity _ | S754_nan => None
  end.

(** The exact integer [z] as a (not yet rounded) binary float. *)
Definition of_Z_exact (z : Z) : spec_float :=
  match z with
  | Z0 => S754_zero false
  | Zpos p => S754_finite false p 0
  | Zneg p => S754_finite true p 0
  end.

(** The number nearest to [n / 10^d] (ties to even): what [parseFloat]
    returns on the decimal string [formatUnits(n, d)]. *)
Definition of_decimal (n : Z) (d : Z) : float :=
  SF2Prim (SFdiv prec emax (of_Z_exact n) (of_Z_exact (10 ^ d))).

End Number.

(** ** ethers BigNumber *)

Module BigNumber.

Definition MAX_SAFE : Z := 9007199254740991.

(** [BigNumber.from(Math.floor(x))]: a non-finite number or one outside
    the safe integer range is refused. *)
Definition from_floor (x : float) : result Z :=
  match Number.floor x with
  | Some z =>
      if (z >=? MAX_SAFE) || (z <=? - MAX_SAFE)
      then Throw "overflow" else Ok z
  | None => Throw "overflow"
  end.

Definition div (a b : Z) : result Z :=
  if b =? 0 then Throw "division-by-zero" else Ok (Z.quot a b).

(** [BigNumber.from(10).pow(n)] *)
Definition pow10 (n : Z) : result Z :=
  if n <? 0 then Throw "negative-power" else Ok (10 ^ n).

End BigNumber.

(** ** Data model

    [interfaces.ts] declares these shapes; the fields listed are the ones
    the modelled functions read or write. *)

Module Asset.
Record t : Type := mk {
  symbol : string;
  address : string;
  decimals : Z;
  amount : Z;
  liquidationThreshold : option float;
  liquidationBonus : option float
}.
End Asset.

Module LiquidationTarget.
Record t : Type := mk {
  user : string;
  healthFactor : Z;
  totalCollateralBase : Z;
  totalDebtBase : Z;
  collateralAssets : list Asset.t;
  debtAssets : list Asset.t;
  eModeCategoryId : Z
}.
End LiquidationTarget.

Module PriceData.
Record t : Type := mk {
  assetAddress : string;
  aaveOraclePrice : Z;
  dexPrice : option Z;
  externalApiPrice : option Z;
  timestamp : Z;
  discrepancyPercentage : option float
}.
End PriceData.

Module LiquidationProfitCalculation.
Record t : Type := mk {
  target : LiquidationTarget.t;
  debtAsset : Asset.t;
  collateralAsset : Asset.t;
  debtToCover : Z;
  collateralToReceive : Z;
  liquidationBonus : float;
  estimatedProfitUsd : float;
  estimatedGasCostUsd : float;
  netProfitUsd : float;
  profitable : bool;
  executionPriority : float
}.

(** [calculation.executionPriority *= k] *)
Definition boost (k : float) (c : t) : t :=
  mk (target c) (debtAsset c) (collateralAsset c) (debtToCover c)
     (collateralToReceive c) (liquidationBonus c) (estimatedProfitUsd c)
     (estimatedGasCostUsd c) (netProfitUsd c) (profitable c)
     (executionPriority c * k)%float.
End LiquidationProfitCalculation.

Module ExecutionResult.
Record t : Type := mk {
  success : bool;
  transactionHash : option string;
  error : option string;
  gasUsed : option Z;
  gasCostWei : option Z;
  timestamp : Z
}.
End ExecutionResult.

Module Receipt.
Record t : Type := mk {
  status : Z;
  transactionHash : string;
  gasUsed : Z;
  effectiveGasPrice : Z
}.
End Receipt.

(** One call of [pool.flashLoan], with its transaction overrides. *)
Module FlashLoanCall.
Record t : Type := mk {
  receiver : string;
  assets : list string;
  amounts : list Z;
  interestRateModes : list Z;
  onBehalfOf : string;
  params : list byte;
  referralCode : Z;
  gasLimit : Z;
  gasPrice : Z
}.
End FlashLoanCall.

(** The constants of a deployment: the fields of [config.ts] the modelled
    functions read, and the address of the executor contract.

    [maxGasPriceGwei] is a number in [config.ts] (the default is 100, and
    0.5 is as good); the code reads it through
    [parseUnits(config.maxGasPriceGwei.toString(), 'gwei')], and the field
    is what that gives: the ceiling in wei, or the error [parseUnits]
    raises on a string it refuses (["NaN"], an exponent as in ["1e-7"],
    more than nine decimals).  The health-factor constants are left as
    parameters.

    [flashLoanExecutorAddress] is the string the executor contract is
    constructed with.  [liquidator.ts] has the placeholder ['0x...'] there
    and asks for the deployed address in its place. *)
Module Config.
Record t : Type := mk {
  closeFactorHfThreshold : Z;
  minProfitUsd : float;
  maxGasPriceGwei : result Z;
  priceDifferenceThreshold : float;
  aavePoolAddress : string;
  walletAddress : string;
  flashLoanExecutorAddress : string
}.
End Config.

(** ** The environment

    What the chain, the price sources and the clock answer while one entry
    point runs. *)
Record World : Type := {
  (** [Date.now()] *)
  Date_now : Z;
  (** [priceOracle.getAssetPrice(asset)] *)
  getAssetPrice : string -> result Z;
  (** The Uniswap quote of one WETH in the asset; [None] when the static
      call or its decoding fails. *)
  quoteExactInputSingle : string -> option Z;
  (** The CoinGecko USD quote of a token id, as
      [parseUnits(quote.toString(), 8)] reads it; [None] when the request
      fails, the quote is missing or falsy, or [parseUnits] refuses it. *)
  coingeckoUsd : string -> option Z;
  (** [provider.getGasPrice()] *)
  getGasPrice : result Z;
  (** ethers' [getAddress]: the 160-bit value of an address string, [None]
      when the string is not an address. *)
  getAddress : string -> option Z;
  (** [pool.flashLoan(...)]: the hash of the transaction sent, or the error
      that kept it from being sent; ethers resolves the address arguments
      first and raises when one is neither an address nor a name that
      resolves. *)
  flashLoan : FlashLoanCall.t -> result string;
  (** [provider.waitForTransaction(hash, 1)]: the receipt of the mined
      transaction. *)
  wait : string -> result Receipt.t;
  (** What the message of the error ethers raises for a reverted
      transaction goes on with, after its reason: the transaction, the
      receipt, the error code and the library's version. *)
  callExceptionDetails : Receipt.t -> string;
  (** [healthFactorMonitor.getLiquidatablePositions()] *)
  getLiquidatablePositions : list LiquidationTarget.t
}.

(** [tx.wait(1)] of ethers v5: the receipt of the mined transaction,
    except that a receipt with status 0 (the transaction reverted) is
    raised as a [CALL_EXCEPTION] error.  The error's message is its
    reason, [transactionFailed], followed by the details. *)
Definition transactionFailed : string := "transaction failed".

Definition callException (w : World) (receipt : Receipt.t) : string :=
  String.append transactionFailed (callExceptionDetails w receipt).

Definition tx_wait (w : World) (hash : string) : result Receipt.t :=
  match wait w hash with
  | Ok receipt =>
      if Receipt.status receipt =? 0 then Throw (callException w receipt) else Ok receipt
  | Throw msg => Throw msg
  end.

(** ** The mutable state

    The singletons' fields the modelled code writes, and the list of
    transactions handed to the network. *)
Record State : Type := {
  priceCache : gmap string PriceData.t;
  lastExecutionTime : Z;
  executionHistory : list ExecutionResult.t;
  sent : list FlashLoanCall.t
}.

Definition set_priceCache (f : gmap string PriceData.t -> gmap string PriceData.t) (s : State) : State :=
  {| priceCache := f (priceCache s); lastExecutionTime := lastExecutionTime s;
     executionHistory := executionHistory s; sent := sent s |}.

Definition set_lastExecutionTime (t : Z) (s : State) : State :=
  {| priceCache := priceCache s; lastExecutionTime := t;
     executionHistory := executionHistory s; sent := sent s |}.

Definition push_executionHistory (r : ExecutionResult.t) (s : State) : State :=
  {| priceCache := priceCache s; lastExecutionTime := lastExecutionTime s;
     executionHistory := executionHistory s ++ [r]; sent := sent s |}.

Definition push_sent (c : FlashLoanCall.t) (s : State) : State :=
  {| priceCache := priceCache s; lastExecutionTime := lastExecutionTime s;
     executionHistory := executionHistory s; sent := sent s ++ [c] |}.

(** ** Computations that read the world, update the state and may throw *)

Definition M (A : Type) : Type := State -> result A * State.

Definition ret {A} (a : A) : M A := fun s => (Ok a, s).

Definition throw {A} (msg : string) : M A := fun s => (Throw msg, s).

Definition bind {A B} (c : M A) (k : A -> M B) : M B :=
  fun s => match c s with
           | (Ok a, s') => k a s'
           | (Throw msg, s') => (Throw msg, s')
           end.

Definition lift {A} (r : result A) : M A := fun s => (r, s).

Definition modify (f : State -> State) : M unit := fun s => (Ok tt, f s).

(** [try { c } catch (error) { h(error.message) }] *)
Definition try_catch {A} (c : M A) (h : string -> M A) : M A :=
  fun s => match c s with
           | (Ok a, s') => (Ok a, s')
           | (Throw msg, s') => h msg s'
           end.

Declare Scope M_scope.
Delimit Scope M_scope with M.
Notation "'let*' x ':=' c 'in' k" := (bind c (fun x => k))
  (at level 10, x name, c at level 100, k at level 200) : M_scope.
Notation "'do' c 'then' k" := (bind c (fun _ => k))
  (at level 10, c at level 100, k at level 200) : M_scope.
Local Open Scope M_scope.

(** [for (const x of xs) { body }], where the body answers [true] to leave
    the enclosing function ([return]) and [false] to go on. *)
Fixpoint for_of {A} (xs : list A) (body : A -> M bool) : M bool :=
  match xs with
  | [] => ret false
  | x :: rest =>
      let* stop := body x in
      if stop then ret true else for_of rest body
  end.

(** A loop that threads an accumulator. *)
Fixpoint for_fold {A B} (xs : list A) (acc : B) (body : B -> A -> M B) : M B :=
  match xs with
  | [] => ret acc
  | x :: rest => let* acc' := body acc x in for_fold rest acc' body
  end.

(** ** Strings *)

Definition lower_ascii (c : ascii) : ascii :=
  let n := N_of_ascii c in
  if ((65 <=? n) && (n <=? 90))%N then ascii_of_N (n + 32) else c.

(** [s.toLowerCase()] on ASCII text. *)
Fixpoint toLowerCase (s : string) : string :=
  match s with
  | EmptyString => EmptyString
  | String c rest => String (lower_ascii c) (toLowerCase rest)
  end.

(** ** services/priceMonitor.ts *)

Module PriceMonitor.

Definition WETH : string := "0xC02aaA39b223FE8D0A0e5C4F27eAD9083C756Cc2".
Definition USDC : string := "0xA0b86991c6218b36c1d19D4a2e9Eb0cE3606eB48".
Definition DAI : string := "0x6B175474E89094C44Da98b954EedeAC495271d0F".

Definition tokenIdMap (key : string) : option string :=
  if String.eqb key (toLowerCase WETH) then Some "ethereum"
  else if String.eqb key (toLowerCase USDC) then Some "usd-coin"
  else if String.eqb key (toLowerCase DAI) then Some "dai"
  else None.

(** [getExternalPrice] followed by the caller's [parseUnits]. *)
Definition getExternalPrice (w : World) (assetAddress : string) : option Z :=
  match tokenIdMap (toLowerCase assetAddress) with
  | Some tokenId => coingeckoUsd w tokenId
  | None => None
  end.

Definition discrepancy (aaveOraclePrice : Z) (externalApiPrice : option Z) : option float :=
  match externalApiPrice with
  | Some ext =>
      let aavePrice := Number.of_decimal aaveOraclePrice 8 in
      let extPrice := Number.of_decimal ext 8 in
      if (0 <? extPrice)%float
      then Some (PrimFloat.abs ((aavePrice - extPrice) / extPrice) * 100)%float
      else None
  | None => None
  end.

Definition getPriceData (w : World) (assetAddress : string) : M PriceData.t :=
  let* aaveOraclePrice := lift (getAssetPrice w assetAddress) in
  let dexPrice :=
    if negb (String.eqb (toLowerCase assetAddress) (toLowerCase WETH))
    then quoteExactInputSingle w assetAddress else None in
  let externalApiPrice := getExternalPrice w assetAddress in
  let priceData :=
    PriceData.mk assetAddress aaveOraclePrice dexPrice externalApiPrice
      (Date_now w) (discrepancy aaveOraclePrice externalApiPrice) in
  do modify (set_priceCache (fun cache => <[assetAddress := priceData]> cache)) then
  ret priceData.

Definition hasPriceDiscrepancy (cfg : Config.t) (s : State) (assetAddress : string) : bool :=
  match priceCache s !! assetAddress with
  | None => false
  | Some cachedPrice =>
      match PriceData.discrepancyPercentage cachedPrice with
      | None => false
      | Some d =>
          if Number.falsy d then false
          else (Config.priceDifferenceThreshold cfg <? d)%float
      end
  end.

End PriceMonitor.

(** ** The contract ABI encoding

    [ethers.utils.defaultAbiCoder.encode] and Solidity's [abi.decode], for
    the static types the liquidation parameters use: every value takes one
    32-byte big-endian word. *)

Module Abi.

Inductive type : Type := TAddress | TUint256 | TBool.

Inductive value : Type :=
| Address (a : Z)
| Uint256 (n : Z)
| Bool (b : bool).

Definition type_of (v : value) : type :=
  match v with
  | Address _ => TAddress
  | Uint256 _ => TUint256
  | Bool _ => TBool
  end.

Definition byte_of_Z (z : Z) : byte :=
  match Byte.of_N (Z.to_N (z mod 256)) with
  | Some b => b
  | None => x00
  end.

Definition Z_of_byte (b : byte) : Z := Z.of_N (Byte.to_N b).

(** The [n] low bytes of [z], most significant first. *)
Fixpoint be_bytes (n : nat) (z : Z) : list byte :=
  match n with
  | O => []
  | S k => (be_bytes k (z / 256) ++ [byte_of_Z z])%list
  end.

Definition be_value (bs : list byte) : Z :=
  fold_left (fun acc b => acc * 256 + Z_of_byte b) bs 0.

Definition word (z : Z) : list byte := be_bytes 32 z.

Definition encode_value (v : value) : result (list byte) :=
  match v with
  | Address a =>
      if (0 <=? a) && (a <? 2 ^ 160) then Ok (word a)
      else Throw "invalid address"
  | Uint256 n =>
      if (0 <=? n) && (n <? 2 ^ 256) then Ok (word n)
      else Throw "value out-of-bounds"
  | Bool b => Ok (word (if b then 1 else 0))
  end.

Fixpoint encode (vs : list value) : result (list byte) :=
  match vs with
  | [] => Ok []
  | v :: rest =>
      match encode_value v with
      | Ok w =>
          match encode rest with
          | Ok ws => Ok (w ++ ws)%list
          | Throw msg => Throw msg
          end
      | Throw msg => Throw msg
      end
  end.

(** Solidity checks what it decodes: an address has its 12 high bytes
    clear and a bool is 0 or 1; anything else reverts ([None]). *)
Definition decode_value (t : type) (w : list byte) : option value :=
  let z := be_value w in
  match t with
  | TAddress => if z <? 2 ^ 160 then Some (Address z) else None
  | TUint256 => Some (Uint256 z)
  | TBool =>
      if z =? 0 then Some (Bool false)
      else if z =? 1 then Some (Bool true)
      else None
  end.

Fixpoint decode (ts : list type) (data : list byte) : option (list value) :=
  match ts with
  | [] => Some []
  | t :: rest =>
      if (length data <? 32)%nat then None
      else
        match decode_value t (firstn 32 data) with
        | Some v =>
            match decode rest (skipn 32 data) with
            | Some vs => Some (v :: vs)
            | None => None
            end
        | None => None
        end
  end.

End Abi.

(** ** contracts/FlashLoanLiquidator.sol *)

Module FlashLoanLiquidator.

(** The first step of [executeOperation]:
    [abi.decode(params, (address, address, address, uint256, bool))]. *)
Definition decodeParams (params : list byte) : option (Z * Z * Z * Z * bool) :=
  match Abi.decode [Abi.TAddress; Abi.TAddress; Abi.TAddress; Abi.TUint256; Abi.TBool] params with
  | Some [Abi.Address collateralAsset; Abi.Address debtAsset; Abi.Address user;
          Abi.Uint256 debtToCover; Abi.Bool receiveAToken] =>
      Some (collateralAsset, debtAsset, user, debtToCover, receiveAToken)
  | _ => None
  end.

End FlashLoanLiquidator.

(** ** core/liquidator.ts *)

Module Liquidator.

Import LiquidationProfitCalculation.

Definition flashLoanPremium : float := 9.

(** The address string [liquidator.ts] constructs the executor contract
    with. *)
Definition placeholderAddress : string := "0x...".

(** [parseFloat(ethers.utils.formatUnits(value, decimals))];
    [formatUnits] takes between 0 and 256 decimals. *)
Definition formatUnits_number (value : Z) (decimals : Z) : result float :=
  if (decimals <? 0) || (256 <? decimals) then Throw "invalid decimal size"
  else Ok (Number.of_decimal value decimals).

Definition closeFactorMultiplier (cfg : Config.t) (target : LiquidationTarget.t) : Z :=
  if LiquidationTarget.healthFactor target <? Config.closeFactorHfThreshold cfg
  then 10000
  else 5000.

Definition maxDebtToCover (cfg : Config.t) (target : LiquidationTarget.t) (debtAsset : Asset.t) : Z :=
  Z.quot (Asset.amount debtAsset * closeFactorMultiplier cfg target) 10000.

Definition calculateLiquidationProfit (cfg : Config.t) (w : World)
    (target : LiquidationTarget.t) (debtAsset collateralAsset : Asset.t) : M t :=
  let* debtAssetPrice := PriceMonitor.getPriceData w (Asset.address debtAsset) in
  let* collateralAssetPrice := PriceMonitor.getPriceData w (Asset.address collateralAsset) in
  let maxDebtToCover := maxDebtToCover cfg target debtAsset in
  let debtToCover := Z.quot (maxDebtToCover * 95) 100 in
  let liquidationBonus := Number.or_default (Asset.liquidationBonus collateralAsset) 1.05 in
  let* collateralUnit := lift (BigNumber.pow10 (Asset.decimals collateralAsset)) in
  let* bonusBps := lift (BigNumber.from_floor (liquidationBonus * 10000)) in
  let* perCollateralPrice :=
    lift (BigNumber.div
            (PriceData.aaveOraclePrice debtAssetPrice * debtToCover * collateralUnit * bonusBps)
            (PriceData.aaveOraclePrice collateralAssetPrice)) in
  let* debtUnit := lift (BigNumber.pow10 (Asset.decimals debtAsset)) in
  let* scaled := lift (BigNumber.div perCollateralPrice debtUnit) in
  let collateralToReceive := Z.quot scaled 10000 in
  let* debtUnits := lift (formatUnits_number debtToCover (Asset.decimals debtAsset)) in
  let* debtPriceUsd := lift (formatUnits_number (PriceData.aaveOraclePrice debtAssetPrice) 8) in
  let debtAmountUsd := (debtUnits * debtPriceUsd)%float in
  let* collateralUnits := lift (formatUnits_number collateralToReceive (Asset.decimals collateralAsset)) in
  let* collateralPriceUsd := lift (formatUnits_number (PriceData.aaveOraclePrice collateralAssetPrice) 8) in
  let collateralAmountUsd := (collateralUnits * collateralPriceUsd)%float in
  let grossProfitUsd := (collateralAmountUsd - debtAmountUsd)%float in
  let flashLoanCostUsd := (debtAmountUsd * (flashLoanPremium / 10000))%float in
  let* gasPrice := lift (getGasPrice w) in
  let gasLimit := 1000000 in
  let gasCostWei := gasPrice * gasLimit in
  let* ethPrice := PriceMonitor.getPriceData w (Config.aavePoolAddress cfg) in
  let* ethPriceUsd := lift (formatUnits_number (PriceData.aaveOraclePrice ethPrice) 8) in
  let* gasCostEth := lift (formatUnits_number gasCostWei 18) in
  let gasCostUsd := (gasCostEth * ethPriceUsd)%float in
  let netProfitUsd := (grossProfitUsd - flashLoanCostUsd - gasCostUsd)%float in
  let profitable := (Config.minProfitUsd cfg <? netProfitUsd)%float in
  let executionPriority :=
    if profitable then (netProfitUsd / debtAmountUsd * 100)%float else 0%float in
  ret (mk target debtAsset collateralAsset debtToCover collateralToReceive
          liquidationBonus grossProfitUsd (gasCostUsd + flashLoanCostUsd)%float
          netProfitUsd profitable executionPriority).

(** [defaultAbiCoder.encode(['address', 'address', 'address', 'uint256',
    'bool'], [collateral, debt, user, debtToCover, false])] *)
Definition encodeParams (w : World) (collateralAsset debtAsset user : string)
    (debtToCover : Z) : result (list byte) :=
  match getAddress w collateralAsset, getAddress w debtAsset, getAddress w user with
  | Some c, Some d, Some u =>
      Abi.encode [Abi.Address c; Abi.Address d; Abi.Address u;
                  Abi.Uint256 debtToCover; Abi.Bool false]
  | _, _, _ => Throw "invalid address"
  end.

Definition gasPriceTooHigh (w : World) : ExecutionResult.t :=
  ExecutionResult.mk false None (Some "Gas price too high") None None (Date_now w).

Definition executeLiquidation_try (cfg : Config.t) (w : World) (calculation : t)
    : M ExecutionResult.t :=
  let* params :=
    lift (encodeParams w (Asset.address (collateralAsset calculation))
            (Asset.address (debtAsset calculation))
            (LiquidationTarget.user (target calculation))
            (debtToCover calculation)) in
  let* currentGasPrice := lift (getGasPrice w) in
  let* maxGasPrice := lift (Config.maxGasPriceGwei cfg) in
  if currentGasPrice >? maxGasPrice then ret (gasPriceTooHigh w)
  else
    let call :=
      FlashLoanCall.mk (Config.flashLoanExecutorAddress cfg)
        [Asset.address (debtAsset calculation)] [debtToCover calculation] [0]
        (Config.walletAddress cfg) params 0 2000000 currentGasPrice in
    let* tx := lift (flashLoan w call) in
    do modify (push_sent call) then
    let* receipt := lift (tx_wait w tx) in
    let success := Receipt.status receipt =? 1 in
    let gasUsed := Receipt.gasUsed receipt in
    let gasCostWei := gasUsed * Receipt.effectiveGasPrice receipt in
    if success then
      ret (ExecutionResult.mk true (Some (Receipt.transactionHash receipt)) None
             (Some gasUsed) (Some gasCostWei) (Date_now w))
    else
      ret (ExecutionResult.mk false (Some (Receipt.transactionHash receipt))
             (Some "Transaction failed") (Some gasUsed) (Some gasCostWei) (Date_now w)).

Definition executeLiquidation (cfg : Config.t) (w : World) (calculation : t)
    : M ExecutionResult.t :=
  try_catch (executeLiquidation_try cfg w calculation)
    (fun message => ret (ExecutionResult.mk false None (Some message) None None (Date_now w))).

End Liquidator.

(** ** Array.prototype.sort

    The sort is stable (ECMAScript 2019): an element is placed behind
    another one only when the comparator is positive on the pair, and a
    comparator answer of [NaN] counts as [+0].  With a comparator that is
    consistent on the array this is what every engine returns. *)

Module Array.

Fixpoint insert {A} (compareFn : A -> A -> float) (x : A) (l : list A) : list A :=
  match l with
  | [] => [x]
  | y :: rest =>
      if (0 <? compareFn x y)%float then y :: insert compareFn x rest
      else x :: l
  end.

Definition sort {A} (compareFn : A -> A -> float) (l : list A) : list A :=
  fold_right (insert compareFn) [] l.

End Array.

(** The ranking step shared by the strategy scanners:
    [opportunities.sort((a, b) => b.executionPriority - a.executionPriority)]. *)
Definition rank (opportunities : list LiquidationProfitCalculation.t)
    : list LiquidationProfitCalculation.t :=
  Array.sort
    (fun a b => (LiquidationProfitCalculation.executionPriority b
                 - LiquidationProfitCalculation.executionPriority a)%float)
    opportunities.

(** ** strategies/eModeStrategy.ts *)

Module EModeStrategy.

Import LiquidationProfitCalculation.

Definition priorityMultiplier : float := 1.2.

Definition scan_position (cfg : Config.t) (w : World) (position : LiquidationTarget.t)
    (opportunities : list t) : M (list t) :=
  for_fold (LiquidationTarget.debtAssets position) opportunities (fun opportunities debtAsset =>
    do PriceMonitor.getPriceData w (Asset.address debtAsset) then
    for_fold (LiquidationTarget.collateralAssets position) opportunities (fun opportunities collateralAsset =>
      do PriceMonitor.getPriceData w (Asset.address collateralAsset) then
      let* profitCalculation :=
        Liquidator.calculateLiquidationProfit cfg w position debtAsset collateralAsset in
      if profitable profitCalculation
      then ret (opportunities ++ [boost priorityMultiplier profitCalculation])%list
      else ret opportunities)).

Definition scan (cfg : Config.t) (w : World) (isEnabled : bool) : M (list t) :=
  if negb isEnabled then ret []
  else
    try_catch
      (let liquidatablePositions := getLiquidatablePositions w in
       let eModePositions :=
         List.filter (fun p => negb (LiquidationTarget.eModeCategoryId p =? 0)) liquidatablePositions in
       let* opportunities :=
         for_fold eModePositions [] (fun opportunities position =>
           scan_position cfg w position opportunities) in
       ret (rank opportunities))
      (fun _ => ret []).

End EModeStrategy.

(** ** The oracle delay strategy ([OracleDelayStrategy]) *)

Module OracleDelayStrategy.

Import LiquidationProfitCalculation.

(** A discrepancy figure that passes [if (!x) continue]. *)
Definition truthy (x : option float) : option float :=
  match x with
  | Some v => if Number.falsy v then None else Some v
  | None => None
  end.

Definition scan_position (cfg : Config.t) (w : World) (minPriceDiscrepancyPercent : float)
    (position : LiquidationTarget.t) (opportunities : list t) : M (list t) :=
  for_fold (LiquidationTarget.debtAssets position) opportunities (fun opportunities debtAsset =>
    let* debtPriceData := PriceMonitor.getPriceData w (Asset.address debtAsset) in
    match truthy (PriceData.discrepancyPercentage debtPriceData) with
    | None => ret opportunities
    | Some debtDiscrepancy =>
      let hasSignificantDebtDiscrepancy :=
        (minPriceDiscrepancyPercent <=? debtDiscrepancy)%float in
      for_fold (LiquidationTarget.collateralAssets position) opportunities (fun opportunities collateralAsset =>
        let* collateralPriceData := PriceMonitor.getPriceData w (Asset.address collateralAsset) in
        match truthy (PriceData.discrepancyPercentage collateralPriceData) with
        | None => ret opportunities
        | Some collateralDiscrepancy =>
          let hasSignificantCollateralDiscrepancy :=
            (minPriceDiscrepancyPercent <=? collateralDiscrepancy)%float in
          if hasSignificantDebtDiscrepancy || hasSignificantCollateralDiscrepancy then
            let* profitCalculation :=
              Liquidator.calculateLiquidationProfit cfg w position debtAsset collateralAsset in
            if profitable profitCalculation then
              let combinedDiscrepancy :=
                (Number.or_default (Some debtDiscrepancy) 0
                 + Number.or_default (Some collateralDiscrepancy) 0)%float in
              let priorityBoost := (1 + combinedDiscrepancy / 100)%float in
              ret (opportunities ++ [boost priorityBoost profitCalculation])%list
            else ret opportunities
          else ret opportunities
        end)
    end).

Definition scan (cfg : Config.t) (w : World) (isEnabled : bool)
    (minPriceDiscrepancyPercent : float) : M (list t) :=
  if negb isEnabled then ret []
  else
    try_catch
      (let liquidatablePositions := getLiquidatablePositions w in
       let* opportunities :=
         for_fold liquidatablePositions [] (fun opportunities position =>
           scan_position cfg w minPriceDiscrepancyPercent position opportunities) in
       ret (rank opportunities))
      (fun _ => ret []).

End OracleDelayStrategy.

(** ** strategies/strategyManager.ts *)

Module StrategyManager.

Import LiquidationProfitCalculation.

Definition executionCooldown : Z := 60000.

Definition get_lastExecutionTime : M Z := fun s => (Ok (lastExecutionTime s), s).

Definition hasPriceDiscrepancy (cfg : Config.t) (assetAddress : string) : M bool :=
  fun s => (Ok (PriceMonitor.hasPriceDiscrepancy cfg s assetAddress), s).

(** The body of the three nested loops of [executeStrategy]. *)
Definition better (bestOpportunity : option t) (profitCalculation : t) : option t :=
  if profitable profitCalculation then
    match bestOpportunity with
    | None => Some profitCalculation
    | Some best =>
        if (executionPriority best <? executionPriority profitCalculation)%float
        then Some profitCalculation
        else bestOpportunity
    end
  else bestOpportunity.

Definition findBest (cfg : Config.t) (w : World) (positions : list LiquidationTarget.t)
    : M (option t) :=
  for_fold positions None (fun best position =>
    for_fold (LiquidationTarget.debtAssets position) best (fun best debtAsset =>
      for_fold (LiquidationTarget.collateralAssets position) best (fun best collateralAsset =>
        let* profitCalculation :=
          Liquidator.calculateLiquidationProfit cfg w position debtAsset collateralAsset in
        ret (better best profitCalculation)))).

Definition executeStrategy (cfg : Config.t) (w : World) : M unit :=
  try_catch
    (let now := Date_now w in
     let* last := get_lastExecutionTime in
     if now - last <? executionCooldown then ret tt
     else
       let liquidatablePositions := getLiquidatablePositions w in
       if (length liquidatablePositions =? 0)%nat then ret tt
       else
         let* bestOpportunity := findBest cfg w liquidatablePositions in
         match bestOpportunity with
         | Some best =>
             let* result := Liquidator.executeLiquidation cfg w best in
             do modify (set_lastExecutionTime now) then
             modify (push_executionHistory result)
         | None => ret tt
         end)
    (fun _ => ret tt).

(** The innermost step of [oracleDelayStrategy] and [eModeStrategy]: boost
    the priority and execute at once when the net profit clears
    [margin] times the floor.  Answers [true] when the strategy returns
    (the execution succeeded). *)
Definition executeIfVeryProfitable (cfg : Config.t) (w : World) (multiplier margin : float)
    (profitCalculation : t) : M bool :=
  if profitable profitCalculation then
    let profitCalculation := boost multiplier profitCalculation in
    if (Config.minProfitUsd cfg * margin <? netProfitUsd profitCalculation)%float then
      let* result := Liquidator.executeLiquidation cfg w profitCalculation in
      do modify (push_executionHistory result) then
      do modify (set_lastExecutionTime (Date_now w)) then
      ret (ExecutionResult.success result)
    else ret false
  else ret false.

Definition oracleDelayStrategy (cfg : Config.t) (w : World) : M unit :=
  try_catch
    (let liquidatablePositions := getLiquidatablePositions w in
     do for_of liquidatablePositions (fun position =>
       for_of (LiquidationTarget.debtAssets position) (fun debtAsset =>
         do PriceMonitor.getPriceData w (Asset.address debtAsset) then
         let* debtDiscrepancy := hasPriceDiscrepancy cfg (Asset.address debtAsset) in
         if negb debtDiscrepancy then ret false
         else
           for_of (LiquidationTarget.collateralAssets position) (fun collateralAsset =>
             do PriceMonitor.getPriceData w (Asset.address collateralAsset) then
             let* collateralDiscrepancy := hasPriceDiscrepancy cfg (Asset.address collateralAsset) in
             if collateralDiscrepancy then
               let* profitCalculation :=
                 Liquidator.calculateLiquidationProfit cfg w position debtAsset collateralAsset in
               executeIfVeryProfitable cfg w 1.5 2 profitCalculation
             else ret false))) then
     ret tt)
    (fun _ => ret tt).

Definition eModeStrategy (cfg : Config.t) (w : World) : M unit :=
  try_catch
    (let liquidatablePositions := getLiquidatablePositions w in
     let eModePositions :=
       List.filter (fun p => negb (LiquidationTarget.eModeCategoryId p =? 0)) liquidatablePositions in
     do for_of eModePositions (fun position =>
       for_of (LiquidationTarget.debtAssets position) (fun debtAsset =>
         for_of (LiquidationTarget.collateralAssets position) (fun collateralAsset =>
           let* profitCalculation :=
             Liquidator.calculateLiquidationProfit cfg w position debtAsset collateralAsset in
           executeIfVeryProfitable cfg w 1.2 1.5 profitCalculation))) then
     ret tt)
    (fun _ => ret tt).

End StrategyManager.

(** ** State and errors over any state

    The same computations as [M], for the singletons that keep a state of
    their own. *)

Module Eff.

Definition T (S A : Type) : Type := S -> result A * S.

Definition ret {S A} (a : A) : T S A := fun s => (Ok a, s).

Definition bind {S A B} (c : T S A) (k : A -> T S B) : T S B :=
  fun s => match c s with
           | (Ok a, s') => k a s'
           | (Throw msg, s') => (Throw msg, s')
           end.

Definition lift {S A} (r : result A) : T S A := fun s => (r, s).

Definition get {S} : T S S := fun s => (Ok s, s).

Definition modify {S} (f : S -> S) : T S unit := fun s => (Ok tt, f s).

Definition try_catch {S A} (c : T S A) (h : string -> T S A) : T S A :=
  fun s => match c s with
           | (Ok a, s') => (Ok a, s')
           | (Throw msg, s') => h msg s'
           end.

Fixpoint for_fold {S A B} (xs : list A) (acc : B) (body : B -> A -> T S B) : T S B :=
  match xs with
  | [] => ret acc
  | x :: rest => bind (body acc x) (fun acc' => for_fold rest acc' body)
  end.

End Eff.

Declare Scope eff_scope.
Delimit Scope eff_scope with eff.
Notation "'let*' x ':=' c 'in' k" := (Eff.bind c (fun x => k))
  (at level 10, x name, c at level 100, k at level 200) : eff_scope.
Notation "'do' c 'then' k" := (Eff.bind c (fun _ => k))
  (at level 10, c at level 100, k at level 200) : eff_scope.

(** ** services/healthFactorMonitor.ts *)

Module UserAccountData.
Record t : Type := mk {
  totalCollateralBase : Z;
  totalDebtBase : Z;
  availableBorrowsBase : Z;
  currentLiquidationThreshold : Z;
  ltv : Z;
  healthFactor : Z;
  user : string
}.
End UserAccountData.

(** The fields of [getUserReserveData] the monitor reads. *)
Module UserReserveData.
Record t : Type := mk {
  currentATokenBalance : Z;
  currentStableDebt : Z;
  currentVariableDebt : Z;
  usageAsCollateralEnabled : bool
}.
End UserReserveData.

(** The fields of [getReserveConfigurationData] the monitor reads. *)
Module ReserveConfiguration.
Record t : Type := mk {
  ltv : Z;
  liquidationThreshold : Z;
  liquidationBonus : Z;
  usageAsCollateralEnabled : bool
}.
End ReserveConfiguration.

Module ReserveInfo.
Record t : Type := mk {
  symbol : string;
  decimals : Z;
  ltv : Z;
  liquidationThreshold : Z;
  liquidationBonus : Z;
  usageAsCollateralEnabled : bool
}.
End ReserveInfo.

(** What the pool, the data provider and the tokens answer. *)
Module Chain.
Record t : Type := mk {
  (** [pool.getReservesList()] *)
  getReservesList : result (list string);
  (** [pool.getUserAccountData(user)]; the [user] field is set by the
      caller. *)
  getUserAccountData : string -> result UserAccountData.t;
  (** [pool.getUserEMode(user)] *)
  getUserEMode : string -> result Z;
  (** [poolDataProvider.getUserReserveData(asset, user)] *)
  getUserReserveData : string -> string -> result UserReserveData.t;
  (** [poolDataProvider.getReserveConfigurationData(asset)] *)
  getReserveConfigurationData : string -> result ReserveConfiguration.t;
  (** [token.symbol()] and [token.decimals()] of the ERC-20 at an address *)
  symbol : string -> result string;
  decimals : string -> result Z
}.
End Chain.

Module HealthFactorMonitor.

Local Open Scope eff_scope.

(** The thresholds of [config.ts]: [healthFactorThreshold] as
    [parseUnits(config.healthFactorThreshold.toString(), 18)] reads it (a
    number with more than 18 decimals is refused), and
    [healthFactorLiquidationThreshold]. *)
Record Thresholds : Type := {
  healthFactorThreshold : result Z;
  healthFactorLiquidationThreshold : Z
}.

(** The fields of the singleton.  [monitoredUsers] is a [Map]: its keys
    keep their insertion order. *)
Record t : Type := {
  monitoredUsers : list (string * LiquidationTarget.t);
  reservesList : list string;
  reservesData : gmap string ReserveInfo.t;
  tokenSymbols : gmap string string;
  tokenDecimals : gmap string Z
}.

Definition set_monitoredUsers
    (f : list (string * LiquidationTarget.t) -> list (string * LiquidationTarget.t))
    (s : t) : t :=
  {| monitoredUsers := f (monitoredUsers s); reservesList := reservesList s;
     reservesData := reservesData s; tokenSymbols := tokenSymbols s;
     tokenDecimals := tokenDecimals s |}.

Definition set_reservesList (l : list string) (s : t) : t :=
  {| monitoredUsers := monitoredUsers s; reservesList := l;
     reservesData := reservesData s; tokenSymbols := tokenSymbols s;
     tokenDecimals := tokenDecimals s |}.

(** The three [set] calls at the end of [getReserveInfo]. *)
Definition cache_reserve (asset : string) (info : ReserveInfo.t) (s : t) : t :=
  {| monitoredUsers := monitoredUsers s; reservesList := reservesList s;
     reservesData := <[asset := info]> (reservesData s);
     tokenSymbols := <[asset := ReserveInfo.symbol info]> (tokenSymbols s);
     tokenDecimals := <[asset := ReserveInfo.decimals info]> (tokenDecimals s) |}.

(** [Map.prototype.get] *)
Fixpoint map_get {V} (key : string) (m : list (string * V)) : option V :=
  match m with
  | [] => None
  | (k, v) :: rest => if String.eqb k key then Some v else map_get key rest
  end.

(** [Map.prototype.set]: a present key keeps its place, a new one goes
    last. *)
Fixpoint map_set {V} (key : string) (value : V) (m : list (string * V)) : list (string * V) :=
  match m with
  | [] => [(key, value)]
  | (k, v) :: rest =>
      if String.eqb k key then (k, value) :: rest
      else (k, v) :: map_set key value rest
  end.

(** [Array.from(map.keys())] *)
Definition map_keys {V} (m : list (string * V)) : list string := map fst m.

(** [BigNumber.prototype.toNumber]: refused beyond 53 bits. *)
Definition toNumber (z : Z) : result Z :=
  if Z.abs z <? 2 ^ 53 then Ok z else Throw "overflow".

(** [n / 10000] for a whole number [n] within 53 bits. *)
Definition fromBasisPoints (n : Z) : float :=
  (Number.of_decimal n 0 / 10000)%float.

Definition getReserveInfo (c : Chain.t) (asset : string) : Eff.T t ReserveInfo.t :=
  let* s := Eff.get in
  match reservesData s !! asset with
  | Some cached => Eff.ret cached
  | None =>
      let* configData := Eff.lift (Chain.getReserveConfigurationData c asset) in
      let* symbol := Eff.lift (Chain.symbol c asset) in
      let* decimals := Eff.lift (Chain.decimals c asset) in
      let reserveInfo :=
        ReserveInfo.mk symbol decimals
          (ReserveConfiguration.ltv configData)
          (ReserveConfiguration.liquidationThreshold configData)
          (ReserveConfiguration.liquidationBonus configData)
          (ReserveConfiguration.usageAsCollateralEnabled configData) in
      do Eff.modify (cache_reserve asset reserveInfo) then
      Eff.ret reserveInfo
  end.

Definition initialize (c : Chain.t) : Eff.T t unit :=
  let* reserves := Eff.lift (Chain.getReservesList c) in
  do Eff.modify (set_reservesList reserves) then
  Eff.for_fold reserves tt (fun _ asset =>
    do getReserveInfo c asset then Eff.ret tt).

Definition getUserAccountData (c : Chain.t) (userAddress : string)
    : Eff.T t UserAccountData.t :=
  let* data := Eff.lift (Chain.getUserAccountData c userAddress) in
  Eff.ret (UserAccountData.mk
             (UserAccountData.totalCollateralBase data)
             (UserAccountData.totalDebtBase data)
             (UserAccountData.availableBorrowsBase data)
             (UserAccountData.currentLiquidationThreshold data)
             (UserAccountData.ltv data)
             (UserAccountData.healthFactor data)
             userAddress).

(** One turn of the loop over the reserves in [getUserDetailedPosition]. *)
Definition collect_reserve (c : Chain.t) (userAddress : string)
    (assets : list Asset.t * list Asset.t) (asset : string)
    : Eff.T t (list Asset.t * list Asset.t) :=
  let collateralAssets := fst assets in
  let debtAssets := snd assets in
  let* userReserveData := Eff.lift (Chain.getUserReserveData c asset userAddress) in
  let aTokenBalance := UserReserveData.currentATokenBalance userReserveData in
  let stableDebt := UserReserveData.currentStableDebt userReserveData in
  let variableDebt := UserReserveData.currentVariableDebt userReserveData in
  if (aTokenBalance >? 0) || (stableDebt >? 0) || (variableDebt >? 0) then
    let* reserveInfo := getReserveInfo c asset in
    let* collateralAssets :=
      if (aTokenBalance >? 0) && UserReserveData.usageAsCollateralEnabled userReserveData then
        let* threshold := Eff.lift (toNumber (ReserveInfo.liquidationThreshold reserveInfo)) in
        let* bonus := Eff.lift (toNumber (ReserveInfo.liquidationBonus reserveInfo)) in
        Eff.ret (collateralAssets ++
                 [Asset.mk (ReserveInfo.symbol reserveInfo) asset
                    (ReserveInfo.decimals reserveInfo) aTokenBalance
                    (Some (fromBasisPoints threshold)) (Some (fromBasisPoints bonus))])%list
      else Eff.ret collateralAssets in
    let totalDebt := stableDebt + variableDebt in
    let debtAssets :=
      if totalDebt >? 0 then
        (debtAssets ++
         [Asset.mk (ReserveInfo.symbol reserveInfo) asset
            (ReserveInfo.decimals reserveInfo) totalDebt None None])%list
      else debtAssets in
    Eff.ret (collateralAssets, debtAssets)
  else Eff.ret assets.

Definition getUserDetailedPosition (c : Chain.t) (userAddress : string)
    : Eff.T t LiquidationTarget.t :=
  let* accountData := getUserAccountData c userAddress in
  let* eModeCategoryId := Eff.lift (Chain.getUserEMode c userAddress) in
  let* s := Eff.get in
  let* assets := Eff.for_fold (reservesList s) ([], []) (collect_reserve c userAddress) in
  let* eMode := Eff.lift (toNumber eModeCategoryId) in
  Eff.ret (LiquidationTarget.mk userAddress
             (UserAccountData.healthFactor accountData)
             (UserAccountData.totalCollateralBase accountData)
             (UserAccountData.totalDebtBase accountData)
             (fst assets) (snd assets) eMode).

(** The body of the loop of [scanForLowHealthFactors], inside its [try]. *)
Definition scan_address (th : Thresholds) (c : Chain.t)
    (targets : list LiquidationTarget.t) (address : string)
    : Eff.T t (list LiquidationTarget.t) :=
  let* userData := getUserAccountData c address in
  let* threshold := Eff.lift (healthFactorThreshold th) in
  if UserAccountData.healthFactor userData <? threshold then
    let* detailedPosition := getUserDetailedPosition c address in
    do Eff.modify (set_monitoredUsers (map_set address detailedPosition)) then
    Eff.ret (targets ++ [detailedPosition])%list
  else Eff.ret targets.

Definition scanForLowHealthFactors (th : Thresholds) (c : Chain.t) (addresses : list string)
    : Eff.T t (list LiquidationTarget.t) :=
  Eff.for_fold addresses [] (fun targets address =>
    Eff.try_catch (scan_address th c targets address) (fun _ => Eff.ret targets)).

(** [currentTarget.healthFactor = healthFactor] on a stored target. *)
Definition with_healthFactor (healthFactor : Z) (target : LiquidationTarget.t)
    : LiquidationTarget.t :=
  LiquidationTarget.mk (LiquidationTarget.user target) healthFactor
    (LiquidationTarget.totalCollateralBase target)
    (LiquidationTarget.totalDebtBase target)
    (LiquidationTarget.collateralAssets target)
    (LiquidationTarget.debtAssets target)
    (LiquidationTarget.eModeCategoryId target).

(** The body of the loop of [getLiquidatablePositions], inside its [try]. *)
Definition refresh_address (th : Thresholds) (c : Chain.t)
    (liquidatablePositions : list LiquidationTarget.t) (address : string)
    : Eff.T t (list LiquidationTarget.t) :=
  let* userData := getUserAccountData c address in
  let* s := Eff.get in
  match map_get address (monitoredUsers s) with
  | Some currentTarget =>
      do Eff.modify
           (set_monitoredUsers
              (map_set address
                 (with_healthFactor (UserAccountData.healthFactor userData) currentTarget))) then
      if UserAccountData.healthFactor userData <? healthFactorLiquidationThreshold th then
        let* detailedPosition := getUserDetailedPosition c address in
        Eff.ret (liquidatablePositions ++ [detailedPosition])%list
      else Eff.ret liquidatablePositions
  | None => Eff.ret liquidatablePositions
  end.

Definition getLiquidatablePositions (th : Thresholds) (c : Chain.t)
    : Eff.T t (list LiquidationTarget.t) :=
  let* s := Eff.get in
  let monitoredAddresses := map_keys (monitoredUsers s) in
  Eff.for_fold monitoredAddresses [] (fun liquidatablePositions address =>
    Eff.try_catch (refresh_address th c liquidatablePositions address)
      (fun _ => Eff.ret liquidatablePositions)).

End HealthFactorMonitor.

(** ** core/liquidator.ts: the direct path *)

Module DirectLiquidation.

Local Open Scope eff_scope.

(** The transactions the direct path signs. *)
Inductive Tx : Type :=
| Approve (token spender : string) (amount : Z)
| LiquidationCall (collateralAsset debtAsset user : string) (debtToCover : Z)
    (receiveAToken : bool) (gasLimit gasPrice : Z).

(** What the debt token and the pool answer to the wallet. *)
Record Wallet : Type := {
  (** [debtToken.balanceOf(holder)] on the token at an address *)
  balanceOf : string -> string -> result Z;
  (** The hash of the transaction sent, or the error that kept it from
      being sent. *)
  send : Tx -> result string
}.

Definition submit (wallet : Wallet) (tx : Tx) : Eff.T (list Tx) string :=
  let* hash := Eff.lift (send wallet tx) in
  do Eff.modify (fun sent => sent ++ [tx])%list then
  Eff.ret hash.

Definition insufficientBalance (w : World) : ExecutionResult.t :=
  ExecutionResult.mk false None (Some "Insufficient balance") None None (Date_now w).

Definition executeDirectLiquidation_try (cfg : Config.t) (w : World) (wallet : Wallet)
    (calculation : LiquidationProfitCalculation.t) : Eff.T (list Tx) ExecutionResult.t :=
  let target := LiquidationProfitCalculation.target calculation in
  let debtAsset := LiquidationProfitCalculation.debtAsset calculation in
  let collateralAsset := LiquidationProfitCalculation.collateralAsset calculation in
  let debtToCover := LiquidationProfitCalculation.debtToCover calculation in
  let* debtTokenBalance :=
    Eff.lift (balanceOf wallet (Asset.address debtAsset) (Config.walletAddress cfg)) in
  if debtTokenBalance <? debtToCover then Eff.ret (insufficientBalance w)
  else
    let* approveTx :=
      submit wallet (Approve (Asset.address debtAsset) (Config.aavePoolAddress cfg) debtToCover) in
    do Eff.lift (tx_wait w approveTx) then
    let* gasPrice := Eff.lift (getGasPrice w) in
    let* tx :=
      submit wallet
        (LiquidationCall (Asset.address collateralAsset) (Asset.address debtAsset)
           (LiquidationTarget.user target) debtToCover false 1000000 gasPrice) in
    let* receipt := Eff.lift (tx_wait w tx) in
    let success := Receipt.status receipt =? 1 in
    let gasUsed := Receipt.gasUsed receipt in
    let gasCostWei := gasUsed * Receipt.effectiveGasPrice receipt in
    if success then
      Eff.ret (ExecutionResult.mk true (Some (Receipt.transactionHash receipt)) None
                 (Some gasUsed) (Some gasCostWei) (Date_now w))
    else
      Eff.ret (ExecutionResult.mk false (Some (Receipt.transactionHash receipt))
                 (Some "Transaction failed") (Some gasUsed) (Some gasCostWei) (Date_now w)).

Definition executeDirectLiquidation (cfg : Config.t) (w : World) (wallet : Wallet)
    (calculation : LiquidationProfitCalculation.t) : Eff.T (list Tx) ExecutionResult.t :=
  Eff.try_catch (executeDirectLiquidation_try cfg w wallet calculation)
    (fun message =>
       Eff.ret (ExecutionResult.mk false None (Some message) None None (Date_now w))).

End DirectLiquidation.

(** ** contracts/FlashLoanLiquidator.sol: the functions

    A function either returns or reverts; a revert undoes every call made,
    so only the calls of a run that returns are kept.  Addresses and
    amounts are the integers of the EVM. *)

Module Executor.

(** The calls the contract's code makes on tokens and on the pool, one
    constructor for each call expression of the source:
    [IERC20(token).balanceOf(address(this))],
    [IERC20(token).safeApprove(spender, value)], [POOL.liquidationCall(...)]
    and [IERC20(token).safeTransfer(recipient, value)].  [safeApprove] and
    [safeTransfer] are functions of the imported SafeERC20 library: what
    they read and call on the token inside (an allowance, [approve],
    [transfer]) is the library's and is not listed; whether they return is
    the environment's [returns]. *)
Inductive Call : Type :=
| BalanceOf (token : Z)
| SafeApprove (token spender value : Z)
| LiquidationCall (collateralAsset debtAsset user debtToCover : Z) (receiveAToken : bool)
| SafeTransfer (token recipient value : Z).

(** What the other contracts answer, given the calls made so far:
    [IERC20(token).balanceOf(address(this))] ([None] when it reverts), and
    whether a call returns. *)
Record Env : Type := {
  balanceOf : list Call -> Z -> option Z;
  returns : list Call -> Call -> bool
}.

(** The immutables set by the constructor. *)
Record Immutables : Type := {
  owner : Z;
  POOL : Z
}.

Definition Sol (A : Type) : Type := list Call -> option (A * list Call).

Definition sol_ret {A} (a : A) : Sol A := fun calls => Some (a, calls).

Definition sol_bind {A B} (c : Sol A) (k : A -> Sol B) : Sol B :=
  fun calls => match c calls with
               | Some (a, calls') => k a calls'
               | None => None
               end.

Definition revert {A} : Sol A := fun _ => None.

Definition require (condition : bool) : Sol unit :=
  if condition then sol_ret tt else revert.

Definition call (env : Env) (c : Call) : Sol unit :=
  fun calls => if returns env calls c then Some (tt, (calls ++ [c])%list) else None.

Definition balance (env : Env) (token : Z) : Sol Z :=
  fun calls => match balanceOf env calls token with
               | Some v => Some (v, (calls ++ [BalanceOf token])%list)
               | None => None
               end.

(** [array[0]]: an empty array panics. *)
Definition first (array : list Z) : Sol Z :=
  match array with
  | x :: _ => sol_ret x
  | [] => revert
  end.

(** Checked [uint256] addition. *)
Definition checked_add (a b : Z) : Sol Z :=
  if a + b <? 2 ^ 256 then sol_ret (a + b) else revert.

Definition _returnFunds (env : Env) (im : Immutables) (collateralAsset debtAsset : Z)
    : Sol unit :=
  sol_bind (balance env collateralAsset) (fun collateralBalance =>
  sol_bind (if collateralBalance >? 0
            then call env (SafeTransfer collateralAsset (owner im) collateralBalance)
            else sol_ret tt) (fun _ =>
  sol_bind (balance env debtAsset) (fun debtBalance =>
  if debtBalance >? 0
  then call env (SafeTransfer debtAsset (owner im) debtBalance)
  else sol_ret tt))).

Definition executeOperation (env : Env) (im : Immutables) (msg_sender : Z)
    (assets amounts premiums : list Z) (initiator : Z) (params : list byte) : Sol bool :=
  sol_bind (require (msg_sender =? POOL im)) (fun _ =>
  sol_bind (require (initiator =? owner im)) (fun _ =>
  match FlashLoanLiquidator.decodeParams params with
  | None => revert
  | Some (collateralAsset, debtAsset, user, debtToCover, receiveAToken) =>
      sol_bind (call env (SafeApprove debtAsset (POOL im) debtToCover)) (fun _ =>
      sol_bind (call env (LiquidationCall collateralAsset debtAsset user debtToCover
                            receiveAToken)) (fun _ =>
      sol_bind (first amounts) (fun amount =>
      sol_bind (first premiums) (fun premium =>
      sol_bind (checked_add amount premium) (fun amountOwing =>
      sol_bind (first assets) (fun asset =>
      sol_bind (call env (SafeApprove asset (POOL im) amountOwing)) (fun _ =>
      sol_bind (_returnFunds env im collateralAsset debtAsset) (fun _ =>
      sol_ret true))))))))
  end)).

Definition rescueTokens (env : Env) (im : Immutables) (msg_sender token : Z) : Sol unit :=
  sol_bind (require (msg_sender =? owner im)) (fun _ =>
  sol_bind (balance env token) (fun tokenBalance =>
  if tokenBalance >? 0
  then call env (SafeTransfer token (owner im) tokenBalance)
  else sol_ret tt)).

End Executor.

(** ** The [execute] methods of the strategy scanners

    Each scanner keeps an execution history of its own, apart from the
    manager's. *)

Module StrategyExecute.

(** The body both [execute] methods share once the scan is done. *)
Definition executeBest (cfg : Config.t) (w : World)
    (opportunities : list LiquidationProfitCalculation.t)
    (executionHistory : list ExecutionResult.t)
    : M (option ExecutionResult.t * list ExecutionResult.t) :=
  match opportunities with
  | [] => ret (None, executionHistory)
  | bestOpportunity :: _ =>
      let* result := Liquidator.executeLiquidation cfg w bestOpportunity in
      ret (Some result, (executionHistory ++ [result])%list)
  end.

Definition caught (w : World) (executionHistory : list ExecutionResult.t) (message : string)
    : M (option ExecutionResult.t * list ExecutionResult.t) :=
  ret (Some (ExecutionResult.mk false None (Some message) None None (Date_now w)),
       executionHistory).

(** [EModeStrategy.execute] *)
Definition eMode_execute (cfg : Config.t) (w : World) (isEnabled : bool)
    (executionHistory : list ExecutionResult.t)
    : M (option ExecutionResult.t * list ExecutionResult.t) :=
  if negb isEnabled then ret (None, executionHistory)
  else
    try_catch
      (let* opportunities := EModeStrategy.scan cfg w isEnabled in
       executeBest cfg w opportunities executionHistory)
      (caught w executionHistory).

(** [OracleDelayStrategy.execute] *)
Definition oracleDelay_execute (cfg : Config.t) (w : World) (isEnabled : bool)
    (minPriceDiscrepancyPercent : float) (executionHistory : list ExecutionResult.t)
    : M (option ExecutionResult.t * list ExecutionResult.t) :=
  if negb isEnabled then ret (None, executionHistory)
  else
    try_catch
      (let* opportunities := OracleDelayStrategy.scan cfg w isEnabled minPriceDiscrepancyPercent in
       executeBest cfg w opportunities executionHistory)
      (caught w executionHistory).

End StrategyExecute.

(** ** A worked scenario

    The spec's example: a debt asset priced 2000 with 6 decimals, a
    collateral asset priced 1 with 18 decimals and a 1.05 bonus, health
    factor 0.90 against a close-factor threshold of 0.95, and an
    outstanding debt of which 95% is 1000 units. *)

Module Scenario.

Definition hex_digit (c : ascii) : option Z :=
  let n := Z.of_N (N_of_ascii c) in
  if (48 <=? n) && (n <=? 57) then Some (n - 48)
  else if (97 <=? n) && (n <=? 102) then Some (n - 87)
  else if (65 <=? n) && (n <=? 70) then Some (n - 55)
  else None.

Fixpoint hex_value (s : string) (acc : Z) : option Z :=
  match s with
  | EmptyString => Some acc
  | String c rest =>
      match hex_digit c with
      | Some d => hex_value rest (acc * 16 + d)
      | None => None
      end
  end.

(** An address string read as a number: ["0x"] and 40 hex digits. *)
Definition hex_address (s : string) : option Z :=
  match s with
  | String "0" (String "x" digits) =>
      if (String.length digits =? 40)%nat then hex_value digits 0 else None
  | _ => None
  end.

Definition pool : string := "0x87870Bca3F3fD6335C3F4ce8392D69350B4fA4E2".
Definition wallet : string := "0x00000000000000000000000000000000000B0B01".
Definition borrower : string := "0x00000000000000000000000000000000000A11CE".

Definition executor : string := "0x00000000000000000000000000000000000E8EC0".

(** The configuration with the code as it is written: a ceiling of 100
    gwei and the placeholder for the executor. *)
Definition cfg : Config.t :=
  Config.mk 950000000000000000 50 (Ok 100000000000) 2 pool wallet
    Liquidator.placeholderAddress.

(** The same with the executor's address filled in. *)
Definition deployed : Config.t :=
  Config.mk 950000000000000000 50 (Ok 100000000000) 2 pool wallet executor.

Definition debt : Asset.t :=
  Asset.mk "WETH" PriceMonitor.WETH 6 1052631579 None None.

Definition collateral (bonus : option float) : Asset.t :=
  Asset.mk "DAI" PriceMonitor.DAI 18 5000000000000000000000000 (Some 0.8%float) bonus.

Definition position (bonus : option float) : LiquidationTarget.t :=
  LiquidationTarget.mk borrower 900000000000000000 500000000000000 210526315800000
    [collateral bonus] [debt] 1.

Definition txHash : string := "0x5e771ed".

Definition resolves (address : string) : bool :=
  match hex_address address with
  | Some _ => true
  | None => false
  end.

(** What ethers raises for an address argument that does not resolve. *)
Definition unresolved : string := "invalid address or ENS name".

(** The oracle prices 2000 and 1 (8 decimals), the external quotes 2100
    and 0.97, and 3000 for the address the gas cost is priced with.  A
    flash loan is sent when its receiver, its assets and its beneficiary
    are addresses, and mined with the given status. *)
Definition world (now gasPriceWei receiptStatus : Z) (bonus : option float) : World :=
  {| Date_now := now;
     getAssetPrice := fun a =>
       if String.eqb a PriceMonitor.WETH then Ok 200000000000
       else if String.eqb a PriceMonitor.DAI then Ok 100000000
       else if String.eqb a pool then Ok 300000000000
       else Throw "call revert exception";
     quoteExactInputSingle := fun _ => None;
     coingeckoUsd := fun id =>
       if String.eqb id "ethereum" then Some 210000000000
       else if String.eqb id "dai" then Some 97000000
       else None;
     getGasPrice := Ok gasPriceWei;
     getAddress := hex_address;
     flashLoan := fun call =>
       if resolves (FlashLoanCall.receiver call)
          && forallb resolves (FlashLoanCall.assets call)
          && resolves (FlashLoanCall.onBehalfOf call)
       then Ok txHash
       else Throw unresolved;
     wait := fun h => Ok (Receipt.mk receiptStatus h 650000 gasPriceWei);
     callExceptionDetails := fun receipt =>
       String.append " (transactionHash="
         (String.append (Receipt.transactionHash receipt) ", code=CALL_EXCEPTION)");
     getLiquidatablePositions := [position bonus] |}.

Definition idle (last : Z) : State :=
  {| priceCache := ∅; lastExecutionTime := last; executionHistory := []; sent := [] |}.

Definition gwei : Z := 1000000000.

(** The estimate of the scenario's only pair, at 20 gwei. *)
Definition estimate (bonus : option float) : result LiquidationProfitCalculation.t * State :=
  Liquidator.calculateLiquidationProfit cfg (world 1000000 (20 * gwei) 1 bonus)
    (position bonus) debt (collateral bonus) (idle 0).

(** The estimate as computed at 20 gwei and at 500 gwei. *)
Definition calculation (estimatedGasCostUsd netProfitUsd executionPriority : float)
    : LiquidationProfitCalculation.t :=
  LiquidationProfitCalculation.mk (position None) debt (collateral None)
    1000000000 2100000000000000000000000 1.05 100000
    estimatedGasCostUsd netProfitUsd true executionPriority.

Definition calculation_20gwei : LiquidationProfitCalculation.t :=
  calculation 1860 98140 4.907.

Definition calculation_500gwei : LiquidationProfitCalculation.t :=
  calculation 3300 96700 4.835.

(** Worlds at 20 gwei (below the 100 gwei ceiling) and at 500 gwei. *)
Definition world_20gwei (receiptStatus : Z) : World :=
  world 1000000 (20 * gwei) receiptStatus None.

Definition world_500gwei : World := world 1000000 (500 * gwei) 1 None.

(** Its amount to cover, collateral receivable and bonus. *)
Definition estimate_fields (bonus : option float) : option (Z * Z * float) :=
  match fst (estimate bonus) with
  | Ok r =>
      Some (LiquidationProfitCalculation.debtToCover r,
            LiquidationProfitCalculation.collateralToReceive r,
            LiquidationProfitCalculation.liquidationBonus r)
  | Throw _ => None
  end.

End Scenario.

(** ** Further worked cases *)

Module Cases.

(** The scenario's world, except that the oracle prices the collateral
    at zero. *)
Definition world_zero_collateral_price : World :=
  {| Date_now := 1000000;
     getAssetPrice := fun a =>
       if String.eqb a PriceMonitor.DAI then Ok 0 else Ok 200000000000;
     quoteExactInputSingle := fun _ => None;
     coingeckoUsd := fun _ => None;
     getGasPrice := Ok (20 * Scenario.gwei);
     getAddress := Scenario.hex_address;
     flashLoan := flashLoan (Scenario.world_20gwei 1);
     wait := wait (Scenario.world_20gwei 1);
     callExceptionDetails := callExceptionDetails (Scenario.world_20gwei 1);
     getLiquidatablePositions := [Scenario.position None] |}.

(** The scenario's world with one position, whose debt is in a token
    without an external price source. *)
Definition unmapped_debt : Asset.t :=
  Asset.mk "POOL" Scenario.pool 6 1052631579 None None.

Definition world_unmapped_debt : World :=
  {| Date_now := 1000000;
     getAssetPrice := getAssetPrice (Scenario.world_20gwei 1);
     quoteExactInputSingle := quoteExactInputSingle (Scenario.world_20gwei 1);
     coingeckoUsd := coingeckoUsd (Scenario.world_20gwei 1);
     getGasPrice := Ok (20 * Scenario.gwei);
     getAddress := Scenario.hex_address;
     flashLoan := flashLoan (Scenario.world_20gwei 1);
     wait := wait (Scenario.world_20gwei 1);
     callExceptionDetails := callExceptionDetails (Scenario.world_20gwei 1);
     getLiquidatablePositions :=
       [LiquidationTarget.mk Scenario.borrower 900000000000000000 500000000000000
          210526315800000 [Scenario.collateral None] [unmapped_debt] 1] |}.

(** The scenario's world with an external source that agrees with the
    oracle on the price of WETH, the state after that price is read, and
    a configuration with the threshold -1. *)
Definition world_agreeing : World :=
  {| Date_now := 1000000;
     getAssetPrice := getAssetPrice (Scenario.world_20gwei 1);
     quoteExactInputSingle := quoteExactInputSingle (Scenario.world_20gwei 1);
     coingeckoUsd := fun id =>
       if String.eqb id "ethereum" then Some 200000000000 else None;
     getGasPrice := Ok (20 * Scenario.gwei);
     getAddress := Scenario.hex_address;
     flashLoan := flashLoan (Scenario.world_20gwei 1);
     wait := wait (Scenario.world_20gwei 1);
     callExceptionDetails := callExceptionDetails (Scenario.world_20gwei 1);
     getLiquidatablePositions := [Scenario.position None] |}.

Definition agreed : State :=
  snd (PriceMonitor.getPriceData world_agreeing PriceMonitor.WETH (Scenario.idle 0)).

Definition cfg_negative_threshold : Config.t :=
  Config.mk 950000000000000000 50 (Ok 100000000000) (-1) Scenario.pool Scenario.wallet
    Liquidator.placeholderAddress.

(** A wallet that holds [balance] of every token and whose transactions
    are all accepted. *)
Definition wallet_holding (balance : Z) : DirectLiquidation.Wallet :=
  {| DirectLiquidation.balanceOf := fun _ _ => Ok balance;
     DirectLiquidation.send := fun _ => Ok Scenario.txHash |}.

(** The executor with owner 1 and pool 2, among tokens that accept every
    call and of which it holds [balance] each. *)
Definition immutables : Executor.Immutables :=
  {| Executor.owner := 1; Executor.POOL := 2 |}.

Definition token_env (balance : Z) : Executor.Env :=
  {| Executor.balanceOf := fun _ _ => Some balance;
     Executor.returns := fun _ _ => true |}.

(** The parameters [executeLiquidation] encodes for the scenario's
    estimate, what they decode to, the debt asset's address, and the
    calls of the callback on them. *)
Definition params : list byte :=
  match Liquidator.encodeParams (Scenario.world_20gwei 1) PriceMonitor.DAI PriceMonitor.WETH
          Scenario.borrower 1000000000 with
  | Ok data => data
  | Throw _ => []
  end.

Definition decoded_params : Z * Z * Z * Z * bool :=
  match FlashLoanLiquidator.decodeParams params with
  | Some tuple => tuple
  | None => (0, 0, 0, 0, false)
  end.

Definition debt_address : Z :=
  match Scenario.hex_address PriceMonitor.WETH with
  | Some d => d
  | None => 0
  end.

Definition callback_calls : list Executor.Call :=
  match Executor.executeOperation (token_env 25) immutables 2 [debt_address] [1000000000]
          [900000] 1 params [] with
  | Some (_, calls) => calls
  | None => []
  end.

(** A chain with the two reserves of the scenario, on which the
    borrower holds DAI as collateral and owes WETH; nobody else has an
    account. *)
Definition chain : Chain.t :=
  {| Chain.getReservesList := Ok [PriceMonitor.WETH; PriceMonitor.DAI];
     Chain.getUserAccountData := fun user =>
       if String.eqb user Scenario.borrower
       then Ok (UserAccountData.mk 500000000000000 210526315800000 0 8000 7500
                  900000000000000000 "")
       else Throw "call revert exception";
     Chain.getUserEMode := fun _ => Ok 1;
     Chain.getUserReserveData := fun asset user =>
       if String.eqb asset PriceMonitor.DAI
       then Ok (UserReserveData.mk 5000000000000000000000000 0 0 true)
       else Ok (UserReserveData.mk 0 0 1052631579 false);
     Chain.getReserveConfigurationData := fun _ =>
       Ok (ReserveConfiguration.mk 7500 8000 10500 true);
     Chain.symbol := fun asset =>
       if String.eqb asset PriceMonitor.DAI then Ok "DAI" else Ok "WETH";
     Chain.decimals := fun asset =>
       if String.eqb asset PriceMonitor.DAI then Ok 18 else Ok 6 |}.

Definition thresholds : HealthFactorMonitor.Thresholds :=
  {| HealthFactorMonitor.healthFactorThreshold := Ok 1050000000000000000;
     HealthFactorMonitor.healthFactorLiquidationThreshold := 1000000000000000000 |}.

(** The monitor as constructed, and with the reserve list loaded. *)
Definition fresh : HealthFactorMonitor.t :=
  {| HealthFactorMonitor.monitoredUsers := [];
     HealthFactorMonitor.reservesList := [];
     HealthFactorMonitor.reservesData := ∅;
     HealthFactorMonitor.tokenSymbols := ∅;
     HealthFactorMonitor.tokenDecimals := ∅ |}.

Definition initialized : HealthFactorMonitor.t :=
  HealthFactorMonitor.set_reservesList [PriceMonitor.WETH; PriceMonitor.DAI] fresh.

(** The monitor with the info of both reserves cached, and the chain
    made to refuse every question about a reserve. *)
Definition cached : HealthFactorMonitor.t :=
  HealthFactorMonitor.cache_reserve PriceMonitor.DAI
    (ReserveInfo.mk "DAI" 18 7500 8000 10500 true)
    (HealthFactorMonitor.cache_reserve PriceMonitor.WETH
       (ReserveInfo.mk "WETH" 6 7500 8000 10500 true) initialized).

Definition chain_without_reserve_data : Chain.t :=
  {| Chain.getReservesList := Chain.getReservesList chain;
     Chain.getUserAccountData := Chain.getUserAccountData chain;
     Chain.getUserEMode := Chain.getUserEMode chain;
     Chain.getUserReserveData := Chain.getUserReserveData chain;
     Chain.getReserveConfigurationData := fun _ => Throw "call revert exception";
     Chain.symbol := fun _ => Throw "call revert exception";
     Chain.decimals := fun _ => Throw "call revert exception" |}.

End Cases.

(** ** The spec's close-factor cap

    100% of the debt asset's outstanding amount when the health factor is
    below the close-factor threshold, 50% of it otherwise. *)
Definition spec_closeFactorCap (healthFactor threshold amount : Z) : Z :=
  if healthFactor <? threshold then amount else amount / 2.

(** ** The spec's formula for the collateral receivable

    [debtPrice * debtToCover * 10^collateralDecimals * liquidationBonusBps
     / (collateralPrice * 10^debtDecimals) / 10000], with the truncating
    division of [BigNumber]. *)
Definition spec_collateralReceivable
    (debtPrice debtToCover collateralDecimals liquidationBonusBps collateralPrice debtDecimals : Z) : Z :=
  Z.quot
    (Z.quot (debtPrice * debtToCover * 10 ^ collateralDecimals * liquidationBonusBps)
            (collateralPrice * 10 ^ debtDecimals))
    10000.

(** * Properties *)

(** ** The number model on known values *)

Example floor_of_bonus : Number.floor (1.05 * 10000)%float = Some 10500.
Proof. vm_compute. reflexivity. Qed.

(** Binary rounding shows through the floor: 1.005 * 10000 is just below
    10050. *)
Example floor_of_rounded_bonus : Number.floor (1.005 * 10000)%float = Some 10049.
Proof. vm_compute. reflexivity. Qed.

Example floor_negative : Number.floor (-1.5)%float = Some (-2).
Proof. vm_compute. reflexivity. Qed.

Example of_decimal_tenth : Number.of_decimal 1 1 = 0.1%float.
Proof. vm_compute. reflexivity. Qed.

Example of_decimal_units : Number.of_decimal 2100000000000000000000000 18 = 2100000%float.
Proof. vm_compute. reflexivity. Qed.

Example scenario_estimate :
  fst (Scenario.estimate None) = Ok Scenario.calculation_20gwei.
Proof. vm_compute. reflexivity. Qed.

(** ** Running computations *)

Lemma bind_Ok {A B} (c : M A) (k : A -> M B) s b s' :
  bind c k s = (Ok b, s') ->
  exists a s1, c s = (Ok a, s1) /\ k a s1 = (Ok b, s').
Proof.
  unfold bind. destruct (c s) as [[a|msg] s1]; intros H.
  - exists a, s1. split; [reflexivity | exact H].
  - discriminate H.
Qed.

Lemma lift_Ok {A} (r : result A) s a s' :
  lift r s = (Ok a, s') -> r = Ok a /\ s' = s.
Proof. unfold lift. intros H. inversion H. split; reflexivity. Qed.

Lemma ret_Ok {A} (a b : A) s s' :
  ret a s = (Ok b, s') -> b = a /\ s' = s.
Proof. unfold ret. intros H. inversion H. split; reflexivity. Qed.

Lemma modify_Ok f s u s' :
  modify f s = (Ok u, s') -> s' = f s.
Proof. unfold modify. intros H. inversion H. reflexivity. Qed.

(** Splits the successful run of a sequence into the runs of its steps. *)
Ltac run_steps :=
  repeat match goal with
    | H : bind _ _ _ = (Ok _, _) |- _ =>
        apply bind_Ok in H; destruct H as (? & ? & ? & H); cbv beta zeta in H
    | H : lift _ _ = (Ok _, _) |- _ =>
        apply lift_Ok in H; destruct H as [H ?]; subst
    | H : ret _ _ = (Ok _, _) |- _ =>
        apply ret_Ok in H; destruct H as [? ?]; subst
    | H : modify _ _ = (Ok _, _) |- _ =>
        apply modify_Ok in H; subst
    end.

(** ** BigNumber arithmetic *)

Lemma div_Ok a b q : BigNumber.div a b = Ok q -> b <> 0 /\ q = Z.quot a b.
Proof.
  unfold BigNumber.div. destruct (Z.eqb_spec b 0); intros H; inversion H.
  split; [assumption | reflexivity].
Qed.

Lemma pow10_Ok n p : BigNumber.pow10 n = Ok p -> 0 <= n /\ p = 10 ^ n.
Proof.
  unfold BigNumber.pow10. destruct (Z.ltb_spec n 0) as [Hn|Hn]; intros Hp; inversion Hp.
  split; [assumption | reflexivity].
Qed.

Lemma from_floor_Ok x z :
  BigNumber.from_floor x = Ok z -> Number.floor x = Some z.
Proof.
  unfold BigNumber.from_floor. destruct (Number.floor x) as [v|]; [|discriminate].
  destruct ((v >=? BigNumber.MAX_SAFE) || (v <=? - BigNumber.MAX_SAFE));
    intros H; inversion H. reflexivity.
Qed.

(** ** The price monitor *)

Lemma getPriceData_Ok w a s pd s' :
  PriceMonitor.getPriceData w a s = (Ok pd, s') ->
  getAssetPrice w a = Ok (PriceData.aaveOraclePrice pd)
  /\ PriceData.discrepancyPercentage pd
     = PriceMonitor.discrepancy (PriceData.aaveOraclePrice pd) (PriceMonitor.getExternalPrice w a)
  /\ s' = set_priceCache (fun cache => <[a := pd]> cache) s.
Proof.
  unfold PriceMonitor.getPriceData. intros H. run_steps. simpl. auto.
Qed.

(** ** The profit calculator *)

Section Estimate.

Import LiquidationProfitCalculation.

Variables (cfg : Config.t) (w : World).
Variables (target : LiquidationTarget.t) (debtAsset collateralAsset : Asset.t).

(** What a successful estimate went through: both oracle prices were
    read, the collateral price is not zero, and the integer fields are the
    ones the source computes. *)
Lemma calculateLiquidationProfit_Ok s r s' :
  Liquidator.calculateLiquidationProfit cfg w target debtAsset collateralAsset s = (Ok r, s') ->
  exists debtPrice collateralPrice bonusBps,
    getAssetPrice w (Asset.address debtAsset) = Ok debtPrice
    /\ getAssetPrice w (Asset.address collateralAsset) = Ok collateralPrice
    /\ collateralPrice <> 0
    /\ 0 <= Asset.decimals collateralAsset
    /\ 0 <= Asset.decimals debtAsset
    /\ liquidationBonus r = Number.or_default (Asset.liquidationBonus collateralAsset) 1.05
    /\ Number.floor (liquidationBonus r * 10000) = Some bonusBps
    /\ debtToCover r = Z.quot (Liquidator.maxDebtToCover cfg target debtAsset * 95) 100
    /\ collateralToReceive r
       = Z.quot (Z.quot (Z.quot (debtPrice * debtToCover r
                                 * 10 ^ Asset.decimals collateralAsset * bonusBps)
                                collateralPrice)
                        (10 ^ Asset.decimals debtAsset))
                10000.
Proof.
  unfold Liquidator.calculateLiquidationProfit. intros H. run_steps.
  repeat match goal with
    | H : PriceMonitor.getPriceData _ _ _ = (Ok _, _) |- _ =>
        apply getPriceData_Ok in H; destruct H as (?Hprice & ?Hdisc & ?)
    | H : BigNumber.div _ _ = Ok _ |- _ => apply div_Ok in H; destruct H as [? ?]
    | H : BigNumber.pow10 _ = Ok _ |- _ => apply pow10_Ok in H; destruct H as [? ?]
    | H : BigNumber.from_floor _ = Ok _ |- _ => apply from_floor_Ok in H
    end.
  subst. simpl.
  eexists _, _, _. repeat split; eauto.
Qed.

End Estimate.

(** ** C1 to C3 and C10: the integer fields of an estimate *)

Lemma quot_full (a : Z) : Z.quot (a * 10000) 10000 = a.
Proof. apply Z.quot_mul. lia. Qed.

Lemma quot_half (a : Z) : Z.quot (a * 5000) 10000 = Z.quot a 2.
Proof.
  replace 10000 with (5000 * 2) by reflexivity.
  rewrite <- Z.quot_quot by lia. rewrite Z.quot_mul by lia. reflexivity.
Qed.

Lemma maxDebtToCover_cases cfg target debtAsset :
  Liquidator.maxDebtToCover cfg target debtAsset
  = if LiquidationTarget.healthFactor target <? Config.closeFactorHfThreshold cfg
    then Asset.amount debtAsset
    else Z.quot (Asset.amount debtAsset) 2.
Proof.
  unfold Liquidator.maxDebtToCover, Liquidator.closeFactorMultiplier.
  destruct (LiquidationTarget.healthFactor target <? Config.closeFactorHfThreshold cfg).
  - apply quot_full.
  - apply quot_half.
Qed.

(** C1: the close factor of an estimate depends on the health factor alone.
    Below the threshold the maximum coverable debt is the whole outstanding
    amount of the debt asset, at or above it half of that amount (integer
    division); the amount to cover is computed from that maximum. *)
Theorem close_factor_selection cfg w target debtAsset collateralAsset s r s' :
  Liquidator.calculateLiquidationProfit cfg w target debtAsset collateralAsset s = (Ok r, s') ->
  let hf := LiquidationTarget.healthFactor target in
  let threshold := Config.closeFactorHfThreshold cfg in
  let cap := Liquidator.maxDebtToCover cfg target debtAsset in
  (hf < threshold -> cap = Asset.amount debtAsset)
  /\ (threshold <= hf -> cap = Z.quot (Asset.amount debtAsset) 2)
  /\ LiquidationProfitCalculation.debtToCover r = Z.quot (cap * 95) 100.
Proof.
  intros H hf threshold cap.
  apply calculateLiquidationProfit_Ok in H.
  destruct H as (P & cp & bps & _ & _ & _ & _ & _ & _ & _ & Hd & _).
  subst cap. rewrite maxDebtToCover_cases in *. fold hf threshold.
  repeat split.
  - intros Hlt. apply Z.ltb_lt in Hlt. rewrite Hlt. reflexivity.
  - intros Hge. apply Z.ltb_ge in Hge. rewrite Hge. reflexivity.
  - exact Hd.
Qed.

Lemma close_factor_selection_witness :
  Liquidator.maxDebtToCover Scenario.cfg (Scenario.position None) Scenario.debt = 1052631579
  /\ exists r s', Scenario.estimate None = (Ok r, s')
       /\ LiquidationProfitCalculation.debtToCover r = 1000000000.
Proof.
  assert (Hf : Scenario.estimate_fields None
               = Some (1000000000, 2100000000000000000000000, 1.05%float))
    by (vm_compute; reflexivity).
  unfold Scenario.estimate_fields in Hf.
  destruct (Scenario.estimate None) as [[r|msg] s'] eqn:E; [|discriminate Hf].
  destruct (close_factor_selection _ _ _ _ _ _ _ _ E) as (Hlt & _ & Hd).
  split.
  - apply Hlt. vm_compute. reflexivity.
  - exists r, s'. split; [reflexivity|].
    rewrite Hd, Hlt by (vm_compute; reflexivity). vm_compute. reflexivity.
Defined.

(** C2: the amount to cover of an estimate never exceeds the close-factor
    cap on the outstanding debt, the cap being the whole outstanding
    amount of the debt asset when the health factor is below the
    close-factor threshold and half of it otherwise: the amount to cover
    is 95% (integer division) of that cap.  So below the threshold it is
    95% of the outstanding amount, and at or above it twice the amount to
    cover still does not exceed the outstanding amount. *)
Theorem debtToCover_within_cap cfg w target debtAsset collateralAsset s r s' :
  0 <= Asset.amount debtAsset ->
  Liquidator.calculateLiquidationProfit cfg w target debtAsset collateralAsset s = (Ok r, s') ->
  let hf := LiquidationTarget.healthFactor target in
  let threshold := Config.closeFactorHfThreshold cfg in
  let amount := Asset.amount debtAsset in
  let cap := spec_closeFactorCap hf threshold amount in
  LiquidationProfitCalculation.debtToCover r = cap * 95 / 100
  /\ 0 <= LiquidationProfitCalculation.debtToCover r <= cap
  /\ cap <= amount
  /\ (hf < threshold ->
      cap = amount /\ LiquidationProfitCalculation.debtToCover r = amount * 95 / 100)
  /\ (threshold <= hf ->
      cap = amount / 2
      /\ LiquidationProfitCalculation.debtToCover r = amount / 2 * 95 / 100
      /\ 2 * LiquidationProfitCalculation.debtToCover r <= amount).
Proof.
  intros Hamount H hf threshold amount cap.
  apply calculateLiquidationProfit_Ok in H.
  destruct H as (P & cp & bps & _ & _ & _ & _ & _ & _ & _ & Hd & _).
  rewrite maxDebtToCover_cases in Hd. fold hf threshold amount in Hd.
  assert (Hsame : (if hf <? threshold then amount else Z.quot amount 2) = cap).
  { unfold cap, spec_closeFactorCap. destruct (hf <? threshold); [reflexivity|].
    apply Z.quot_div_nonneg; lia. }
  rewrite Hsame in Hd.
  assert (Hcap : 0 <= cap <= amount).
  { unfold cap, spec_closeFactorCap. destruct (hf <? threshold); [lia|].
    split; [apply Z.div_pos; lia | apply Z.div_le_upper_bound; lia]. }
  rewrite Z.quot_div_nonneg in Hd by lia.
  assert (Hbound : 0 <= LiquidationProfitCalculation.debtToCover r <= cap).
  { rewrite Hd. split; [apply Z.div_pos; lia | apply Z.div_le_upper_bound; lia]. }
  split; [exact Hd|]. split; [exact Hbound|]. split; [apply Hcap|]. split.
  - intros Hlt. apply Z.ltb_lt in Hlt.
    assert (Hfull : cap = amount) by (unfold cap, spec_closeFactorCap; rewrite Hlt; reflexivity).
    split; [exact Hfull|]. rewrite Hd, Hfull. reflexivity.
  - intros Hge. apply Z.ltb_ge in Hge.
    assert (Hhalf : cap = amount / 2)
      by (unfold cap, spec_closeFactorCap; rewrite Hge; reflexivity).
    split; [exact Hhalf|]. split; [rewrite Hd, Hhalf; reflexivity|].
    assert (2 * (amount / 2) <= amount) by (apply Z.mul_div_le; lia).
    lia.
Qed.

Lemma debtToCover_within_cap_witness :
  exists r s', Scenario.estimate None = (Ok r, s')
    /\ LiquidationProfitCalculation.debtToCover r = 1052631579 * 95 / 100
    /\ 0 <= LiquidationProfitCalculation.debtToCover r <= 1052631579.
Proof.
  assert (Hf : Scenario.estimate_fields None
               = Some (1000000000, 2100000000000000000000000, 1.05%float))
    by (vm_compute; reflexivity).
  unfold Scenario.estimate_fields in Hf.
  destruct (Scenario.estimate None) as [[r|msg] s'] eqn:E; [|discriminate Hf].
  exists r, s'. split; [reflexivity|].
  assert (Hamount : 0 <= Asset.amount Scenario.debt) by (vm_compute; discriminate).
  destruct (debtToCover_within_cap _ _ _ _ _ _ _ _ Hamount E) as (_ & Hd & Hcap & Hfull & _).
  destruct Hfull as [Hfull Hexact]; [vm_compute; reflexivity|].
  rewrite Hfull in Hd. split; [exact Hexact | exact Hd].
Defined.

Lemma receivable_as_spec debtPrice debtToCover cd bps collateralPrice dd :
  collateralPrice <> 0 -> 0 <= dd ->
  Z.quot (Z.quot (Z.quot (debtPrice * debtToCover * 10 ^ cd * bps) collateralPrice) (10 ^ dd)) 10000
  = spec_collateralReceivable debtPrice debtToCover cd bps collateralPrice dd.
Proof.
  intros Hcp Hdd. unfold spec_collateralReceivable.
  assert (0 < 10 ^ dd) by (apply Z.pow_pos_nonneg; lia).
  rewrite (Z.quot_quot _ collateralPrice (10 ^ dd)) by lia. reflexivity.
Qed.



(** C10: when the collateral asset's configured liquidation bonus is zero,
    the estimate applies the fallback 1.05 instead: the [||] default is a
    truthiness test, so it also replaces a bonus of 0.  The collateral
    receivable is then computed with 10500 basis points, never with 0. *)
Theorem zero_bonus_uses_fallback cfg w target debtAsset collateralAsset bonus s r s' :
  Asset.liquidationBonus collateralAsset = Some bonus ->
  PrimFloat.eqb bonus 0 = true ->
  Liquidator.calculateLiquidationProfit cfg w target debtAsset collateralAsset s = (Ok r, s') ->
  LiquidationProfitCalculation.liquidationBonus r = 1.05%float
  /\ exists debtPrice collateralPrice,
       getAssetPrice w (Asset.address debtAsset) = Ok debtPrice
       /\ getAssetPrice w (Asset.address collateralAsset) = Ok collateralPrice
       /\ LiquidationProfitCalculation.collateralToReceive r
          = spec_collateralReceivable debtPrice (LiquidationProfitCalculation.debtToCover r)
              (Asset.decimals collateralAsset) 10500 collateralPrice
              (Asset.decimals debtAsset).
Proof.
  intros Hbonus Hzero H. apply calculateLiquidationProfit_Ok in H.
  destruct H as (P & cp & bps & HP & Hcp & Hnz & _ & Hdd & Hb & Hbps & _ & Hc).
  rewrite Hbonus in Hb. unfold Number.or_default, Number.falsy in Hb.
  rewrite Hzero in Hb. simpl in Hb.
  rewrite Hb in Hbps. vm_compute in Hbps. injection Hbps as <-.
  split; [exact Hb|]. exists P, cp.
  rewrite receivable_as_spec in Hc by assumption. auto.
Qed.

Lemma zero_bonus_uses_fallback_witness :
  exists r s', Scenario.estimate (Some 0%float) = (Ok r, s')
    /\ LiquidationProfitCalculation.liquidationBonus r = 1.05%float
    /\ LiquidationProfitCalculation.collateralToReceive r = 2100000 * 10 ^ 18.
Proof.
  assert (Hf : Scenario.estimate_fields (Some 0%float)
               = Some (1000000000, 2100000000000000000000000, 1.05%float))
    by (vm_compute; reflexivity).
  unfold Scenario.estimate_fields in Hf.
  destruct (Scenario.estimate (Some 0%float)) as [[r|msg] s'] eqn:E; [|discriminate Hf].
  simpl in Hf. injection Hf as Hd Hc Hb.
  exists r, s'. split; [reflexivity|].
  destruct (zero_bonus_uses_fallback Scenario.cfg _ _ _ (Scenario.collateral (Some 0%float))
              0%float _ _ _ eq_refl eq_refl E)
    as (Hbonus & _).
  split; [exact Hbonus|]. rewrite Hc. vm_compute. reflexivity.
Defined.

(** ** C8: the liquidation parameters survive the ABI *)

Lemma Z_of_byte_of_Z z : Abi.Z_of_byte (Abi.byte_of_Z z) = z mod 256.
Proof.
  unfold Abi.Z_of_byte, Abi.byte_of_Z.
  assert (Hr : 0 <= z mod 256 < 256) by (apply Z.mod_pos_bound; lia).
  destruct (Byte.of_N (Z.to_N (z mod 256))) as [b|] eqn:E.
  - apply Byte.to_of_N in E. rewrite E. apply Z2N.id. lia.
  - apply Byte.of_N_None_iff in E. lia.
Qed.

Lemma be_bytes_length n z : length (Abi.be_bytes n z) = n.
Proof.
  revert z. induction n as [|n IH]; intros z; simpl.
  - reflexivity.
  - rewrite length_app, IH. simpl. lia.
Qed.

Lemma be_value_snoc bs b :
  Abi.be_value (bs ++ [b]) = Abi.be_value bs * 256 + Abi.Z_of_byte b.
Proof. unfold Abi.be_value. rewrite fold_left_app. reflexivity. Qed.

Lemma be_value_be_bytes n z :
  0 <= z < 256 ^ Z.of_nat n -> Abi.be_value (Abi.be_bytes n z) = z.
Proof.
  revert z. induction n as [|n IH]; intros z Hz.
  - simpl in *. unfold Abi.be_value. simpl. lia.
  - cbn [Abi.be_bytes]. rewrite be_value_snoc, Z_of_byte_of_Z, IH.
    + symmetry. rewrite Z.mul_comm. apply Z.div_mod. lia.
    + rewrite Nat2Z.inj_succ, Z.pow_succ_r in Hz by lia.
      split; [apply Z.div_pos; lia | apply Z.div_lt_upper_bound; lia].
Qed.

Lemma be_value_word z : 0 <= z < 2 ^ 256 -> Abi.be_value (Abi.word z) = z.
Proof.
  intros Hz. apply be_value_be_bytes.
  replace (256 ^ Z.of_nat 32) with (2 ^ 256) by reflexivity. exact Hz.
Qed.

Lemma decode_encode_value v w :
  Abi.encode_value v = Ok w ->
  length w = 32%nat /\ Abi.decode_value (Abi.type_of v) w = Some v.
Proof.
  assert (H160 : 2 ^ 160 < 2 ^ 256) by reflexivity.
  destruct v as [a|n|b]; simpl.
  - destruct (Z.leb_spec 0 a) as [Hlo|Hlo];
      destruct (Z.ltb_spec a (2 ^ 160)) as [Hhi|Hhi]; simpl;
      intros Henc; inversion Henc; subst.
    split; [apply be_bytes_length|].
    unfold Abi.decode_value. rewrite be_value_word by lia.
    destruct (Z.ltb_spec a (2 ^ 160)); [reflexivity | lia].
  - destruct (Z.leb_spec 0 n) as [Hlo|Hlo];
      destruct (Z.ltb_spec n (2 ^ 256)) as [Hhi|Hhi]; simpl;
      intros Henc; inversion Henc; subst.
    split; [apply be_bytes_length|].
    unfold Abi.decode_value. rewrite be_value_word by lia. reflexivity.
  - intros Henc; inversion Henc; subst.
    split; [apply be_bytes_length|].
    unfold Abi.decode_value. rewrite be_value_word by (destruct b; lia).
    destruct b; reflexivity.
Qed.

(** Decoding what was encoded gives the values back, whatever follows. *)
Lemma decode_encode vs data :
  Abi.encode vs = Ok data ->
  length data = (32 * length vs)%nat
  /\ Abi.decode (map Abi.type_of vs) data = Some vs.
Proof.
  revert data. induction vs as [|v vs IH]; intros data; simpl.
  - intros H; inversion H. split; reflexivity.
  - destruct (Abi.encode_value v) as [w|] eqn:Ev; [|discriminate].
    destruct (Abi.encode vs) as [ws|] eqn:Evs; [|discriminate].
    intros H; inversion H; subst.
    apply decode_encode_value in Ev. destruct Ev as [Hlen Hv].
    destruct (IH ws eq_refl) as [Hlens Hvs].
    split; [rewrite length_app; lia|].
    destruct (Nat.ltb_spec (length (w ++ ws)) 32) as [Hshort|_].
    + rewrite length_app in Hshort. lia.
    + assert (Hhead : firstn 32 (w ++ ws) = w)
        by (rewrite <- Hlen; apply take_app_length).
      assert (Htail : skipn 32 (w ++ ws) = ws)
        by (rewrite <- Hlen; apply drop_app_length).
      rewrite Hhead, Htail, Hv, Hvs. reflexivity.
Qed.

Lemma tuple_round_trip c d u debtToCover receiveAToken :
  0 <= c < 2 ^ 160 -> 0 <= d < 2 ^ 160 -> 0 <= u < 2 ^ 160 ->
  0 <= debtToCover < 2 ^ 256 ->
  exists params,
    Abi.encode [Abi.Address c; Abi.Address d; Abi.Address u;
                Abi.Uint256 debtToCover; Abi.Bool receiveAToken] = Ok params
    /\ length params = 160%nat
    /\ FlashLoanLiquidator.decodeParams params = Some (c, d, u, debtToCover, receiveAToken).
Proof.
  intros Hc Hd Hu Hn.
  set (vs := [Abi.Address c; Abi.Address d; Abi.Address u;
              Abi.Uint256 debtToCover; Abi.Bool receiveAToken]).
  assert (Henc : exists params, Abi.encode vs = Ok params).
  { subst vs. cbn [Abi.encode Abi.encode_value].
    repeat match goal with
      | |- context [(0 <=? ?x) && (?x <? ?b)] =>
          replace ((0 <=? x) && (x <? b)) with true
            by (symmetry; apply andb_true_iff; split; [apply Z.leb_le | apply Z.ltb_lt]; lia)
      end.
    eexists. reflexivity. }
  destruct Henc as [params Henc]. exists params.
  split; [exact Henc|].
  destruct (decode_encode vs params Henc) as [Hlen Hdec].
  split; [exact Hlen|].
  unfold FlashLoanLiquidator.decodeParams.
  change [Abi.TAddress; Abi.TAddress; Abi.TAddress; Abi.TUint256; Abi.TBool]
    with (map Abi.type_of vs).
  rewrite Hdec. reflexivity.
Qed.

(** C8: for every collateral asset, debt asset and user that are addresses
    and every amount that fits a uint256, the flash-loan path encodes the
    liquidation parameters, and the executor contract decodes exactly the
    tuple (collateralAsset, debtAsset, user, debtToCover, false) from
    them; the same holds of the encoding with either value of the flag. *)
Theorem params_round_trip w collateralAsset debtAsset user c d u debtToCover :
  getAddress w collateralAsset = Some c -> 0 <= c < 2 ^ 160 ->
  getAddress w debtAsset = Some d -> 0 <= d < 2 ^ 160 ->
  getAddress w user = Some u -> 0 <= u < 2 ^ 160 ->
  0 <= debtToCover < 2 ^ 256 ->
  (exists params,
     Liquidator.encodeParams w collateralAsset debtAsset user debtToCover = Ok params
     /\ length params = 160%nat
     /\ FlashLoanLiquidator.decodeParams params = Some (c, d, u, debtToCover, false))
  /\ (forall receiveAToken, exists params,
        Abi.encode [Abi.Address c; Abi.Address d; Abi.Address u;
                    Abi.Uint256 debtToCover; Abi.Bool receiveAToken] = Ok params
        /\ FlashLoanLiquidator.decodeParams params
           = Some (c, d, u, debtToCover, receiveAToken)).
Proof.
  intros Hc Hc' Hd Hd' Hu Hu' Hn. split.
  - unfold Liquidator.encodeParams. rewrite Hc, Hd, Hu.
    apply tuple_round_trip; assumption.
  - intros receiveAToken.
    destruct (tuple_round_trip c d u debtToCover receiveAToken Hc' Hd' Hu' Hn)
      as (params & Henc & _ & Hdec).
    exists params. split; assumption.
Qed.

Lemma params_round_trip_witness :
  exists params,
    Liquidator.encodeParams (Scenario.world 0 0 1 None)
      PriceMonitor.DAI PriceMonitor.WETH Scenario.borrower 1000000000 = Ok params
    /\ FlashLoanLiquidator.decodeParams params
       = Some (0x6B175474E89094C44Da98b954EedeAC495271d0F,
               0xC02aaA39b223FE8D0A0e5C4F27eAD9083C756Cc2,
               0xA11CE, 1000000000, false).
Proof.
  assert (Hrange : forall a b, (0 <=? a) && (a <? b) = true -> 0 <= a < b).
  { intros a b H. apply andb_true_iff in H. destruct H as [H1 H2].
    apply Z.leb_le in H1. apply Z.ltb_lt in H2. split; assumption. }
  destruct (params_round_trip (Scenario.world 0 0 1 None)
              PriceMonitor.DAI PriceMonitor.WETH Scenario.borrower
              0x6B175474E89094C44Da98b954EedeAC495271d0F
              0xC02aaA39b223FE8D0A0e5C4F27eAD9083C756Cc2
              0xA11CE 1000000000)
    as ((params & Henc & _ & Hdec) & _).
  - vm_compute. reflexivity.
  - apply Hrange. vm_compute. reflexivity.
  - vm_compute. reflexivity.
  - apply Hrange. vm_compute. reflexivity.
  - vm_compute. reflexivity.
  - apply Hrange. vm_compute. reflexivity.
  - apply Hrange. vm_compute. reflexivity.
  - exists params. split; assumption.
Defined.

(** ** Facts about binary64 numbers *)

Lemma Prim2SF_zero : Prim2SF 0 = S754_zero false.
Proof. reflexivity. Qed.

Lemma is_nan_Prim2SF x : PrimFloat.is_nan x = true -> Prim2SF x = S754_nan.
Proof. unfold Prim2SF. intros ->. reflexivity. Qed.

Lemma Prim2SF_not_nan x : PrimFloat.is_nan x = false -> Prim2SF x <> S754_nan.
Proof.
  unfold Prim2SF. intros ->.
  destruct (PrimFloat.is_zero x); [discriminate|].
  destruct (PrimFloat.is_infinity x); [discriminate|].
  destruct (FloatOps.Z.frexp x) as [r e].
  destruct (shr_fexp _ _ _ _ _) as [mrs e'].
  destruct (shr_m mrs); discriminate.
Qed.

Lemma SFcompare_zero_sign x s s' :
  SFcompare x (S754_zero s) = SFcompare x (S754_zero s').
Proof. destruct x as [?|?| |? ? ?]; reflexivity. Qed.

Lemma SFeqb_zero x s : SFeqb x (S754_zero s) = true -> exists s', x = S754_zero s'.
Proof.
  unfold SFeqb. destruct x as [s'|[]| |[] m e]; simpl; try discriminate.
  intros _. exists s'. reflexivity.
Qed.

(** A falsy number is not above a threshold that is not negative. *)
Lemma falsy_not_above threshold d :
  (threshold <? 0)%float = false ->
  Number.falsy d = true ->
  (threshold <? d)%float = false.
Proof.
  unfold Number.falsy. rewrite !FloatAxioms.ltb_spec, Prim2SF_zero. intros Hthr Hd.
  apply orb_true_iff in Hd. destruct Hd as [Hz|Hnan].
  - rewrite FloatAxioms.eqb_spec, Prim2SF_zero in Hz. apply SFeqb_zero in Hz.
    destruct Hz as [s' ->]. unfold SFltb in *.
    rewrite (SFcompare_zero_sign _ s' false). exact Hthr.
  - rewrite (is_nan_Prim2SF _ Hnan). unfold SFltb.
    destruct (Prim2SF threshold) as [?|?| |? ? ?]; reflexivity.
Qed.

(** ** C9: reading the price cache *)

Lemma ltb_nan_r threshold d :
  PrimFloat.is_nan d = true -> (threshold <? d)%float = false.
Proof.
  intros Hnan. rewrite FloatAxioms.ltb_spec, (is_nan_Prim2SF _ Hnan). unfold SFltb.
  destruct (Prim2SF threshold) as [?|?| |? ? ?]; reflexivity.
Qed.

(** C9, as the code satisfies it: [hasPriceDiscrepancy] answers false
    when the asset has no cached quote, when the cached quote has no
    discrepancy figure, and when that figure is zero, which the
    truthiness test takes for a missing one; otherwise it answers whether
    the cached discrepancy exceeds the threshold.  It is a total function
    of the cache: no lookup raises.  With a threshold that is not
    negative a figure of zero does not exceed it, and the answer is
    whether the cached discrepancy exceeds the threshold whenever there is
    a figure. *)
Theorem hasPriceDiscrepancy_reads_cache cfg s assetAddress :
  PriceMonitor.hasPriceDiscrepancy cfg s assetAddress
  = match priceCache s !! assetAddress with
    | None => false
    | Some cachedPrice =>
        match PriceData.discrepancyPercentage cachedPrice with
        | None => false
        | Some d =>
            if (d =? 0)%float then false
            else (Config.priceDifferenceThreshold cfg <? d)%float
        end
    end
  /\ ((Config.priceDifferenceThreshold cfg <? 0)%float = false ->
      PriceMonitor.hasPriceDiscrepancy cfg s assetAddress
      = match priceCache s !! assetAddress with
        | None => false
        | Some cachedPrice =>
            match PriceData.discrepancyPercentage cachedPrice with
            | None => false
            | Some d => (Config.priceDifferenceThreshold cfg <? d)%float
            end
        end).
Proof.
  unfold PriceMonitor.hasPriceDiscrepancy.
  destruct (priceCache s !! assetAddress) as [cachedPrice|]; [|split; reflexivity].
  destruct (PriceData.discrepancyPercentage cachedPrice) as [d|]; [|split; reflexivity].
  split.
  - unfold Number.falsy. destruct (d =? 0)%float; [reflexivity|]. cbn [orb].
    destruct (PrimFloat.is_nan d) eqn:Hnan; [|reflexivity].
    symmetry. apply ltb_nan_r. exact Hnan.
  - intros Hthr. destruct (Number.falsy d) eqn:Hd; [|reflexivity].
    symmetry. apply falsy_not_above; assumption.
Qed.

Lemma hasPriceDiscrepancy_reads_cache_witness :
  PriceMonitor.hasPriceDiscrepancy Scenario.cfg (Scenario.idle 0) PriceMonitor.WETH = false
  /\ PriceMonitor.hasPriceDiscrepancy Scenario.cfg (snd (Scenario.estimate None)) PriceMonitor.WETH
     = true
  /\ PriceMonitor.hasPriceDiscrepancy Scenario.cfg (snd (Scenario.estimate None)) Scenario.pool
     = false.
Proof.
  rewrite !(proj1 (hasPriceDiscrepancy_reads_cache _ _ _)).
  repeat split; vm_compute; reflexivity.
Defined.

(** The oracle and the external source agree on the price, so the cached
    discrepancy is 0; against a threshold of -1, which 0 exceeds,
    [hasPriceDiscrepancy] still answers false. *)
Lemma zero_discrepancy_counts_as_none :
  (exists quote,
     priceCache Cases.agreed !! PriceMonitor.WETH = Some quote
     /\ PriceData.discrepancyPercentage quote = Some 0%float)
  /\ (Config.priceDifferenceThreshold Cases.cfg_negative_threshold <? 0)%float = true
  /\ PriceMonitor.hasPriceDiscrepancy Cases.cfg_negative_threshold Cases.agreed
       PriceMonitor.WETH = false.
Proof.
  split; [|split].
  - unfold Cases.agreed, PriceMonitor.getPriceData, bind, lift, modify, ret.
    cbn [getAssetPrice Cases.world_agreeing Scenario.world_20gwei Scenario.world].
    eexists. split; [cbn; apply lookup_insert_eq|]. vm_compute. reflexivity.
  - vm_compute. reflexivity.
  - vm_compute. reflexivity.
Qed.

(** ** What an estimate leaves untouched

    Estimating writes the price cache and nothing else. *)

Definition cache_only (s s' : State) : Prop :=
  lastExecutionTime s' = lastExecutionTime s
  /\ executionHistory s' = executionHistory s
  /\ sent s' = sent s.

Definition writes_cache_only {A} (c : M A) : Prop :=
  forall s, cache_only s (snd (c s)).

Lemma cache_only_refl s : cache_only s s.
Proof. repeat split. Qed.

Lemma cache_only_trans s1 s2 s3 :
  cache_only s1 s2 -> cache_only s2 s3 -> cache_only s1 s3.
Proof.
  unfold cache_only. intros (H1 & H2 & H3) (H4 & H5 & H6).
  repeat split; congruence.
Qed.

Lemma writes_cache_only_ret {A} (a : A) : writes_cache_only (ret a).
Proof. intros s. apply cache_only_refl. Qed.

Lemma writes_cache_only_lift {A} (r : result A) : writes_cache_only (lift r).
Proof. intros s. apply cache_only_refl. Qed.

Lemma writes_cache_only_bind {A B} (c : M A) (k : A -> M B) :
  writes_cache_only c -> (forall a, writes_cache_only (k a)) ->
  writes_cache_only (bind c k).
Proof.
  intros Hc Hk s. unfold bind. specialize (Hc s).
  destruct (c s) as [[a|msg] s1]; simpl in *.
  - eapply cache_only_trans; [exact Hc | apply Hk].
  - exact Hc.
Qed.

Lemma writes_cache_only_for_fold {A B} (xs : list A) (body : B -> A -> M B) acc :
  (forall b a, writes_cache_only (body b a)) ->
  writes_cache_only (for_fold xs acc body).
Proof.
  intros Hbody. revert acc. induction xs as [|x xs IH]; intros acc; simpl.
  - apply writes_cache_only_ret.
  - apply writes_cache_only_bind; [apply Hbody | intros; apply IH].
Qed.

Lemma writes_cache_only_getPriceData w a :
  writes_cache_only (PriceMonitor.getPriceData w a).
Proof.
  intros s. unfold PriceMonitor.getPriceData, bind, lift, modify, ret.
  destruct (getAssetPrice w a); repeat split.
Qed.

Ltac cache_only_steps :=
  repeat first
    [ apply writes_cache_only_ret
    | apply writes_cache_only_lift
    | apply writes_cache_only_getPriceData
    | apply writes_cache_only_bind; [|intros ?]
    | progress cbv zeta ].

Lemma writes_cache_only_calculateLiquidationProfit cfg w target debtAsset collateralAsset :
  writes_cache_only
    (Liquidator.calculateLiquidationProfit cfg w target debtAsset collateralAsset).
Proof. unfold Liquidator.calculateLiquidationProfit. cache_only_steps. Qed.

Lemma writes_cache_only_findBest cfg w positions :
  writes_cache_only (StrategyManager.findBest cfg w positions).
Proof.
  unfold StrategyManager.findBest.
  repeat (apply writes_cache_only_for_fold; intros ? ?).
  apply writes_cache_only_bind.
  - apply writes_cache_only_calculateLiquidationProfit.
  - intros ?. apply writes_cache_only_ret.
Qed.

(** ** The flash-loan execution path *)

Section Execution.

Variables (cfg : Config.t) (w : World).

Definition params_of (c : LiquidationProfitCalculation.t) : result (list byte) :=
  Liquidator.encodeParams w
    (Asset.address (LiquidationProfitCalculation.collateralAsset c))
    (Asset.address (LiquidationProfitCalculation.debtAsset c))
    (LiquidationTarget.user (LiquidationProfitCalculation.target c))
    (LiquidationProfitCalculation.debtToCover c).

(** [executeLiquidation] has a result on every input: its [catch] turns
    whatever the body throws into a failed [ExecutionResult]. *)
Lemma executeLiquidation_total calculation s :
  exists r s', Liquidator.executeLiquidation cfg w calculation s = (Ok r, s').
Proof.
  unfold Liquidator.executeLiquidation, try_catch.
  destruct (Liquidator.executeLiquidation_try cfg w calculation s) as [[r|msg] s'].
  - exists r, s'. reflexivity.
  - eexists _, _. reflexivity.
Qed.

Lemma executeLiquidation_caught calculation s msg s' :
  Liquidator.executeLiquidation_try cfg w calculation s = (Throw msg, s') ->
  Liquidator.executeLiquidation cfg w calculation s
  = (Ok (ExecutionResult.mk false None (Some msg) None None (Date_now w)), s').
Proof.
  intros H. unfold Liquidator.executeLiquidation, try_catch. rewrite H. reflexivity.
Qed.

Lemma executeLiquidation_gas_too_high calculation s params gasPrice maxGasPrice :
  params_of calculation = Ok params ->
  getGasPrice w = Ok gasPrice ->
  Config.maxGasPriceGwei cfg = Ok maxGasPrice ->
  gasPrice > maxGasPrice ->
  Liquidator.executeLiquidation cfg w calculation s = (Ok (Liquidator.gasPriceTooHigh w), s).
Proof.
  unfold params_of. intros Hp Hg Hmax Hgt.
  unfold Liquidator.executeLiquidation, try_catch, Liquidator.executeLiquidation_try.
  unfold bind at 1. unfold lift at 1. rewrite Hp.
  unfold bind at 1. unfold lift at 1. rewrite Hg.
  unfold bind at 1. unfold lift at 1. rewrite Hmax.
  apply Z.gtb_gt in Hgt. rewrite Hgt. reflexivity.
Qed.

(** The result the [catch] block builds from an error. *)
Definition caught (w' : World) (message : string) : ExecutionResult.t :=
  ExecutionResult.mk false None (Some message) None None (Date_now w').

(** A ceiling that [parseUnits] refuses is an error like any other: it is
    raised after the gas price is read and before anything is sent. *)
Lemma executeLiquidation_ceiling_refused calculation s params gasPrice msg :
  params_of calculation = Ok params ->
  getGasPrice w = Ok gasPrice ->
  Config.maxGasPriceGwei cfg = Throw msg ->
  Liquidator.executeLiquidation cfg w calculation s = (Ok (caught w msg), s).
Proof.
  unfold params_of. intros Hp Hg Hmax.
  unfold Liquidator.executeLiquidation, try_catch, Liquidator.executeLiquidation_try.
  unfold bind at 1. unfold lift at 1. rewrite Hp.
  unfold bind at 1. unfold lift at 1. rewrite Hg.
  unfold bind at 1. unfold lift at 1. rewrite Hmax.
  reflexivity.
Qed.

(** The flash loan [executeLiquidation] submits for an estimate. *)
Definition flashLoan_of (calculation : LiquidationProfitCalculation.t)
    (params : list byte) (gasPrice : Z) : FlashLoanCall.t :=
  FlashLoanCall.mk (Config.flashLoanExecutorAddress cfg)
    [Asset.address (LiquidationProfitCalculation.debtAsset calculation)]
    [LiquidationProfitCalculation.debtToCover calculation] [0]
    (Config.walletAddress cfg) params 0 2000000 gasPrice.

(** Past the ceiling check: what is submitted, and the result by what
    the submission and the settlement answer. *)
Lemma executeLiquidation_submitting calculation s params gasPrice maxGasPrice :
  params_of calculation = Ok params ->
  getGasPrice w = Ok gasPrice ->
  Config.maxGasPriceGwei cfg = Ok maxGasPrice ->
  gasPrice <= maxGasPrice ->
  let call := flashLoan_of calculation params gasPrice in
  Liquidator.executeLiquidation cfg w calculation s
  = match flashLoan w call with
    | Throw msg => (Ok (caught w msg), s)
    | Ok tx =>
        (Ok match wait w tx with
            | Throw msg => caught w msg
            | Ok receipt =>
                let gasUsed := Receipt.gasUsed receipt in
                let gasCostWei := gasUsed * Receipt.effectiveGasPrice receipt in
                if Receipt.status receipt =? 0 then caught w (callException w receipt)
                else if Receipt.status receipt =? 1
                then ExecutionResult.mk true (Some (Receipt.transactionHash receipt)) None
                       (Some gasUsed) (Some gasCostWei) (Date_now w)
                else ExecutionResult.mk false (Some (Receipt.transactionHash receipt))
                       (Some "Transaction failed") (Some gasUsed) (Some gasCostWei)
                       (Date_now w)
            end,
         push_sent call s)
    end.
Proof.
  intros Hp Hg Hmax Hle call. unfold params_of in Hp.
  unfold Liquidator.executeLiquidation, try_catch, Liquidator.executeLiquidation_try.
  unfold bind at 1. unfold lift at 1. rewrite Hp.
  unfold bind at 1. unfold lift at 1. rewrite Hg.
  unfold bind at 1. unfold lift at 1. rewrite Hmax.
  assert (Hgtb : (gasPrice >? maxGasPrice) = false).
  { rewrite Z.gtb_ltb. apply Z.ltb_ge. exact Hle. }
  rewrite Hgtb. cbv zeta. fold (flashLoan_of calculation params gasPrice). fold call.
  unfold bind at 1. unfold lift at 1.
  destruct (flashLoan w call) as [tx|msg]; [|reflexivity].
  unfold bind at 1. unfold modify at 1.
  unfold bind at 1. unfold lift at 1. unfold tx_wait.
  destruct (wait w tx) as [receipt|msg]; [|reflexivity].
  destruct (Receipt.status receipt =? 0) eqn:H0; [reflexivity|].
  destruct (Receipt.status receipt =? 1); reflexivity.
Qed.

(** [executeStrategy] inside the cooldown window does nothing at all. *)
Lemma executeStrategy_cooling_down s :
  Date_now w - lastExecutionTime s < StrategyManager.executionCooldown ->
  StrategyManager.executeStrategy cfg w s = (Ok tt, s).
Proof.
  intros Hlt. apply Z.ltb_lt in Hlt.
  unfold StrategyManager.executeStrategy, try_catch, bind,
    StrategyManager.get_lastExecutionTime.
  rewrite Hlt. reflexivity.
Qed.

(** [executeStrategy] past the cooldown, with an opportunity found:
    whatever the execution returns is recorded and the timer restarts. *)
Lemma executeStrategy_records s best s1 result s2 :
  StrategyManager.executionCooldown <= Date_now w - lastExecutionTime s ->
  getLiquidatablePositions w <> [] ->
  StrategyManager.findBest cfg w (getLiquidatablePositions w) s = (Ok (Some best), s1) ->
  Liquidator.executeLiquidation cfg w best s1 = (Ok result, s2) ->
  StrategyManager.executeStrategy cfg w s
  = (Ok tt, push_executionHistory result (set_lastExecutionTime (Date_now w) s2)).
Proof.
  intros Hge Hne Hbest Hexec. apply Z.ltb_ge in Hge.
  unfold StrategyManager.executeStrategy, try_catch.
  unfold bind at 1. unfold StrategyManager.get_lastExecutionTime.
  rewrite Hge.
  destruct (getLiquidatablePositions w) as [|p ps] eqn:Hpos; [congruence|].
  cbn [length Nat.eqb].
  unfold bind at 1. rewrite Hbest.
  unfold bind at 1. rewrite Hexec.
  reflexivity.
Qed.

End Execution.

(** ** C4: the cooldown *)

(** Two states that differ at most in the last-execution timestamp. *)
Definition same_but_timer (s1 s2 : State) : Prop :=
  priceCache s1 = priceCache s2
  /\ executionHistory s1 = executionHistory s2
  /\ sent s1 = sent s2.

(** A computation that never reads the timestamp: from two such states it
    returns the same value and ends in two such states. *)
Definition ignores_timer {A} (c : M A) : Prop :=
  forall s1 s2, same_but_timer s1 s2 ->
    fst (c s1) = fst (c s2) /\ same_but_timer (snd (c s1)) (snd (c s2)).

Lemma ignores_timer_ret {A} (a : A) : ignores_timer (ret a).
Proof. intros s1 s2 H. split; [reflexivity | exact H]. Qed.

Lemma ignores_timer_lift {A} (r : result A) : ignores_timer (lift r).
Proof. intros s1 s2 H. split; [reflexivity | exact H]. Qed.

Lemma ignores_timer_modify (f : State -> State) :
  (forall s1 s2, same_but_timer s1 s2 -> same_but_timer (f s1) (f s2)) ->
  ignores_timer (modify f).
Proof. intros Hf s1 s2 H. split; [reflexivity | apply Hf; exact H]. Qed.

Lemma ignores_timer_bind {A B} (c : M A) (k : A -> M B) :
  ignores_timer c -> (forall a, ignores_timer (k a)) -> ignores_timer (bind c k).
Proof.
  intros Hc Hk s1 s2 H. unfold bind. destruct (Hc s1 s2 H) as [Hv Hs].
  destruct (c s1) as [[a1|m1] t1], (c s2) as [[a2|m2] t2]; simpl in *;
    inversion Hv; subst.
  - apply Hk. exact Hs.
  - split; [reflexivity | exact Hs].
Qed.

Lemma ignores_timer_try_catch {A} (c : M A) (h : string -> M A) :
  ignores_timer c -> (forall msg, ignores_timer (h msg)) -> ignores_timer (try_catch c h).
Proof.
  intros Hc Hh s1 s2 H. unfold try_catch. destruct (Hc s1 s2 H) as [Hv Hs].
  destruct (c s1) as [[a1|m1] t1], (c s2) as [[a2|m2] t2]; simpl in *;
    inversion Hv; subst.
  - split; [reflexivity | exact Hs].
  - apply Hh. exact Hs.
Qed.

Lemma ignores_timer_for_of {A} (xs : list A) (body : A -> M bool) :
  (forall x, ignores_timer (body x)) -> ignores_timer (for_of xs body).
Proof.
  intros Hbody. induction xs as [|x xs IH]; simpl.
  - apply ignores_timer_ret.
  - apply ignores_timer_bind; [apply Hbody|].
    intros [|]; [apply ignores_timer_ret | exact IH].
Qed.

Lemma ignores_timer_hasPriceDiscrepancy cfg a :
  ignores_timer (StrategyManager.hasPriceDiscrepancy cfg a).
Proof.
  intros s1 s2 H. unfold StrategyManager.hasPriceDiscrepancy,
    PriceMonitor.hasPriceDiscrepancy. simpl.
  destruct H as (Hcache & Hhist & Hsent). rewrite Hcache.
  split; [reflexivity|]. repeat split; assumption.
Qed.

Ltac timer_steps :=
  repeat first
    [ apply ignores_timer_ret
    | apply ignores_timer_lift
    | apply ignores_timer_hasPriceDiscrepancy
    | apply ignores_timer_modify;
      intros ? ? (? & ? & ?); repeat split; simpl; congruence
    | apply ignores_timer_bind; [|intros ?]
    | apply ignores_timer_try_catch; [|intros ?]
    | apply ignores_timer_for_of; intros ?
    | match goal with
      | |- ignores_timer (if ?b then _ else _) => destruct b
      end
    | progress cbv zeta ].

Lemma ignores_timer_getPriceData w a : ignores_timer (PriceMonitor.getPriceData w a).
Proof. unfold PriceMonitor.getPriceData. timer_steps. Qed.

Lemma ignores_timer_calculateLiquidationProfit cfg w target debtAsset collateralAsset :
  ignores_timer (Liquidator.calculateLiquidationProfit cfg w target debtAsset collateralAsset).
Proof.
  unfold Liquidator.calculateLiquidationProfit.
  repeat first [apply ignores_timer_getPriceData | timer_steps].
Qed.

Lemma ignores_timer_executeLiquidation cfg w calculation :
  ignores_timer (Liquidator.executeLiquidation cfg w calculation).
Proof.
  unfold Liquidator.executeLiquidation, Liquidator.executeLiquidation_try. timer_steps.
Qed.

Lemma ignores_timer_executeIfVeryProfitable cfg w multiplier margin calculation :
  ignores_timer (StrategyManager.executeIfVeryProfitable cfg w multiplier margin calculation).
Proof.
  unfold StrategyManager.executeIfVeryProfitable.
  repeat first [apply ignores_timer_executeLiquidation | timer_steps].
Qed.

Lemma ignores_timer_oracleDelayStrategy cfg w :
  ignores_timer (StrategyManager.oracleDelayStrategy cfg w).
Proof.
  unfold StrategyManager.oracleDelayStrategy.
  repeat first [ apply ignores_timer_getPriceData
               | apply ignores_timer_calculateLiquidationProfit
               | apply ignores_timer_executeIfVeryProfitable
               | timer_steps ].
Qed.

Lemma ignores_timer_eModeStrategy cfg w :
  ignores_timer (StrategyManager.eModeStrategy cfg w).
Proof.
  unfold StrategyManager.eModeStrategy.
  repeat first [ apply ignores_timer_calculateLiquidationProfit
               | apply ignores_timer_executeIfVeryProfitable
               | timer_steps ].
Qed.

Lemma same_but_timer_set t s : same_but_timer (set_lastExecutionTime t s) s.
Proof. repeat split. Qed.

(** C4, as the code satisfies it: an execution attempt requested through
    [executeStrategy] before the cooldown window has elapsed since the last
    recorded execution is rejected without side effects: the state is left
    as it was, so no transaction is submitted, no history entry is appended
    and the timestamp is not updated.  [oracleDelayStrategy] and
    [eModeStrategy] do not consult the cooldown: whatever the last-execution
    timestamp is, they submit the same transactions and append the same
    history entries. *)
Theorem executeStrategy_rejects_during_cooldown cfg w s :
  Date_now w - lastExecutionTime s < StrategyManager.executionCooldown ->
  (exists s',
     StrategyManager.executeStrategy cfg w s = (Ok tt, s')
     /\ s' = s
     /\ sent s' = sent s
     /\ executionHistory s' = executionHistory s
     /\ lastExecutionTime s' = lastExecutionTime s)
  /\ (forall strategy,
        strategy = StrategyManager.oracleDelayStrategy cfg w
        \/ strategy = StrategyManager.eModeStrategy cfg w ->
        forall last,
          sent (snd (strategy s)) = sent (snd (strategy (set_lastExecutionTime last s)))
          /\ executionHistory (snd (strategy s))
             = executionHistory (snd (strategy (set_lastExecutionTime last s)))).
Proof.
  intros Hlt. split.
  - exists s. rewrite executeStrategy_cooling_down by exact Hlt. repeat split.
  - intros strategy Hstrategy last.
    assert (Hig : ignores_timer strategy).
    { destruct Hstrategy as [-> | ->];
        [apply ignores_timer_oracleDelayStrategy | apply ignores_timer_eModeStrategy]. }
    destruct (Hig (set_lastExecutionTime last s) s (same_but_timer_set last s))
      as (_ & _ & Hhist & Hsent).
    split; congruence.
Qed.

Lemma executeStrategy_rejects_during_cooldown_witness :
  StrategyManager.executeStrategy Scenario.cfg (Scenario.world_20gwei 1) (Scenario.idle 999000)
  = (Ok tt, Scenario.idle 999000).
Proof.
  destruct (executeStrategy_rejects_during_cooldown Scenario.cfg (Scenario.world_20gwei 1)
              (Scenario.idle 999000))
    as ((s' & Hrun & -> & _) & _).
  - vm_compute. reflexivity.
  - exact Hrun.
Defined.

(** One second after the last execution [oracleDelayStrategy] still makes
    an execution attempt.  With the code as it is written the flash loan
    is refused for its receiver, so nothing is sent, but the failed result
    is appended to the history and the timestamp moves; with the
    executor's address filled in, the transaction is sent as well. *)
Lemma oracleDelayStrategy_ignores_cooldown :
  Date_now (Scenario.world_20gwei 1) - lastExecutionTime (Scenario.idle 999000)
    < StrategyManager.executionCooldown
  /\ (let s' := snd (StrategyManager.oracleDelayStrategy Scenario.cfg
                       (Scenario.world_20gwei 1) (Scenario.idle 999000)) in
      sent s' = []
      /\ map ExecutionResult.success (executionHistory s') = [false]
      /\ executionHistory s' <> executionHistory (Scenario.idle 999000)
      /\ lastExecutionTime s' = 1000000
      /\ lastExecutionTime s' <> lastExecutionTime (Scenario.idle 999000))
  /\ (let s' := snd (StrategyManager.oracleDelayStrategy Scenario.deployed
                       (Scenario.world_20gwei 1) (Scenario.idle 999000)) in
      length (sent s') = 1%nat
      /\ map ExecutionResult.success (executionHistory s') = [true]
      /\ lastExecutionTime s' = 1000000).
Proof.
  split; [vm_compute; reflexivity|]. split.
  - cbv zeta.
    assert (Hhistory : map ExecutionResult.success
                         (executionHistory
                            (snd (StrategyManager.oracleDelayStrategy Scenario.cfg
                                    (Scenario.world_20gwei 1) (Scenario.idle 999000))))
                       = [false]) by (vm_compute; reflexivity).
    split; [vm_compute; reflexivity|]. split; [exact Hhistory|].
    split; [intros H; rewrite H in Hhistory; discriminate Hhistory|].
    split; [vm_compute; reflexivity|]. vm_compute. discriminate.
  - cbv zeta. repeat split; vm_compute; reflexivity.
Qed.

(** ** C5: the gas-price ceiling *)

(** C5, as the code satisfies it: when the current gas price exceeds the
    configured ceiling, whatever ceiling [parseUnits] read from the
    configuration, [executeLiquidation] returns a failed result with the
    error "Gas price too high" and submits no transaction (the state is
    left as it was).  [executeStrategy] records that result like any
    other: the history gains the entry and the last-execution timestamp is
    set to the time of the attempt, so the cooldown is consumed. *)
Theorem gas_price_too_high_aborts cfg w calculation s params gasPrice maxGasPrice :
  params_of w calculation = Ok params ->
  getGasPrice w = Ok gasPrice ->
  Config.maxGasPriceGwei cfg = Ok maxGasPrice ->
  gasPrice > maxGasPrice ->
  Liquidator.executeLiquidation cfg w calculation s = (Ok (Liquidator.gasPriceTooHigh w), s)
  /\ ExecutionResult.success (Liquidator.gasPriceTooHigh w) = false
  /\ ExecutionResult.error (Liquidator.gasPriceTooHigh w) = Some "Gas price too high"
  /\ forall s0,
       StrategyManager.executionCooldown <= Date_now w - lastExecutionTime s0 ->
       getLiquidatablePositions w <> [] ->
       StrategyManager.findBest cfg w (getLiquidatablePositions w) s0 = (Ok (Some calculation), s) ->
       exists s',
         StrategyManager.executeStrategy cfg w s0 = (Ok tt, s')
         /\ sent s' = sent s0
         /\ executionHistory s' = (executionHistory s0 ++ [Liquidator.gasPriceTooHigh w])%list
         /\ lastExecutionTime s' = Date_now w.
Proof.
  intros Hp Hg Hmax Hgt.
  pose proof (executeLiquidation_gas_too_high cfg w calculation s params gasPrice maxGasPrice
                Hp Hg Hmax Hgt) as Hexec.
  repeat split; try assumption.
  intros s0 Hcool Hpos Hbest.
  eexists. split.
  - eapply executeStrategy_records; eassumption.
  - pose proof (writes_cache_only_findBest cfg w (getLiquidatablePositions w) s0) as Hs.
    rewrite Hbest in Hs. destruct Hs as (Hlast & Hhist & Hsent). simpl in *.
    repeat split; simpl; congruence.
Qed.

Lemma gas_price_too_high_aborts_witness :
  exists s',
    StrategyManager.executeStrategy Scenario.cfg Scenario.world_500gwei (Scenario.idle 0)
    = (Ok tt, s')
    /\ sent s' = []
    /\ executionHistory s' = [Liquidator.gasPriceTooHigh Scenario.world_500gwei]
    /\ lastExecutionTime s' = 1000000.
Proof.
  pose (w := Scenario.world_500gwei).
  assert (Hbest : fst (StrategyManager.findBest Scenario.cfg w (getLiquidatablePositions w)
                         (Scenario.idle 0))
                  = Ok (Some Scenario.calculation_500gwei))
    by (vm_compute; reflexivity).
  destruct (StrategyManager.findBest Scenario.cfg w (getLiquidatablePositions w) (Scenario.idle 0))
    as [r s] eqn:E.
  simpl in Hbest. subst r.
  destruct (params_of w Scenario.calculation_500gwei) as [params|msg] eqn:Hp;
    [|vm_compute in Hp; discriminate Hp].
  destruct (gas_price_too_high_aborts Scenario.cfg w Scenario.calculation_500gwei s params
              (500 * Scenario.gwei) 100000000000 Hp eq_refl eq_refl eq_refl)
    as (_ & _ & _ & Hstrategy).
  destruct (Hstrategy (Scenario.idle 0)) as (s' & Hrun & Hsent & Hhist & Hlast).
  - vm_compute. discriminate.
  - vm_compute. discriminate.
  - exact E.
  - exists s'. repeat split; assumption.
Defined.

(** At 500 gwei against a ceiling of 100 gwei [executeStrategy] aborts the
    execution and still moves the last-execution timestamp. *)
Lemma gas_abort_consumes_cooldown :
  getGasPrice Scenario.world_500gwei = Ok (500 * Scenario.gwei)
  /\ Config.maxGasPriceGwei Scenario.cfg = Ok (100 * Scenario.gwei)
  /\ 500 * Scenario.gwei > 100 * Scenario.gwei
  /\ let s' := snd (StrategyManager.executeStrategy Scenario.cfg Scenario.world_500gwei
                      (Scenario.idle 0)) in
     sent s' = []
     /\ map ExecutionResult.error (executionHistory s') = [Some "Gas price too high"]
     /\ lastExecutionTime s' = 1000000
     /\ lastExecutionTime s' <> lastExecutionTime (Scenario.idle 0).
Proof.
  split; [reflexivity|]. split; [reflexivity|]. split; [vm_compute; reflexivity|].
  cbv zeta. repeat split; try (vm_compute; reflexivity).
  vm_compute. discriminate.
Qed.

(** ** C6: failures are returned, not thrown *)

(** A failed result built from an error: no success, the error's
    message, no transaction hash. *)
Definition failed_with (r : ExecutionResult.t) (message : string) : Prop :=
  ExecutionResult.success r = false
  /\ ExecutionResult.error r = Some message
  /\ ExecutionResult.transactionHash r = None.

Lemma caught_failed_with w message : failed_with (caught w message) message.
Proof. repeat split. Qed.

(** C6, as the code satisfies it: [executeLiquidation] returns an
    [ExecutionResult] on every input.  An error raised while encoding the
    parameters, reading the gas price, parsing the ceiling, submitting the
    flash loan or waiting for it is returned with success = false and the
    error's message; that includes a reverted transaction, which [tx.wait]
    raises with a message that begins "transaction failed".  A receipt that [tx.wait] returns with a status other than 1
    is returned with success = false and error = "Transaction failed".
    Success is reported only for a receipt of status 1. *)
Theorem executeLiquidation_failures_are_data cfg w calculation s :
  exists r s',
    Liquidator.executeLiquidation cfg w calculation s = (Ok r, s')
    /\ (forall msg, params_of w calculation = Throw msg -> failed_with r msg /\ s' = s)
    /\ (forall params,
          params_of w calculation = Ok params ->
          (forall msg, getGasPrice w = Throw msg -> failed_with r msg /\ s' = s)
          /\ forall gasPrice,
               getGasPrice w = Ok gasPrice ->
               (forall msg,
                  Config.maxGasPriceGwei cfg = Throw msg -> failed_with r msg /\ s' = s)
               /\ forall maxGasPrice,
                    Config.maxGasPriceGwei cfg = Ok maxGasPrice ->
                    gasPrice <= maxGasPrice ->
                    let call := flashLoan_of cfg calculation params gasPrice in
                    (forall msg, flashLoan w call = Throw msg -> failed_with r msg /\ s' = s)
                    /\ forall tx,
                         flashLoan w call = Ok tx ->
                         (forall msg, wait w tx = Throw msg -> failed_with r msg)
                         /\ forall receipt,
                              wait w tx = Ok receipt ->
                              (Receipt.status receipt = 0 ->
                               failed_with r (callException w receipt))
                              /\ (Receipt.status receipt <> 0 ->
                                  Receipt.status receipt <> 1 ->
                                  ExecutionResult.success r = false
                                  /\ ExecutionResult.error r = Some "Transaction failed"
                                  /\ ExecutionResult.transactionHash r
                                     = Some (Receipt.transactionHash receipt)))
    /\ (ExecutionResult.success r = true ->
        exists params gasPrice tx receipt,
          params_of w calculation = Ok params
          /\ getGasPrice w = Ok gasPrice
          /\ flashLoan w (flashLoan_of cfg calculation params gasPrice) = Ok tx
          /\ wait w tx = Ok receipt
          /\ Receipt.status receipt = 1).
Proof.
  destruct (executeLiquidation_total cfg w calculation s) as (r & s' & Hrun).
  assert (Hcases :
    match params_of w calculation with
    | Throw msg => (Ok r, s') = (Ok (caught w msg), s)
    | Ok params =>
        match getGasPrice w with
        | Throw msg => (Ok r, s') = (Ok (caught w msg), s)
        | Ok gasPrice =>
            match Config.maxGasPriceGwei cfg with
            | Throw msg => (Ok r, s') = (Ok (caught w msg), s)
            | Ok maxGasPrice =>
                if gasPrice >? maxGasPrice
                then (Ok r, s') = (Ok (Liquidator.gasPriceTooHigh w), s)
                else (Ok r, s')
                     = Liquidator.executeLiquidation cfg w calculation s
                       /\ gasPrice <= maxGasPrice
            end
        end
    end).
  { rewrite <- Hrun. unfold params_of.
    unfold Liquidator.executeLiquidation, try_catch, Liquidator.executeLiquidation_try.
    unfold bind at 1. unfold lift at 1.
    destruct (Liquidator.encodeParams w _ _ _ _) as [params|msg]; [|reflexivity].
    unfold bind at 1. unfold lift at 1.
    destruct (getGasPrice w) as [gasPrice|msg]; [|reflexivity].
    unfold bind at 1. unfold lift at 1.
    destruct (Config.maxGasPriceGwei cfg) as [maxGasPrice|msg]; [|reflexivity].
    destruct (gasPrice >? maxGasPrice) eqn:Hgt; [reflexivity|].
    split; [reflexivity|]. rewrite Z.gtb_ltb in Hgt. apply Z.ltb_ge in Hgt. exact Hgt. }
  destruct (params_of w calculation) as [params|msg0] eqn:Hp.
  2:{ injection Hcases as -> ->. eexists _, _. split; [exact Hrun|]. split; [|split].
      - intros msg H. injection H as <-. split; [apply caught_failed_with | reflexivity].
      - intros params H. discriminate H.
      - intros H. discriminate H. }
  destruct (getGasPrice w) as [gasPrice|msg0] eqn:Hg.
  2:{ injection Hcases as -> ->. eexists _, _. split; [exact Hrun|]. split; [|split].
      - intros msg H. discriminate H.
      - intros params' H. split.
        + intros msg H'. injection H' as <-. split; [apply caught_failed_with | reflexivity].
        + intros g H'. discriminate H'.
      - intros H. discriminate H. }
  destruct (Config.maxGasPriceGwei cfg) as [maxGasPrice|msg0] eqn:Hmax.
  2:{ injection Hcases as -> ->. eexists _, _. split; [exact Hrun|]. split; [|split].
      - intros msg H. discriminate H.
      - intros params' H. split; [intros msg H'; discriminate H'|].
        intros g H'. split.
        + intros msg H''. injection H'' as <-.
          split; [apply caught_failed_with | reflexivity].
        + intros m H''. discriminate H''.
      - intros H. discriminate H. }
  destruct (gasPrice >? maxGasPrice) eqn:Hgt.
  { injection Hcases as -> ->. apply Z.gtb_gt in Hgt.
    eexists _, _. split; [exact Hrun|]. split; [|split].
    - intros msg H. discriminate H.
    - intros params' H. split; [intros msg H'; discriminate H'|].
      intros g H'. injection H' as <-. split; [intros msg H'; discriminate H'|].
      intros m H' Hle. injection H' as <-. lia.
    - intros H. discriminate H. }
  destruct Hcases as [_ Hle].
  pose proof (executeLiquidation_submitting cfg w calculation s params gasPrice maxGasPrice
                Hp Hg Hmax Hle) as Hsub.
  cbv zeta in Hsub. rewrite Hrun in Hsub.
  exists r, s'. split; [exact Hrun|]. split; [|split].
  - intros msg H. discriminate H.
  - intros params' H. injection H as <-. split; [intros msg H'; discriminate H'|].
    intros g H'. injection H' as <-. split; [intros msg H'; discriminate H'|].
    intros m _ _ call. subst call. split.
    + intros msg Htx. rewrite Htx in Hsub. injection Hsub as -> ->.
      split; [apply caught_failed_with | reflexivity].
    + intros tx Htx. rewrite Htx in Hsub. split.
      * intros msg Hwait. rewrite Hwait in Hsub. injection Hsub as -> _.
        apply caught_failed_with.
      * intros receipt Hwait. rewrite Hwait in Hsub. cbv zeta in Hsub. split.
        -- intros H0. apply Z.eqb_eq in H0. rewrite H0 in Hsub. injection Hsub as -> _.
           apply caught_failed_with.
        -- intros H0 H1. apply Z.eqb_neq in H0, H1. rewrite H0, H1 in Hsub.
           injection Hsub as -> _. repeat split.
  - intros Hsuccess.
    destruct (flashLoan w (flashLoan_of cfg calculation params gasPrice)) as [tx|msg] eqn:Htx.
    2:{ injection Hsub as -> _. discriminate Hsuccess. }
    destruct (wait w tx) as [receipt|msg] eqn:Hwait.
    2:{ injection Hsub as -> _. discriminate Hsuccess. }
    cbv zeta in Hsub.
    destruct (Receipt.status receipt =? 0) eqn:H0.
    { injection Hsub as -> _. discriminate Hsuccess. }
    destruct (Receipt.status receipt =? 1) eqn:H1.
    2:{ injection Hsub as -> _. discriminate Hsuccess. }
    apply Z.eqb_eq in H1. exists params, gasPrice, tx, receipt. repeat split; assumption.
Qed.

(** With the executor's address filled in and the flash loan sent, a
    settlement that fails is not returned as "SettlementFailed": the
    reverted transaction (receipt status 0) is raised by [tx.wait] and
    comes back with that error's message, which begins "transaction
    failed", and without a transaction hash. *)
Lemma settlement_failure_error_text :
  exists r,
    fst (Liquidator.executeLiquidation Scenario.deployed (Scenario.world_20gwei 0)
           Scenario.calculation_20gwei (Scenario.idle 0)) = Ok r
    /\ length (sent (snd (Liquidator.executeLiquidation Scenario.deployed
                            (Scenario.world_20gwei 0) Scenario.calculation_20gwei
                            (Scenario.idle 0)))) = 1%nat
    /\ ExecutionResult.success r = false
    /\ (exists details,
         ExecutionResult.error r = Some (String.append "transaction failed" details))
    /\ ExecutionResult.transactionHash r = None
    /\ ExecutionResult.error r <> Some "SettlementFailed".
Proof.
  eexists. split; [vm_compute; reflexivity|].
  split; [vm_compute; reflexivity|]. split; [reflexivity|].
  split; [eexists; reflexivity|]. split; [reflexivity | discriminate].
Qed.

(** ** The order of binary64 numbers

    The comparator of the ranking step subtracts two priorities and tests
    the sign.  On numbers that are not NaN the sign of the rounded
    difference is the outcome of the comparison: a difference of two
    distinct numbers never rounds to zero. *)

Lemma digits2_pos_size p : digits2_pos p = Pos.size p.
Proof. induction p as [p IH|p IH|]; simpl; try rewrite IH; reflexivity. Qed.

Lemma digits2_bounds p :
  2 ^ (Zpos (digits2_pos p) - 1) <= Zpos p < 2 ^ Zpos (digits2_pos p).
Proof.
  rewrite digits2_pos_size. split.
  - pose proof (Pos.size_le p) as H.
    assert (H' : 2 ^ Zpos (Pos.size p) <= 2 * Zpos p).
    { change (2 * Zpos p) with (Zpos p~0). rewrite <- Pos2Z.inj_pow.
      apply Pos2Z.pos_le_pos. exact H. }
    replace (Zpos (Pos.size p)) with (Z.succ (Zpos (Pos.size p) - 1)) in H' by lia.
    rewrite Z.pow_succ_r in H' by lia. lia.
  - pose proof (Pos.size_gt p) as H.
    change 2 with (Zpos 2). rewrite <- Pos2Z.inj_pow. apply Pos2Z.pos_lt_pos. exact H.
Qed.

Lemma shr_1_div2 mrs : 0 <= shr_m mrs -> shr_m (shr_1 mrs) = shr_m mrs / 2.
Proof.
  destruct mrs as [m r s]. simpl. intros Hm.
  destruct m as [|[p|p|]|p]; simpl; try reflexivity; try lia.
  - rewrite Pos2Z.inj_xI. apply Z.div_unique with (r := 1); lia.
  - rewrite Pos2Z.inj_xO. apply Z.div_unique with (r := 0); lia.
Qed.

Lemma iter_shr_1 p mrs :
  0 <= shr_m mrs -> shr_m (SpecFloat.iter_pos shr_1 p mrs) = shr_m mrs / 2 ^ Zpos p.
Proof.
  revert mrs. induction p as [p IH|p IH|]; intros mrs Hm; simpl SpecFloat.iter_pos.
  - assert (Hp : 0 < 2 ^ Zpos p) by (apply Z.pow_pos_nonneg; lia).
    assert (H1 : 0 <= shr_m (shr_1 mrs)) by (rewrite shr_1_div2 by lia; apply Z.div_pos; lia).
    assert (H2 : 0 <= shr_m (SpecFloat.iter_pos shr_1 p (shr_1 mrs)))
      by (rewrite IH by lia; apply Z.div_pos; lia).
    rewrite IH, IH, shr_1_div2 by lia.
    rewrite !Z.div_div by lia. f_equal.
    replace (Zpos p~1) with (1 + Zpos p + Zpos p) by lia.
    rewrite !Z.pow_add_r by lia. change (2 ^ 1) with 2. lia.
  - assert (Hp : 0 < 2 ^ Zpos p) by (apply Z.pow_pos_nonneg; lia).
    assert (H2 : 0 <= shr_m (SpecFloat.iter_pos shr_1 p mrs))
      by (rewrite IH by lia; apply Z.div_pos; lia).
    rewrite IH, IH by lia.
    rewrite !Z.div_div by lia. f_equal.
    replace (Zpos p~0) with (Zpos p + Zpos p) by lia.
    rewrite !Z.pow_add_r by lia. reflexivity.
  - rewrite shr_1_div2 by lia. reflexivity.
Qed.

Definition emin64 : Z := -1074.

Lemma fexp_unfold k : fexp prec emax k = Z.max (k - 53) emin64.
Proof. reflexivity. Qed.

Lemma shr_m_of_loc m l : shr_m (shr_record_of_loc m l) = m.
Proof. destruct l as [|[]]; reflexivity. Qed.

(** Rounding a positive mantissa at or above the least exponent keeps it
    positive. *)
Lemma shr_fexp_positive p e l :
  emin64 <= e ->
  0 < shr_m (fst (shr_fexp prec emax (Zpos p) e l))
  /\ emin64 <= snd (shr_fexp prec emax (Zpos p) e l).
Proof.
  intros He. unfold shr_fexp, shr. rewrite fexp_unfold.
  cbn [Zdigits2].
  pose proof (digits2_bounds p) as [Hlo _].
  set (d := Zpos (digits2_pos p)) in *.
  destruct (Z.max (d + e - 53) emin64 - e) as [|n|n] eqn:Hn; cbn [fst snd].
  - rewrite shr_m_of_loc. lia.
  - split; [|lia].
    rewrite iter_shr_1 by (rewrite shr_m_of_loc; lia).
    rewrite shr_m_of_loc.
    assert (Hnd : Zpos n <= d - 1) by lia.
    assert (Hpow : 2 ^ Zpos n <= 2 ^ (d - 1)) by (apply Z.pow_le_mono_r; lia).
    assert (0 < 2 ^ Zpos n) by (apply Z.pow_pos_nonneg; lia).
    apply Z.div_str_pos. lia.
  - rewrite shr_m_of_loc. lia.
Qed.

Lemma round_nearest_even_ge m l : m <= round_nearest_even m l.
Proof.
  unfold round_nearest_even. destruct l as [|[]]; try lia.
  destruct (Z.even m); lia.
Qed.

Lemma binary_round_aux_sign s p e l :
  emin64 <= e ->
  (exists m' e', binary_round_aux prec emax s (Zpos p) e l = S754_finite s m' e')
  \/ binary_round_aux prec emax s (Zpos p) e l = S754_infinity s.
Proof.
  intros He. unfold binary_round_aux.
  destruct (shr_fexp_positive p e l He) as [Hm1 He1].
  destruct (shr_fexp prec emax (Zpos p) e l) as [mrs1 e1]. cbn [fst snd] in *.
  pose proof (round_nearest_even_ge (shr_m mrs1) (loc_of_shr_record mrs1)) as Hr.
  destruct (round_nearest_even (shr_m mrs1) (loc_of_shr_record mrs1)) as [|q|q] eqn:Hq;
    try lia.
  destruct (shr_fexp_positive q e1 loc_Exact He1) as [Hm2 _].
  destruct (shr_fexp prec emax (Zpos q) e1 loc_Exact) as [mrs2 e2]. cbn [fst snd] in *.
  destruct (shr_m mrs2) as [|m2|m2]; try lia.
  destruct (e2 <=? emax - prec).
  - left. eexists _, _. reflexivity.
  - right. reflexivity.
Qed.

Lemma shl_align_value m e ez :
  ez <= e -> Zpos (fst (shl_align m e ez)) = Zpos m * 2 ^ (e - ez).
Proof.
  intros Hle. unfold shl_align.
  destruct (ez - e) as [|d|d] eqn:Hd; cbn [fst]; try lia.
  - replace (e - ez) with 0 by lia. lia.
  - replace (e - ez) with (Zpos d) by lia.
    change (Pos.iter xO m d) with (Zpower.shift_pos d m).
    rewrite Zpower.shift_pos_correct. rewrite Z.mul_comm. reflexivity.
Qed.

Lemma shl_align_exponent m e e' :
  emin64 <= e -> emin64 <= e' -> emin64 <= snd (shl_align m e e').
Proof.
  intros He He'. unfold shl_align. destruct (e' - e); cbn [snd]; assumption.
Qed.

Lemma binary_round_sign s m e :
  emin64 <= e ->
  (exists m' e', binary_round prec emax s m e = S754_finite s m' e')
  \/ binary_round prec emax s m e = S754_infinity s.
Proof.
  intros He. unfold binary_round.
  pose proof (shl_align_exponent m e (fexp prec emax (Zpos (digits2_pos m) + e)) He) as Hz.
  destruct (shl_align m e (fexp prec emax (Zpos (digits2_pos m) + e))) as [mz ez].
  apply binary_round_aux_sign. apply Hz. rewrite fexp_unfold. lia.
Qed.

(** A canonical mantissa has at most 53 digits, and exactly 53 above the
    least exponent. *)
Lemma bounded_digits m e :
  bounded prec emax m e = true ->
  emin64 <= e
  /\ Zpos m < 2 ^ 53
  /\ (emin64 < e -> 2 ^ 52 <= Zpos m).
Proof.
  unfold bounded, canonical_mantissa. intros H.
  apply andb_true_iff in H. destruct H as [H _]. apply Z.eqb_eq in H.
  rewrite fexp_unfold in H.
  pose proof (digits2_bounds m) as [Hlo Hhi].
  set (d := Zpos (digits2_pos m)) in *.
  assert (Hd : d <= 53) by lia.
  split; [lia|]. split.
  - assert (2 ^ d <= 2 ^ 53) by (apply Z.pow_le_mono_r; lia). lia.
  - intros He. assert (d = 53) by lia. replace (d - 1) with 52 in Hlo by lia. exact Hlo.
Qed.

Definition aligned (s : bool) (m : positive) (e ez : Z) : Z :=
  cond_Zopp s (Zpos (fst (shl_align m e ez))).

Lemma Pos_compare_cont_Eq a b : Pos.compare_cont Eq a b = (Zpos a ?= Zpos b).
Proof. reflexivity. Qed.

(** On canonical numbers the comparison by exponent and mantissa is the
    comparison of the values brought to a common exponent. *)
Lemma SFcompare_aligned sx mx ex sy my ey :
  bounded prec emax mx ex = true ->
  bounded prec emax my ey = true ->
  SFcompare (S754_finite sx mx ex) (S754_finite sy my ey)
  = Some (aligned sx mx ex (Z.min ex ey) ?= aligned sy my ey (Z.min ex ey)).
Proof.
  intros Hx Hy.
  apply bounded_digits in Hx. destruct Hx as (Hex & Hmx & Hnx).
  apply bounded_digits in Hy. destruct Hy as (Hey & Hmy & Hny).
  unfold aligned. rewrite !shl_align_value by lia.
  change (2 ^ 53) with 9007199254740992 in *.
  change (2 ^ 52) with 4503599627370496 in *.
  assert (Hshift : forall a b, a < b -> 2 <= 2 ^ (b - a)).
  { intros a b Hab. change 2 with (2 ^ 1) at 1. apply Z.pow_le_mono_r; lia. }
  unfold SFcompare. rewrite !Pos_compare_cont_Eq.
  destruct (Z.compare_spec ex ey) as [Heq|Hlt|Hgt].
  - subst ey. rewrite Z.min_id, Z.sub_diag, !Z.mul_1_r.
    destruct sx, sy; reflexivity.
  - rewrite Z.min_l by lia. rewrite Z.sub_diag, Z.mul_1_r.
    pose proof (Hshift ex ey Hlt) as H2. specialize (Hny ltac:(lia)).
    assert (Hv : Zpos mx < Zpos my * 2 ^ (ey - ex)).
    { apply Z.lt_le_trans with (Zpos my * 2); [lia|].
      apply Z.mul_le_mono_nonneg_l; lia. }
    destruct sx, sy; cbv [cond_Zopp]; f_equal; symmetry.
    + apply Z.compare_gt_iff. lia.
    + apply Z.compare_lt_iff. lia.
    + apply Z.compare_gt_iff. lia.
    + apply Z.compare_lt_iff. lia.
  - rewrite Z.min_r by lia. rewrite Z.sub_diag, Z.mul_1_r.
    pose proof (Hshift ey ex ltac:(lia)) as H2. specialize (Hnx ltac:(lia)).
    assert (Hv : Zpos my < Zpos mx * 2 ^ (ex - ey)).
    { apply Z.lt_le_trans with (Zpos mx * 2); [lia|].
      apply Z.mul_le_mono_nonneg_l; lia. }
    destruct sx, sy; cbv [cond_Zopp]; f_equal; symmetry.
    + apply Z.compare_lt_iff. lia.
    + apply Z.compare_lt_iff. lia.
    + apply Z.compare_gt_iff. lia.
    + apply Z.compare_gt_iff. lia.
Qed.

(** The sign of a difference is the outcome of the comparison. *)
Lemma SFsub_sign x y :
  valid_binary x = true -> valid_binary y = true ->
  SFltb (S754_zero false) (SFsub prec emax y x) = SFltb x y.
Proof.
  intros Vx Vy.
  destruct x as [sx|sx| |sx mx ex];
    (destruct y as [sy|sy| |sy my ey]);
    try reflexivity;
    try (destruct sx, sy; reflexivity);
    try (destruct sx; reflexivity);
    try (destruct sy; reflexivity).
  cbn [valid_binary] in Vx, Vy.
  unfold SFltb at 2. rewrite (SFcompare_aligned _ _ _ _ _ _ Vx Vy).
  cbn [SFsub]. rewrite (Z.min_comm ey ex).
  fold (aligned sy my ey (Z.min ex ey)). fold (aligned sx mx ex (Z.min ex ey)).
  apply bounded_digits in Vx. destruct Vx as (Hex & _).
  apply bounded_digits in Vy. destruct Vy as (Hey & _).
  assert (Hez : emin64 <= Z.min ex ey) by lia.
  set (ax := aligned sx mx ex (Z.min ex ey)).
  set (ay := aligned sy my ey (Z.min ex ey)).
  unfold binary_normalize.
  destruct (ay - ax) as [|d|d] eqn:Hd.
  - replace (ax ?= ay) with Eq by (symmetry; apply Z.compare_eq_iff; lia). reflexivity.
  - replace (ax ?= ay) with Lt by (symmetry; apply Z.compare_lt_iff; lia).
    destruct (binary_round_sign false d _ Hez) as [(m' & e' & ->)| ->]; reflexivity.
  - replace (ax ?= ay) with Gt by (symmetry; apply Z.compare_gt_iff; lia).
    destruct (binary_round_sign true d _ Hez) as [(m' & e' & ->)| ->]; reflexivity.
Qed.

(** [SFcompare] is a total order on the numbers that are not NaN. *)
Ltac compare_cases :=
  repeat match goal with
    | |- context [Z.compare ?a ?b] => destruct (Z.compare_spec a b)
    | |- context [Pos.compare_cont Eq ?a ?b] =>
        change (Pos.compare_cont Eq a b) with (Pos.compare a b);
        destruct (Pos.compare_spec a b)
    end;
  cbn [CompOpp]; try reflexivity; try discriminate; try lia.

Lemma SFcompare_antisym x y :
  SFcompare y x = match SFcompare x y with Some c => Some (CompOpp c) | None => None end.
Proof.
  destruct x as [[]|[]| |[] mx ex], y as [[]|[]| |[] my ey];
    try reflexivity; cbn [SFcompare]; f_equal; compare_cases.
Qed.

Lemma SFleb_trans x y z :
  SFleb x y = true -> SFleb y z = true -> SFleb x z = true.
Proof.
  unfold SFleb.
  destruct x as [[]|[]| |[] mx ex], y as [[]|[]| |[] my ey];
    try discriminate; try (intros _; destruct z as [[]|[]| |[] mz ez]; intros H; exact H);
    destruct z as [[]|[]| |[] mz ez]; cbn [SFcompare];
    try discriminate; try (intros; reflexivity);
    compare_cases; subst; compare_cases; intros; compare_cases.
Qed.

Lemma SFcompare_not_nan x y :
  x <> S754_nan -> y <> S754_nan -> exists c, SFcompare x y = Some c.
Proof.
  intros Hx Hy.
  destruct x as [?|?| |? ? ?], y as [?|?| |? ? ?]; try congruence;
    cbn [SFcompare]; eexists; reflexivity.
Qed.

(** [b - a > 0] holds exactly when [a < b]; with a NaN neither holds. *)
Lemma sub_positive a b : (0 <? b - a)%float = (a <? b)%float.
Proof.
  rewrite !FloatAxioms.ltb_spec, FloatAxioms.sub_spec, Prim2SF_zero.
  apply SFsub_sign; apply Prim2SF_valid.
Qed.

Lemma ltb_leb a b : (a <? b)%float = true -> (a <=? b)%float = true.
Proof.
  rewrite FloatAxioms.ltb_spec, FloatAxioms.leb_spec. unfold SFltb, SFleb.
  destruct (SFcompare (Prim2SF a) (Prim2SF b)) as [[]|]; congruence.
Qed.

Lemma not_ltb_leb a b :
  PrimFloat.is_nan a = false -> PrimFloat.is_nan b = false ->
  (a <? b)%float = false -> (b <=? a)%float = true.
Proof.
  intros Ha Hb. apply Prim2SF_not_nan in Ha, Hb.
  rewrite FloatAxioms.ltb_spec, FloatAxioms.leb_spec. unfold SFltb, SFleb.
  rewrite (SFcompare_antisym (Prim2SF a) (Prim2SF b)).
  destruct (SFcompare_not_nan _ _ Ha Hb) as [c ->].
  destruct c; simpl; congruence.
Qed.

Lemma leb_trans a b c :
  (a <=? b)%float = true -> (b <=? c)%float = true -> (a <=? c)%float = true.
Proof. rewrite !FloatAxioms.leb_spec. apply SFleb_trans. Qed.


(** ** C7: the ranking step *)

Section Ranking.

Variables (A : Type) (key : A -> float).

Let compareFn (a b : A) : float := (key b - key a)%float.

Let descending (a b : A) : Prop := (key b <=? key a)%float = true.


Lemma insert_Permutation x l : Permutation (Array.insert compareFn x l) (x :: l).
Proof.
  induction l as [|y l IH]; simpl.
  - apply Permutation_refl.
  - destruct (0 <? compareFn x y)%float.
    + apply Permutation_trans with (y :: x :: l).
      * apply perm_skip. exact IH.
      * apply perm_swap.
    + apply Permutation_refl.
Qed.

Lemma sort_Permutation l : Permutation (Array.sort compareFn l) l.
Proof.
  induction l as [|x l IH]; simpl.
  - apply perm_nil.
  - apply Permutation_trans with (x :: Array.sort compareFn l).
    + apply insert_Permutation.
    + apply perm_skip. exact IH.
Qed.



Lemma insert_sorted x l :
  PrimFloat.is_nan (key x) = false ->
  Forall (fun a => PrimFloat.is_nan (key a) = false) l ->
  StronglySorted descending l ->
  StronglySorted descending (Array.insert compareFn x l).
Proof.
  intros Hx Hl Hs. induction Hs as [|y l Hs IH Hy].
  - simpl. constructor; constructor.
  - inversion Hl as [|? ? Hny Hnl]; subst.
    cbn [Array.insert]. unfold compareFn at 1. rewrite sub_positive.
    destruct (key x <? key y)%float eqn:Hlt.
    + constructor; [apply IH; assumption|].
      apply (Permutation_Forall (Permutation_sym (insert_Permutation x l))).
      constructor; [apply ltb_leb; exact Hlt | exact Hy].
    + assert (Hxy : descending x y) by (apply not_ltb_leb; assumption).
      constructor; [constructor; assumption|].
      constructor; [exact Hxy|].
      eapply List.Forall_impl; [|exact Hy].
      intros z Hyz. unfold descending in *. eapply leb_trans; eassumption.
Qed.

Lemma sort_sorted l :
  Forall (fun a => PrimFloat.is_nan (key a) = false) l ->
  StronglySorted descending (Array.sort compareFn l).
Proof.
  induction 1 as [|x l Hx Hl IH]; [constructor|].
  cbn [Array.sort fold_right]. fold (Array.sort compareFn l).
  apply insert_sorted; try assumption.
  apply (Permutation_Forall (Permutation_sym (sort_Permutation l))). exact Hl.
Qed.

End Ranking.



(** * Further properties *)

(** ** The price cache *)

(** X1: a successful [getPriceData] stores the quote it returns under the
    asset's address and leaves every other cache entry as it was; when the
    oracle read fails the error is passed on and nothing is stored. *)
Theorem getPriceData_caches_quote w assetAddress s :
  (forall price, getAssetPrice w assetAddress = Ok price ->
     exists pd s',
       PriceMonitor.getPriceData w assetAddress s = (Ok pd, s')
       /\ PriceData.assetAddress pd = assetAddress
       /\ PriceData.aaveOraclePrice pd = price
       /\ priceCache s' !! assetAddress = Some pd
       /\ (forall other, other <> assetAddress ->
             priceCache s' !! other = priceCache s !! other)
       /\ cache_only s s')
  /\ (forall msg, getAssetPrice w assetAddress = Throw msg ->
        PriceMonitor.getPriceData w assetAddress s = (Throw msg, s)).
Proof.
  split.
  - intros price Hprice. unfold PriceMonitor.getPriceData, bind, lift, modify, ret.
    rewrite Hprice. eexists _, _. split; [reflexivity|]. cbn.
    repeat split.
    + apply lookup_insert_eq.
    + intros other Hne. apply lookup_insert_ne. congruence.
  - intros msg Hprice. unfold PriceMonitor.getPriceData, bind, lift.
    rewrite Hprice. reflexivity.
Qed.

(** The result of rounding keeps the sign it was given. *)
Lemma binary_round_aux_shape s m e l :
  binary_round_aux prec emax s m e l = S754_zero s
  \/ binary_round_aux prec emax s m e l = S754_infinity s
  \/ binary_round_aux prec emax s m e l = S754_nan
  \/ exists m' e', binary_round_aux prec emax s m e l = S754_finite s m' e'.
Proof.
  unfold binary_round_aux.
  destruct (shr_fexp prec emax m e l) as [mrs1 e1].
  destruct (shr_fexp prec emax _ e1 loc_Exact) as [mrs2 e2].
  destruct (shr_m mrs2) as [|p|p]; auto.
  destruct (e2 <=? emax - prec); eauto 6.
Qed.

Lemma abs_times_hundred_not_negative x :
  (PrimFloat.abs x * 100 <? 0)%float = false.
Proof.
  rewrite FloatAxioms.ltb_spec, FloatAxioms.mul_spec, FloatAxioms.abs_spec, Prim2SF_zero.
  assert (H100 : exists m e, Prim2SF 100 = S754_finite false m e)
    by (eexists _, _; vm_compute; reflexivity).
  destruct H100 as (m100 & e100 & ->).
  unfold SF64mul.
  destruct (Prim2SF x) as [sx|sx| |sx mx ex]; try reflexivity.
  cbn [SFabs SFmul xorb].
  destruct (binary_round_aux_shape false (Zpos (mx * m100)) (ex + e100) loc_Exact)
    as [-> | [-> | [-> | (m' & e' & ->)]]]; reflexivity.
Qed.

(** X2: a discrepancy figure exists only when there is an external
    price and that price, as a number, is positive; and it is never
    negative: it is zero, positive or NaN.  Without an external price,
    or with one that is not positive, there is no figure. *)
Theorem discrepancy_not_negative aaveOraclePrice externalApiPrice :
  (forall d,
     PriceMonitor.discrepancy aaveOraclePrice externalApiPrice = Some d ->
     (exists ext,
        externalApiPrice = Some ext /\ (0 <? Number.of_decimal ext 8)%float = true)
     /\ (d <? 0)%float = false)
  /\ (externalApiPrice = None ->
      PriceMonitor.discrepancy aaveOraclePrice externalApiPrice = None)
  /\ (forall ext,
        externalApiPrice = Some ext ->
        (0 <? Number.of_decimal ext 8)%float = false ->
        PriceMonitor.discrepancy aaveOraclePrice externalApiPrice = None)
  /\ (forall ext,
        externalApiPrice = Some ext ->
        (0 <? Number.of_decimal ext 8)%float = true ->
        exists d, PriceMonitor.discrepancy aaveOraclePrice externalApiPrice = Some d).
Proof.
  unfold PriceMonitor.discrepancy. split; [|split; [|split]].
  - intros d. destruct externalApiPrice as [ext|]; [|discriminate].
    destruct (0 <? Number.of_decimal ext 8)%float eqn:Hpositive; [|discriminate].
    intros H. injection H as <-. split.
    + exists ext. split; [reflexivity | exact Hpositive].
    + apply abs_times_hundred_not_negative.
  - intros ->. reflexivity.
  - intros ext -> Hguard. cbv zeta. rewrite Hguard. reflexivity.
  - intros ext -> Hguard. cbv zeta. rewrite Hguard. eexists. reflexivity.
Qed.

Lemma discrepancy_not_negative_witness :
  (exists d, PriceMonitor.discrepancy 200000000000 (Some 210000000000) = Some d
     /\ (d <? 0)%float = false /\ (4.76 <? d)%float = true /\ (d <? 4.77)%float = true)
  /\ PriceMonitor.discrepancy 200000000000 (Some 0) = None
  /\ PriceMonitor.discrepancy 200000000000 (Some (-210000000000)) = None.
Proof.
  destruct (discrepancy_not_negative 200000000000 (Some 210000000000))
    as (Hsign & _ & _ & Hsome).
  destruct (Hsome 210000000000 eq_refl) as (d & E); [vm_compute; reflexivity|].
  split; [|split].
  - exists d. split; [exact E|]. split; [apply (Hsign d E)|].
    vm_compute in E. injection E as <-. split; vm_compute; reflexivity.
  - apply (proj1 (proj2 (proj2 (discrepancy_not_negative 200000000000 (Some 0)))) 0 eq_refl).
    vm_compute. reflexivity.
  - apply (proj1 (proj2 (proj2 (discrepancy_not_negative 200000000000
                                   (Some (-210000000000)))))
             (-210000000000) eq_refl).
    vm_compute. reflexivity.
Defined.

(** X3: an asset that is none of WETH, USDC and DAI (in any letter case)
    has no external quote, so right after it is quoted
    [hasPriceDiscrepancy] answers false for it, whatever the prices. *)
Theorem unmapped_asset_has_no_discrepancy cfg w assetAddress s pd s' :
  PriceMonitor.tokenIdMap (toLowerCase assetAddress) = None ->
  PriceMonitor.getPriceData w assetAddress s = (Ok pd, s') ->
  PriceData.externalApiPrice pd = None
  /\ PriceData.discrepancyPercentage pd = None
  /\ PriceMonitor.hasPriceDiscrepancy cfg s' assetAddress = false.
Proof.
  intros Hmap Hrun.
  unfold PriceMonitor.getPriceData, bind, lift, modify, ret in Hrun.
  destruct (getAssetPrice w assetAddress) as [price|msg]; [|discriminate].
  injection Hrun as <- <-.
  unfold PriceMonitor.getExternalPrice. rewrite Hmap. cbn.
  repeat split.
  unfold PriceMonitor.hasPriceDiscrepancy. cbn.
  rewrite lookup_insert_eq. reflexivity.
Qed.

Lemma unmapped_asset_has_no_discrepancy_witness :
  PriceMonitor.hasPriceDiscrepancy Scenario.cfg
    (snd (PriceMonitor.getPriceData (Scenario.world_20gwei 1) Scenario.pool (Scenario.idle 0)))
    Scenario.pool = false.
Proof.
  destruct (PriceMonitor.getPriceData (Scenario.world_20gwei 1) Scenario.pool (Scenario.idle 0))
    as [[pd|msg] s'] eqn:E.
  - destruct (unmapped_asset_has_no_discrepancy Scenario.cfg (Scenario.world_20gwei 1)
                Scenario.pool (Scenario.idle 0) pd s' eq_refl E) as (_ & _ & H).
    exact H.
  - vm_compute in E. discriminate E.
Defined.

(** ** The estimate as a whole *)

(** A computation whose value does not depend on the state it starts from. *)
Definition state_blind {A} (c : M A) : Prop :=
  forall s1 s2, fst (c s1) = fst (c s2).

Lemma state_blind_ret {A} (a : A) : state_blind (ret a).
Proof. intros s1 s2. reflexivity. Qed.

Lemma state_blind_lift {A} (r : result A) : state_blind (lift r).
Proof. intros s1 s2. reflexivity. Qed.

Lemma state_blind_bind {A B} (c : M A) (k : A -> M B) :
  state_blind c -> (forall a, state_blind (k a)) -> state_blind (bind c k).
Proof.
  intros Hc Hk s1 s2. unfold bind. specialize (Hc s1 s2).
  destruct (c s1) as [[a1|m1] t1], (c s2) as [[a2|m2] t2]; simpl in *;
    inversion Hc; subst; [apply Hk | reflexivity].
Qed.

Lemma state_blind_getPriceData w a : state_blind (PriceMonitor.getPriceData w a).
Proof.
  intros s1 s2. unfold PriceMonitor.getPriceData, bind, lift, modify, ret.
  destruct (getAssetPrice w a); reflexivity.
Qed.

Lemma state_blind_calculateLiquidationProfit cfg w target debtAsset collateralAsset :
  state_blind (Liquidator.calculateLiquidationProfit cfg w target debtAsset collateralAsset).
Proof.
  unfold Liquidator.calculateLiquidationProfit.
  repeat first
    [ apply state_blind_ret
    | apply state_blind_lift
    | apply state_blind_getPriceData
    | apply state_blind_bind; [|intros ?]
    | progress cbv zeta ].
Qed.

(** The fields of a successful estimate that are not computed from
    prices. *)
Lemma calculateLiquidationProfit_echo cfg w target debtAsset collateralAsset s r s' :
  Liquidator.calculateLiquidationProfit cfg w target debtAsset collateralAsset s = (Ok r, s') ->
  LiquidationProfitCalculation.target r = target
  /\ LiquidationProfitCalculation.debtAsset r = debtAsset
  /\ LiquidationProfitCalculation.collateralAsset r = collateralAsset
  /\ LiquidationProfitCalculation.profitable r
     = (Config.minProfitUsd cfg <? LiquidationProfitCalculation.netProfitUsd r)%float
  /\ (LiquidationProfitCalculation.profitable r = false ->
      LiquidationProfitCalculation.executionPriority r = 0%float)
  /\ exists gasPrice, getGasPrice w = Ok gasPrice.
Proof.
  unfold Liquidator.calculateLiquidationProfit. intros H. run_steps.
  cbn. repeat split; eauto.
  intros Hp. rewrite Hp. reflexivity.
Qed.

(** X4: an estimate is a function of the position, the pair and the
    world's answers alone: it never reads the price cache it writes, nor
    any other part of the state.  It echoes its inputs, is flagged
    profitable exactly when the net profit exceeds the floor, and has
    priority 0 when it is not profitable. *)
Theorem estimate_reads_world_only cfg w target debtAsset collateralAsset s1 s2 :
  fst (Liquidator.calculateLiquidationProfit cfg w target debtAsset collateralAsset s1)
  = fst (Liquidator.calculateLiquidationProfit cfg w target debtAsset collateralAsset s2)
  /\ (forall r s',
        Liquidator.calculateLiquidationProfit cfg w target debtAsset collateralAsset s1
        = (Ok r, s') ->
        LiquidationProfitCalculation.target r = target
        /\ LiquidationProfitCalculation.debtAsset r = debtAsset
        /\ LiquidationProfitCalculation.collateralAsset r = collateralAsset
        /\ LiquidationProfitCalculation.profitable r
           = (Config.minProfitUsd cfg <? LiquidationProfitCalculation.netProfitUsd r)%float
        /\ (LiquidationProfitCalculation.profitable r = false ->
            LiquidationProfitCalculation.executionPriority r = 0%float)).
Proof.
  split.
  - apply state_blind_calculateLiquidationProfit.
  - intros r s' H. apply calculateLiquidationProfit_echo in H.
    destruct H as (H1 & H2 & H3 & H4 & H5 & _). auto.
Qed.

(** X5: the estimate fails, with no result, when the oracle cannot price
    the debt or the collateral asset, when it prices the collateral at
    zero, when either asset reports negative decimals, or when the gas
    price cannot be read.  A failed estimate leaves the timestamp, the
    history and the submitted transactions as they were. *)
Theorem estimate_fails_without_data cfg w target debtAsset collateralAsset s :
  (exists msg, getAssetPrice w (Asset.address debtAsset) = Throw msg)
  \/ (exists msg, getAssetPrice w (Asset.address collateralAsset) = Throw msg)
  \/ getAssetPrice w (Asset.address collateralAsset) = Ok 0
  \/ Asset.decimals debtAsset < 0
  \/ Asset.decimals collateralAsset < 0
  \/ (exists msg, getGasPrice w = Throw msg) ->
  exists msg s',
    Liquidator.calculateLiquidationProfit cfg w target debtAsset collateralAsset s
    = (Throw msg, s')
    /\ cache_only s s'.
Proof.
  intros Hbad.
  pose proof (writes_cache_only_calculateLiquidationProfit cfg w target debtAsset
                collateralAsset s) as Hcache.
  destruct (Liquidator.calculateLiquidationProfit cfg w target debtAsset collateralAsset s)
    as [[r|msg] s'] eqn:E.
  - exfalso.
    pose proof (calculateLiquidationProfit_Ok _ _ _ _ _ _ _ _ E)
      as (P & cp & bps & HP & Hcp & Hnz & Hcd & Hdd & _).
    pose proof (calculateLiquidationProfit_echo _ _ _ _ _ _ _ _ E)
      as (_ & _ & _ & _ & _ & (g & Hg)).
    destruct Hbad as [(m & H)|[(m & H)|[H|[H|[H|(m & H)]]]]]; try congruence; try lia.
  - exists msg, s'. split; [reflexivity | exact Hcache].
Qed.

Lemma estimate_fails_without_data_witness :
  fst (Liquidator.calculateLiquidationProfit Scenario.cfg Cases.world_zero_collateral_price
         (Scenario.position None) Scenario.debt (Scenario.collateral None) (Scenario.idle 0))
  = Throw "division-by-zero".
Proof.
  destruct (estimate_fails_without_data Scenario.cfg Cases.world_zero_collateral_price
              (Scenario.position None) Scenario.debt (Scenario.collateral None)
              (Scenario.idle 0))
    as (msg & s' & Hrun & _).
  - right. right. left. reflexivity.
  - rewrite Hrun. simpl.
    assert (Hmsg : fst (Liquidator.calculateLiquidationProfit Scenario.cfg
                          Cases.world_zero_collateral_price (Scenario.position None)
                          Scenario.debt (Scenario.collateral None) (Scenario.idle 0))
                   = Throw "division-by-zero") by (vm_compute; reflexivity).
    rewrite Hrun in Hmsg. exact Hmsg.
Defined.

(** ** What the flash-loan path submits *)

Lemma encodeParams_decodes w collateralAsset debtAsset user debtToCover params :
  Liquidator.encodeParams w collateralAsset debtAsset user debtToCover = Ok params ->
  exists c d u,
    getAddress w collateralAsset = Some c
    /\ getAddress w debtAsset = Some d
    /\ getAddress w user = Some u
    /\ FlashLoanLiquidator.decodeParams params = Some (c, d, u, debtToCover, false).
Proof.
  unfold Liquidator.encodeParams. intros H.
  destruct (getAddress w collateralAsset) as [c|]; [|discriminate].
  destruct (getAddress w debtAsset) as [d|]; [|discriminate].
  destruct (getAddress w user) as [u|]; [|discriminate].
  exists c, d, u. repeat split.
  apply decode_encode in H. destruct H as [_ Hdec].
  unfold FlashLoanLiquidator.decodeParams.
  change [Abi.TAddress; Abi.TAddress; Abi.TAddress; Abi.TUint256; Abi.TBool]
    with (map Abi.type_of [Abi.Address c; Abi.Address d; Abi.Address u;
                           Abi.Uint256 debtToCover; Abi.Bool false]).
  rewrite Hdec. reflexivity.
Qed.

(** X6: [executeLiquidation] never throws and either submits nothing,
    returning a failure without a transaction hash and leaving the state
    as it was, or submits exactly one flash loan and changes nothing else.
    That flash loan is one the pool accepted; it borrows [debtToCover] of
    the debt asset alone, in mode 0, for the executor, on behalf of the
    wallet, with a gas limit of 2,000,000 and the gas price just read,
    which is not above the ceiling [parseUnits] read from the
    configuration (whole or fractional gwei; when the ceiling is refused,
    nothing is submitted).  Its parameters decode in the executor contract
    to the estimate's collateral asset, debt asset, user and amount, with
    the flag false. *)
Theorem executeLiquidation_submits_one_flash_loan cfg w calculation s :
  exists r s',
    Liquidator.executeLiquidation cfg w calculation s = (Ok r, s')
    /\ ((s' = s
         /\ ExecutionResult.success r = false
         /\ ExecutionResult.transactionHash r = None)
        \/ exists call tx maxGasPrice c d u,
             s' = push_sent call s
             /\ flashLoan w call = Ok tx
             /\ FlashLoanCall.receiver call = Config.flashLoanExecutorAddress cfg
             /\ FlashLoanCall.assets call
                = [Asset.address (LiquidationProfitCalculation.debtAsset calculation)]
             /\ FlashLoanCall.amounts call
                = [LiquidationProfitCalculation.debtToCover calculation]
             /\ FlashLoanCall.interestRateModes call = [0]
             /\ FlashLoanCall.onBehalfOf call = Config.walletAddress cfg
             /\ FlashLoanCall.referralCode call = 0
             /\ FlashLoanCall.gasLimit call = 2000000
             /\ getGasPrice w = Ok (FlashLoanCall.gasPrice call)
             /\ Config.maxGasPriceGwei cfg = Ok maxGasPrice
             /\ FlashLoanCall.gasPrice call <= maxGasPrice
             /\ getAddress w (Asset.address (LiquidationProfitCalculation.collateralAsset
                                               calculation)) = Some c
             /\ getAddress w (Asset.address (LiquidationProfitCalculation.debtAsset
                                               calculation)) = Some d
             /\ getAddress w (LiquidationTarget.user (LiquidationProfitCalculation.target
                                                        calculation)) = Some u
             /\ FlashLoanLiquidator.decodeParams (FlashLoanCall.params call)
                = Some (c, d, u, LiquidationProfitCalculation.debtToCover calculation, false))
    /\ (forall msg,
          Config.maxGasPriceGwei cfg = Throw msg ->
          s' = s /\ ExecutionResult.success r = false).
Proof.
  unfold Liquidator.executeLiquidation, try_catch, Liquidator.executeLiquidation_try.
  unfold bind at 1. unfold lift at 1.
  destruct (Liquidator.encodeParams w _ _ _ _) as [params|msg] eqn:Hp;
    [|eexists _, _; split; [reflexivity|]; split; [left|intros ? _]; repeat split].
  unfold bind at 1. unfold lift at 1.
  destruct (getGasPrice w) as [gasPrice|msg] eqn:Hg;
    [|eexists _, _; split; [reflexivity|]; split; [left|intros ? _]; repeat split].
  unfold bind at 1. unfold lift at 1.
  destruct (Config.maxGasPriceGwei cfg) as [maxGasPrice|msg] eqn:Hmax;
    [|eexists _, _; split; [reflexivity|]; split; [left|intros ? _]; repeat split].
  destruct (gasPrice >? maxGasPrice) eqn:Hgt;
    [eexists _, _; split; [reflexivity|]; split; [left; repeat split | intros ? H; discriminate H]|].
  cbv zeta. unfold bind at 1. unfold lift at 1.
  destruct (flashLoan w _) as [tx|msg] eqn:Htx;
    [|eexists _, _; split; [reflexivity|]; split; [left; repeat split | intros ? H; discriminate H]].
  unfold bind at 1. unfold modify at 1.
  apply encodeParams_decodes in Hp. destruct Hp as (c & d & u & Hc & Hd & Hu & Hdec).
  assert (Hle : gasPrice <= maxGasPrice)
    by (rewrite Z.gtb_ltb in Hgt; apply Z.ltb_ge in Hgt; exact Hgt).
  unfold bind at 1. unfold lift at 1.
  destruct (tx_wait w tx) as [receipt|msg].
  - destruct (Receipt.status receipt =? 1);
      (eexists _, _; split; [reflexivity|]; split; [|intros ? H; discriminate H]; right;
       eexists _, tx, maxGasPrice, c, d, u; repeat split; assumption).
  - eexists _, _. split; [reflexivity|]. split; [|intros ? H; discriminate H]. right.
    eexists _, tx, maxGasPrice, c, d, u. repeat split; assumption.
Qed.

(** ** The direct path *)

(** X7: the direct path checks the wallet's balance of the debt token
    first: with less than [debtToCover] it returns the failure
    "Insufficient balance" and signs nothing, neither an approval nor a
    liquidation. *)
Theorem direct_liquidation_needs_balance cfg w wallet calculation signed debtTokenBalance :
  DirectLiquidation.balanceOf wallet
    (Asset.address (LiquidationProfitCalculation.debtAsset calculation))
    (Config.walletAddress cfg) = Ok debtTokenBalance ->
  debtTokenBalance < LiquidationProfitCalculation.debtToCover calculation ->
  DirectLiquidation.executeDirectLiquidation cfg w wallet calculation signed
  = (Ok (DirectLiquidation.insufficientBalance w), signed)
  /\ ExecutionResult.success (DirectLiquidation.insufficientBalance w) = false
  /\ ExecutionResult.error (DirectLiquidation.insufficientBalance w)
     = Some "Insufficient balance".
Proof.
  intros Hb Hlt. apply Z.ltb_lt in Hlt.
  unfold DirectLiquidation.executeDirectLiquidation, Eff.try_catch,
    DirectLiquidation.executeDirectLiquidation_try.
  cbv zeta. unfold Eff.bind at 1. unfold Eff.lift at 1. rewrite Hb, Hlt.
  repeat split.
Qed.

Lemma direct_liquidation_needs_balance_witness :
  DirectLiquidation.executeDirectLiquidation Scenario.cfg (Scenario.world_20gwei 1)
    (Cases.wallet_holding 999999999) Scenario.calculation_20gwei []
  = (Ok (DirectLiquidation.insufficientBalance (Scenario.world_20gwei 1)), []).
Proof.
  apply (direct_liquidation_needs_balance Scenario.cfg (Scenario.world_20gwei 1)
           (Cases.wallet_holding 999999999) Scenario.calculation_20gwei [] 999999999).
  - reflexivity.
  - reflexivity.
Defined.

(** X8: whatever the answers, the direct path signs at most two
    transactions, in this order: an approval of exactly [debtToCover] of
    the debt token to the pool, then a liquidation call for the estimate's
    collateral asset, debt asset and user with that amount, the flag false
    and a gas limit of 1,000,000.  It reports success only when both were
    signed, and it never throws. *)
Theorem direct_liquidation_signs_in_order cfg w wallet calculation signed :
  let approval :=
    DirectLiquidation.Approve
      (Asset.address (LiquidationProfitCalculation.debtAsset calculation))
      (Config.aavePoolAddress cfg)
      (LiquidationProfitCalculation.debtToCover calculation) in
  exists r signed',
    DirectLiquidation.executeDirectLiquidation cfg w wallet calculation signed
    = (Ok r, signed')
    /\ ((signed' = signed /\ ExecutionResult.success r = false)
        \/ (signed' = (signed ++ [approval])%list /\ ExecutionResult.success r = false)
        \/ exists gasPrice,
             getGasPrice w = Ok gasPrice
             /\ signed'
                = (signed ++
                   [approval;
                    DirectLiquidation.LiquidationCall
                      (Asset.address (LiquidationProfitCalculation.collateralAsset calculation))
                      (Asset.address (LiquidationProfitCalculation.debtAsset calculation))
                      (LiquidationTarget.user (LiquidationProfitCalculation.target calculation))
                      (LiquidationProfitCalculation.debtToCover calculation)
                      false 1000000 gasPrice])%list).
Proof.
  intros approval.
  unfold DirectLiquidation.executeDirectLiquidation, Eff.try_catch,
    DirectLiquidation.executeDirectLiquidation_try.
  cbv zeta. fold approval.
  unfold Eff.bind at 1. unfold Eff.lift at 1.
  destruct (DirectLiquidation.balanceOf wallet _ _) as [balance|msg];
    [|eexists _, _; split; [reflexivity | left; split; reflexivity]].
  destruct (balance <? _);
    [eexists _, _; split; [reflexivity | left; split; reflexivity]|].
  unfold Eff.bind at 1. unfold DirectLiquidation.submit at 1.
  unfold Eff.bind at 1. unfold Eff.lift at 1.
  destruct (DirectLiquidation.send wallet approval) as [approveTx|msg];
    [|eexists _, _; split; [reflexivity | left; split; reflexivity]].
  unfold Eff.bind at 1. unfold Eff.modify at 1. unfold Eff.ret at 1.
  unfold Eff.bind at 1. unfold Eff.lift at 1.
  destruct (tx_wait w approveTx) as [approveReceipt|msg];
    [|eexists _, _; split; [reflexivity | right; left; split; reflexivity]].
  unfold Eff.bind at 1. unfold Eff.lift at 1.
  destruct (getGasPrice w) as [gasPrice|msg];
    [|eexists _, _; split; [reflexivity | right; left; split; reflexivity]].
  unfold Eff.bind at 1. unfold DirectLiquidation.submit at 1.
  unfold Eff.bind at 1. unfold Eff.lift at 1.
  destruct (DirectLiquidation.send wallet _) as [tx|msg];
    [|eexists _, _; split; [reflexivity | right; left; split; reflexivity]].
  unfold Eff.bind at 1. unfold Eff.modify at 1. unfold Eff.ret at 1.
  unfold Eff.bind at 1. unfold Eff.lift at 1.
  assert (Happ : forall l : list DirectLiquidation.Tx, forall a b,
             ((l ++ [a]) ++ [b] = l ++ [a; b])%list)
    by (intros; rewrite <- app_assoc; reflexivity).
  destruct (tx_wait w tx) as [receipt|msg].
  - destruct (Receipt.status receipt =? 1);
      (eexists _, _; split; [reflexivity|]; right; right;
       exists gasPrice; split; [reflexivity | apply Happ]).
  - eexists _, _. split; [reflexivity|]. right. right.
    exists gasPrice. split; [reflexivity | apply Happ].
Qed.

(** ** The choice of [executeStrategy] *)

Lemma ltb_irrefl a : (a <? a)%float = false.
Proof.
  rewrite FloatAxioms.ltb_spec. unfold SFltb.
  pose proof (SFcompare_antisym (Prim2SF a) (Prim2SF a)) as H.
  destruct (SFcompare (Prim2SF a) (Prim2SF a)) as [[]|]; try reflexivity.
  discriminate H.
Qed.

Lemma ltb_trans a b c :
  (a <? b)%float = true -> (b <? c)%float = true -> (a <? c)%float = true.
Proof.
  rewrite !FloatAxioms.ltb_spec. unfold SFltb. intros Hab Hbc.
  assert (Hle : SFleb (Prim2SF a) (Prim2SF c) = true).
  { apply (SFleb_trans _ (Prim2SF b)); unfold SFleb.
    - destruct (SFcompare (Prim2SF a) (Prim2SF b)) as [[]|]; congruence.
    - destruct (SFcompare (Prim2SF b) (Prim2SF c)) as [[]|]; congruence. }
  unfold SFleb in Hle.
  destruct (SFcompare (Prim2SF a) (Prim2SF c)) as [[]|] eqn:Hac; try discriminate;
    [|reflexivity].
  exfalso.
  assert (Hca : SFleb (Prim2SF c) (Prim2SF a) = true)
    by (unfold SFleb; rewrite (SFcompare_antisym (Prim2SF a) (Prim2SF c)), Hac; reflexivity).
  assert (Hab' : SFleb (Prim2SF a) (Prim2SF b) = true)
    by (unfold SFleb; destruct (SFcompare (Prim2SF a) (Prim2SF b)) as [[]|]; congruence).
  pose proof (SFleb_trans _ _ _ Hca Hab') as Hcb. unfold SFleb in Hcb.
  rewrite (SFcompare_antisym (Prim2SF b) (Prim2SF c)) in Hcb.
  destruct (SFcompare (Prim2SF b) (Prim2SF c)) as [[]|]; discriminate.
Qed.

(** [best] is at least as good as anything [acc] was as good as, it is not
    beaten by a profitable estimate of [E], and it is [acc] or a
    profitable estimate of [E]. *)
Definition improves (E : LiquidationProfitCalculation.t -> Prop)
    (acc best : option LiquidationProfitCalculation.t) : Prop :=
  (forall r, E r -> LiquidationProfitCalculation.profitable r = true ->
     exists b, best = Some b
       /\ (LiquidationProfitCalculation.executionPriority b
           <? LiquidationProfitCalculation.executionPriority r)%float = false)
  /\ (forall a, acc = Some a ->
        exists b, best = Some b
          /\ forall x, (LiquidationProfitCalculation.executionPriority a <? x)%float = false ->
                       (LiquidationProfitCalculation.executionPriority b <? x)%float = false)
  /\ (best = acc
      \/ exists b, best = Some b /\ E b /\ LiquidationProfitCalculation.profitable b = true).

Lemma improves_nothing acc : improves (fun _ => False) acc acc.
Proof.
  repeat split.
  - intros r [].
  - intros a ->. exists a. auto.
  - left. reflexivity.
Qed.

Lemma improves_weaken (E E' : LiquidationProfitCalculation.t -> Prop) acc best :
  (forall r, E r <-> E' r) -> improves E acc best -> improves E' acc best.
Proof.
  intros HE (H1 & H2 & H3). repeat split.
  - intros r Hr. apply H1, HE, Hr.
  - exact H2.
  - destruct H3 as [H3|(b & Hb & HEb & Hp)]; [left; exact H3|].
    right. exists b. repeat split; try assumption. apply HE, HEb.
Qed.

Lemma improves_then (E1 E2 : LiquidationProfitCalculation.t -> Prop) acc mid best :
  improves E1 acc mid -> improves E2 mid best ->
  improves (fun r => E1 r \/ E2 r) acc best.
Proof.
  intros (A1 & A2 & A3) (B1 & B2 & B3). repeat split.
  - intros r [Hr|Hr] Hp.
    + destruct (A1 r Hr Hp) as (m & Hm & Hmr).
      destruct (B2 m Hm) as (b & Hb & Hbm). exists b. split; [exact Hb|].
      apply Hbm, Hmr.
    + apply B1; assumption.
  - intros a Ha.
    destruct (A2 a Ha) as (m & Hm & Ham).
    destruct (B2 m Hm) as (b & Hb & Hbm). exists b. split; [exact Hb|].
    intros x Hx. apply Hbm, Ham, Hx.
  - destruct B3 as [->|(b & Hb & HE & Hp)].
    + destruct A3 as [->|(b & Hb & HE & Hp)]; [left; reflexivity|].
      right. exists b. auto.
    + right. exists b. auto.
Qed.

Lemma improves_better acc r :
  improves (fun x => x = r) acc (StrategyManager.better acc r).
Proof.
  unfold StrategyManager.better.
  destruct (LiquidationProfitCalculation.profitable r) eqn:Hp.
  - destruct acc as [a|].
    + destruct (LiquidationProfitCalculation.executionPriority a
                <? LiquidationProfitCalculation.executionPriority r)%float eqn:Hlt.
      * repeat split.
        -- intros x -> _. exists r. split; [reflexivity | apply ltb_irrefl].
        -- intros a' Ha. injection Ha as <-. exists r. split; [reflexivity|].
           intros x Hx.
           destruct (LiquidationProfitCalculation.executionPriority r <? x)%float eqn:Hrx;
             [|reflexivity].
           rewrite (ltb_trans _ _ _ Hlt Hrx) in Hx. discriminate Hx.
        -- right. exists r. auto.
      * repeat split.
        -- intros x -> _. exists a. auto.
        -- intros a' Ha. injection Ha as <-. exists a. auto.
        -- left. reflexivity.
    + repeat split.
      * intros x -> _. exists r. split; [reflexivity | apply ltb_irrefl].
      * intros a Ha. discriminate Ha.
      * right. exists r. auto.
  - repeat split.
    + intros x -> Hx. congruence.
    + intros a ->. exists a. auto.
    + left. reflexivity.
Qed.

(** A loop whose every step improves on the accumulator improves on it as
    a whole; and when it returns, every step has returned. *)
Lemma for_fold_improves {A} (xs : list A)
    (body : option LiquidationProfitCalculation.t -> A
            -> M (option LiquidationProfitCalculation.t))
    (ok : A -> Prop) (E : A -> LiquidationProfitCalculation.t -> Prop) :
  (forall acc x s acc' s',
     body acc x s = (Ok acc', s') -> ok x /\ improves (E x) acc acc') ->
  forall acc s best s',
    for_fold xs acc body s = (Ok best, s') ->
    (forall x, In x xs -> ok x)
    /\ improves (fun r => exists x, In x xs /\ E x r) acc best.
Proof.
  intros Hbody. induction xs as [|x xs IH]; intros acc s best s' H; simpl in H.
  - apply ret_Ok in H. destruct H as [-> _]. split; [intros x []|].
    eapply improves_weaken; [|apply improves_nothing].
    intros r. split; [intros [] | intros (x & [] & _)].
  - apply bind_Ok in H. destruct H as (mid & s1 & Hx & Hrest).
    apply Hbody in Hx. destruct Hx as [Hok Himp].
    apply IH in Hrest. destruct Hrest as [Hoks Himps].
    split.
    + intros y [<-|Hy]; [exact Hok | apply Hoks, Hy].
    + eapply improves_weaken; [|exact (improves_then _ _ _ _ _ Himp Himps)].
      intros r. split.
      * intros [Hr|(y & Hy & Hr)]; [exists x; split; [left; reflexivity | exact Hr]|].
        exists y. split; [right; exact Hy | exact Hr].
      * intros (y & [<-|Hy] & Hr); [left; exact Hr|]. right. exists y. auto.
Qed.

Lemma findBest_improves cfg w positions s0 s best s' :
  StrategyManager.findBest cfg w positions s = (Ok best, s') ->
  let estimate p d c := fst (Liquidator.calculateLiquidationProfit cfg w p d c s0) in
  (forall p d c,
     In p positions -> In d (LiquidationTarget.debtAssets p) ->
     In c (LiquidationTarget.collateralAssets p) ->
     exists r, estimate p d c = Ok r)
  /\ improves
       (fun r => exists p d c,
          In p positions /\ In d (LiquidationTarget.debtAssets p)
          /\ In c (LiquidationTarget.collateralAssets p) /\ estimate p d c = Ok r)
       None best.
Proof.
  intros H estimate. unfold StrategyManager.findBest in H.
  apply (for_fold_improves positions _
           (fun p => forall d c, In d (LiquidationTarget.debtAssets p) ->
                                 In c (LiquidationTarget.collateralAssets p) ->
                                 exists r, estimate p d c = Ok r)
           (fun p r => exists d c, In d (LiquidationTarget.debtAssets p)
                                   /\ In c (LiquidationTarget.collateralAssets p)
                                   /\ estimate p d c = Ok r)) in H.
  - destruct H as [Hok Himp]. split.
    + intros p d c Hp. apply Hok, Hp.
    + eapply improves_weaken; [|exact Himp].
      intros r. split.
      * intros (p & Hp & d & c & Hd & Hc & Hr). exists p, d, c. auto.
      * intros (p & d & c & Hp & Hd & Hc & Hr). exists p. split; [exact Hp|].
        exists d, c. auto.
  - clear. intros acc p s acc' s' H.
    apply (for_fold_improves (LiquidationTarget.debtAssets p) _
             (fun d => forall c, In c (LiquidationTarget.collateralAssets p) ->
                                 exists r, estimate p d c = Ok r)
             (fun d r => exists c, In c (LiquidationTarget.collateralAssets p)
                                   /\ estimate p d c = Ok r)) in H.
    + destruct H as [Hok Himp]. split.
      * intros d c Hd. apply Hok, Hd.
      * eapply improves_weaken; [|exact Himp].
        intros r. split.
        -- intros (d & Hd & c & Hc & Hr). exists d, c. auto.
        -- intros (d & c & Hd & Hc & Hr). exists d. split; [exact Hd|]. exists c. auto.
    + clear. intros acc d s acc' s' H.
      apply (for_fold_improves (LiquidationTarget.collateralAssets p) _
               (fun c => exists r, estimate p d c = Ok r)
               (fun c r => estimate p d c = Ok r)) in H; [exact H|].
      clear. intros acc c s acc' s' H.
      apply bind_Ok in H. destruct H as (r & s1 & Hr & Hret).
      apply ret_Ok in Hret. destruct Hret as [-> _].
      assert (Hest : estimate p d c = Ok r).
      { unfold estimate.
        rewrite (state_blind_calculateLiquidationProfit cfg w p d c s0 s), Hr.
        reflexivity. }
      split; [exists r; exact Hest|].
      eapply improves_weaken; [|apply improves_better].
      intros x. split; [intros ->; exact Hest | congruence].
Qed.

(** X9: when the search of [executeStrategy] returns, every pair of
    every position has an estimate, and these do not depend on the state.
    The opportunity it returns is one of them, is profitable, and no
    profitable estimate has a strictly higher priority; it returns none
    exactly when no estimate is profitable.  The search writes the price
    cache only. *)
Theorem findBest_returns_top_priority cfg w positions s best s' :
  StrategyManager.findBest cfg w positions s = (Ok best, s') ->
  let estimate p d c := fst (Liquidator.calculateLiquidationProfit cfg w p d c s) in
  let candidate r :=
    exists p d c,
      In p positions /\ In d (LiquidationTarget.debtAssets p)
      /\ In c (LiquidationTarget.collateralAssets p) /\ estimate p d c = Ok r in
  (forall p d c s0,
     In p positions -> In d (LiquidationTarget.debtAssets p) ->
     In c (LiquidationTarget.collateralAssets p) ->
     exists r, fst (Liquidator.calculateLiquidationProfit cfg w p d c s0) = Ok r
               /\ estimate p d c = Ok r)
  /\ match best with
     | Some b =>
         candidate b
         /\ LiquidationProfitCalculation.profitable b = true
         /\ forall r, candidate r -> LiquidationProfitCalculation.profitable r = true ->
              (LiquidationProfitCalculation.executionPriority b
               <? LiquidationProfitCalculation.executionPriority r)%float = false
     | None =>
         forall r, candidate r -> LiquidationProfitCalculation.profitable r = false
     end
  /\ cache_only s s'.
Proof.
  intros H estimate candidate.
  pose proof (writes_cache_only_findBest cfg w positions s) as Hcache.
  rewrite H in Hcache. simpl in Hcache.
  destruct (findBest_improves cfg w positions s s best s' H) as (Hall & Hdom & _ & Horigin).
  split; [|split; [|exact Hcache]].
  - intros p d c s0 Hp Hd Hc. destruct (Hall p d c Hp Hd Hc) as (r & Hr).
    exists r. split; [|exact Hr].
    rewrite (state_blind_calculateLiquidationProfit cfg w p d c s0 s). exact Hr.
  - destruct best as [b|].
    + destruct Horigin as [Hnone|(b' & Hb' & Hcand & Hp)]; [discriminate Hnone|].
      injection Hb' as <-. split; [exact Hcand|]. split; [exact Hp|].
      intros r Hr Hpr. destruct (Hdom r Hr Hpr) as (b' & Hb' & Hlt).
      injection Hb' as <-. exact Hlt.
    + intros r Hr.
      destruct (LiquidationProfitCalculation.profitable r) eqn:Hp; [|reflexivity].
      destruct (Hdom r Hr Hp) as (b & Hb & _). discriminate Hb.
Qed.

Lemma findBest_returns_top_priority_witness :
  exists b s',
    StrategyManager.findBest Scenario.cfg (Scenario.world_20gwei 1)
      [Scenario.position None] (Scenario.idle 0) = (Ok (Some b), s')
    /\ LiquidationProfitCalculation.profitable b = true.
Proof.
  assert (Hf : match fst (StrategyManager.findBest Scenario.cfg (Scenario.world_20gwei 1)
                            [Scenario.position None] (Scenario.idle 0)) with
               | Ok (Some _) => true
               | _ => false
               end = true) by (vm_compute; reflexivity).
  destruct (StrategyManager.findBest Scenario.cfg (Scenario.world_20gwei 1)
              [Scenario.position None] (Scenario.idle 0)) as [[[b|]|msg] s'] eqn:E;
    try discriminate Hf.
  exists b, s'. split; [reflexivity|].
  destruct (findBest_returns_top_priority _ _ _ _ _ _ E) as (_ & (_ & Hp & _) & _).
  exact Hp.
Defined.

(** ** What one call of a strategy does to the state *)

(** [executeLiquidation] leaves the state as it was or adds one flash
    loan to the submitted ones. *)
Lemma executeLiquidation_footprint cfg w calculation s :
  exists r s',
    Liquidator.executeLiquidation cfg w calculation s = (Ok r, s')
    /\ (s' = s \/ exists call, s' = push_sent call s).
Proof.
  unfold Liquidator.executeLiquidation, try_catch, Liquidator.executeLiquidation_try.
  unfold bind at 1. unfold lift at 1.
  destruct (Liquidator.encodeParams w _ _ _ _) as [params|msg];
    [|eexists _, _; split; [reflexivity | left; reflexivity]].
  unfold bind at 1. unfold lift at 1.
  destruct (getGasPrice w) as [gasPrice|msg];
    [|eexists _, _; split; [reflexivity | left; reflexivity]].
  unfold bind at 1. unfold lift at 1.
  destruct (Config.maxGasPriceGwei cfg) as [maxGasPrice|msg];
    [|eexists _, _; split; [reflexivity | left; reflexivity]].
  destruct (gasPrice >? _);
    [eexists _, _; split; [reflexivity | left; reflexivity]|].
  cbv zeta. unfold bind at 1. unfold lift at 1.
  destruct (flashLoan w _) as [tx|msg];
    [|eexists _, _; split; [reflexivity | left; reflexivity]].
  unfold bind at 1. unfold modify at 1.
  unfold bind at 1. unfold lift at 1.
  destruct (tx_wait w tx) as [receipt|msg].
  - destruct (Receipt.status receipt =? 1);
      (eexists _, _; split; [reflexivity | right; eexists; reflexivity]).
  - eexists _, _. split; [reflexivity | right; eexists; reflexivity].
Qed.

(** X10: one call of [executeStrategy] never throws and executes at most
    once.  Either it leaves the timestamp, the history and the submitted
    transactions as they were, or the cooldown had elapsed, the search
    returned a profitable opportunity, and then exactly one result is
    appended to the history, the timestamp becomes the current time
    (whether or not the execution succeeded) and at most one flash loan is
    submitted. *)
Theorem executeStrategy_executes_at_most_once cfg w s :
  exists s',
    StrategyManager.executeStrategy cfg w s = (Ok tt, s')
    /\ (cache_only s s'
        \/ exists best result,
             StrategyManager.executionCooldown <= Date_now w - lastExecutionTime s
             /\ fst (StrategyManager.findBest cfg w (getLiquidatablePositions w) s)
                = Ok (Some best)
             /\ LiquidationProfitCalculation.profitable best = true
             /\ lastExecutionTime s' = Date_now w
             /\ executionHistory s' = (executionHistory s ++ [result])%list
             /\ (sent s' = sent s \/ exists call, sent s' = (sent s ++ [call])%list)).
Proof.
  unfold StrategyManager.executeStrategy, try_catch.
  unfold bind at 1. unfold StrategyManager.get_lastExecutionTime.
  destruct (Date_now w - lastExecutionTime s <? StrategyManager.executionCooldown) eqn:Hcool;
    [exists s; split; [reflexivity | left; apply cache_only_refl]|].
  apply Z.ltb_ge in Hcool.
  destruct (length (getLiquidatablePositions w) =? 0)%nat;
    [exists s; split; [reflexivity | left; apply cache_only_refl]|].
  unfold bind at 1.
  pose proof (writes_cache_only_findBest cfg w (getLiquidatablePositions w) s) as Hcache.
  destruct (StrategyManager.findBest cfg w (getLiquidatablePositions w) s)
    as [[[best|]|msg] s1] eqn:Hbest; simpl in Hcache.
  - destruct (executeLiquidation_footprint cfg w best s1) as (result & s2 & Hexec & Hsent).
    unfold bind at 1. rewrite Hexec. unfold bind, modify.
    eexists. split; [reflexivity|]. right. exists best, result.
    destruct (findBest_improves cfg w _ s s _ _ Hbest) as (_ & _ & _ & Horigin).
    destruct Horigin as [Hnone|(b & Hb & _ & Hp)]; [discriminate Hnone|].
    injection Hb as <-.
    destruct Hcache as (Htimer & Hhistory & Hsent1).
    repeat split; try assumption.
    + destruct Hsent as [->|(call & ->)]; simpl; rewrite Hhistory; reflexivity.
    + destruct Hsent as [->|(call & ->)]; simpl; rewrite Hsent1;
        [left; reflexivity | right; exists call; reflexivity].
  - exists s1. split; [reflexivity | left; exact Hcache].
  - exists s1. split; [reflexivity | left; exact Hcache].
Qed.

(** The history grows by [rs], the submitted transactions by at most as
    many, and the timestamp becomes [now] if the history grew at all. *)
Definition trail (now : Z) (s s' : State) (rs : list ExecutionResult.t) : Prop :=
  executionHistory s' = (executionHistory s ++ rs)%list
  /\ (exists calls, sent s' = (sent s ++ calls)%list /\ (length calls <= length rs)%nat)
  /\ lastExecutionTime s' = match rs with [] => lastExecutionTime s | _ => now end.

Lemma trail_quiet now s s' : cache_only s s' -> trail now s s' [].
Proof.
  intros (Ht & Hh & Hs). repeat split.
  - rewrite Hh, app_nil_r. reflexivity.
  - exists []. rewrite Hs, app_nil_r. split; [reflexivity | simpl; lia].
  - exact Ht.
Qed.

Lemma trail_then now s1 s2 s3 rs1 rs2 :
  trail now s1 s2 rs1 -> trail now s2 s3 rs2 -> trail now s1 s3 (rs1 ++ rs2).
Proof.
  intros (Hh1 & (c1 & Hs1 & Hl1) & Ht1) (Hh2 & (c2 & Hs2 & Hl2) & Ht2).
  repeat split.
  - rewrite Hh2, Hh1, app_assoc. reflexivity.
  - exists (c1 ++ c2)%list. split.
    + rewrite Hs2, Hs1, app_assoc. reflexivity.
    + rewrite !length_app. lia.
  - rewrite Ht2. destruct rs2 as [|r2 rs2].
    + rewrite app_nil_r. exact Ht1.
    + destruct rs1; reflexivity.
Qed.

Definition failed (r : ExecutionResult.t) : Prop := ExecutionResult.success r = false.

(** A loop body of the immediate strategies: the results it records are
    failures, except that it answers [true] exactly after a success, which
    is then the last one recorded. *)
Definition attempts (now : Z) (c : M bool) : Prop :=
  forall s, exists rs,
    trail now s (snd (c s)) rs
    /\ match fst (c s) with
       | Ok true => exists init last,
                      rs = (init ++ [last])%list /\ Forall failed init
                      /\ ExecutionResult.success last = true
       | _ => Forall failed rs
       end.

Lemma attempts_ret_false now : attempts now (ret false).
Proof.
  intros s. exists []. split; [apply trail_quiet, cache_only_refl | constructor].
Qed.

Lemma attempts_quiet_bind {A} now (c : M A) (k : A -> M bool) :
  writes_cache_only c -> (forall a, attempts now (k a)) -> attempts now (bind c k).
Proof.
  intros Hc Hk s. unfold bind. specialize (Hc s).
  destruct (c s) as [[a|msg] s1]; simpl in Hc.
  - destruct (Hk a s1) as (rs & Htrail & Hrs). exists rs. split; [|exact Hrs].
    apply (trail_then now s s1 _ [] rs); [apply trail_quiet, Hc | exact Htrail].
  - exists []. split; [apply trail_quiet, Hc | constructor].
Qed.

Lemma attempts_for_of {A} now (xs : list A) (body : A -> M bool) :
  (forall x, attempts now (body x)) -> attempts now (for_of xs body).
Proof.
  intros Hbody. induction xs as [|x xs IH]; simpl.
  - apply attempts_ret_false.
  - intros s. unfold bind. destruct (Hbody x s) as (rs1 & Htrail1 & Hrs1).
    destruct (body x s) as [[[|]|msg] s1]; simpl in *.
    + exists rs1. split; [|exact Hrs1].
      rewrite <- (app_nil_r rs1).
      eapply trail_then; [exact Htrail1 | apply trail_quiet, cache_only_refl].
    + destruct (IH s1) as (rs2 & Htrail2 & Hrs2). exists (rs1 ++ rs2)%list.
      split; [eapply trail_then; eassumption|].
      destruct (fst (for_of xs body s1)) as [[|]|msg].
      * destruct Hrs2 as (init & last & -> & Hinit & Hlast).
        exists (rs1 ++ init)%list, last. rewrite app_assoc.
        split; [reflexivity|]. split; [|exact Hlast].
        apply Forall_app. split; assumption.
      * apply Forall_app. split; assumption.
      * apply Forall_app. split; assumption.
    + exists rs1. split; assumption.
Qed.

Lemma attempts_executeIfVeryProfitable cfg w multiplier margin calculation :
  attempts (Date_now w)
    (StrategyManager.executeIfVeryProfitable cfg w multiplier margin calculation).
Proof.
  unfold StrategyManager.executeIfVeryProfitable.
  destruct (LiquidationProfitCalculation.profitable calculation);
    [|apply attempts_ret_false].
  cbv zeta.
  destruct (_ <? _)%float; [|apply attempts_ret_false].
  intros s.
  destruct (executeLiquidation_footprint cfg w
              (LiquidationProfitCalculation.boost multiplier calculation) s)
    as (r & s1 & Hexec & Hsent).
  unfold bind, modify, ret. rewrite Hexec. simpl.
  exists [r]. split.
  - split; [|split].
    + destruct Hsent as [->|(call & ->)]; reflexivity.
    + destruct Hsent as [->|(call & ->)]; simpl.
      * exists []. rewrite app_nil_r. split; [reflexivity | simpl; lia].
      * exists [call]. split; [reflexivity | simpl; lia].
    + reflexivity.
  - destruct (ExecutionResult.success r) eqn:Hr.
    + exists [], r. repeat split; [constructor | exact Hr].
    + repeat constructor. exact Hr.
Qed.

Lemma writes_cache_only_hasPriceDiscrepancy cfg a :
  writes_cache_only (StrategyManager.hasPriceDiscrepancy cfg a).
Proof. intros s. apply cache_only_refl. Qed.

Ltac attempts_steps :=
  repeat first
    [ apply attempts_ret_false
    | apply attempts_executeIfVeryProfitable
    | apply attempts_for_of; intros ?
    | apply attempts_quiet_bind;
      [ first [ apply writes_cache_only_getPriceData
              | apply writes_cache_only_hasPriceDiscrepancy
              | apply writes_cache_only_calculateLiquidationProfit ]
      | intros ? ]
    | match goal with
      | |- attempts _ (if ?b then _ else _) => destruct b
      end ].

(** What a strategy that wraps such a loop leaves behind. *)
Lemma attempts_strategy now (loop : M bool) s :
  attempts now loop ->
  exists s' rs,
    try_catch (bind loop (fun _ => ret tt)) (fun _ => ret tt) s = (Ok tt, s')
    /\ trail now s s' rs
    /\ Forall failed (removelast rs).
Proof.
  intros Hloop. destruct (Hloop s) as (rs & Htrail & Hrs).
  unfold try_catch, bind, ret.
  destruct (loop s) as [[stop|msg] s1]; simpl in *.
  - exists s1, rs. split; [reflexivity|]. split; [exact Htrail|].
    destruct stop.
    + destruct Hrs as (init & last & -> & Hinit & _).
      rewrite removelast_last. exact Hinit.
    + clear Htrail. induction Hrs as [|r rs Hr Hrs' IH]; [constructor|].
      simpl. destruct rs; [constructor|]. constructor; assumption.
  - exists s1, rs. split; [reflexivity|]. split; [exact Htrail|].
    clear Htrail. induction Hrs as [|r rs Hr Hrs' IH]; [constructor|].
    simpl. destruct rs; [constructor|]. constructor; assumption.
Qed.

(** X11: [oracleDelayStrategy] and [eModeStrategy] never throw, and one
    call of either may execute several times: every execution appends its
    result to the history, and every result but the last one appended is a
    failure, since the strategy returns at its first success.  At most one
    transaction is submitted per result, and the timestamp becomes the
    current time if anything was executed and is left alone otherwise. *)
Theorem immediate_strategies_stop_at_first_success cfg w s :
  (exists s' rs,
     StrategyManager.oracleDelayStrategy cfg w s = (Ok tt, s')
     /\ trail (Date_now w) s s' rs
     /\ Forall failed (removelast rs))
  /\ (exists s' rs,
        StrategyManager.eModeStrategy cfg w s = (Ok tt, s')
        /\ trail (Date_now w) s s' rs
        /\ Forall failed (removelast rs)).
Proof.
  split.
  - unfold StrategyManager.oracleDelayStrategy. cbv zeta.
    apply attempts_strategy. attempts_steps.
  - unfold StrategyManager.eModeStrategy. cbv zeta.
    apply attempts_strategy. attempts_steps.
Qed.

(** ** Assets without an external price source *)

Lemma getPriceData_unmapped cfg w assetAddress s pd s' :
  PriceMonitor.tokenIdMap (toLowerCase assetAddress) = None ->
  PriceMonitor.getPriceData w assetAddress s = (Ok pd, s') ->
  PriceMonitor.hasPriceDiscrepancy cfg s' assetAddress = false.
Proof.
  intros Hmap Hrun.
  unfold PriceMonitor.getPriceData, bind, lift, modify, ret in Hrun.
  destruct (getAssetPrice w assetAddress) as [price|msg]; [|discriminate].
  injection Hrun as <- <-.
  unfold PriceMonitor.getExternalPrice. rewrite Hmap.
  unfold PriceMonitor.hasPriceDiscrepancy. cbn.
  rewrite lookup_insert_eq. reflexivity.
Qed.

(** A loop body that executes nothing and does not leave the strategy. *)
Definition passes (c : M bool) : Prop :=
  forall s, cache_only s (snd (c s)) /\ fst (c s) <> Ok true.

Lemma passes_for_of {A} (xs : list A) (body : A -> M bool) :
  (forall x, In x xs -> passes (body x)) -> passes (for_of xs body).
Proof.
  induction xs as [|x xs IH]; intros Hbody s; simpl.
  - split; [apply cache_only_refl | discriminate].
  - unfold bind. destruct (Hbody x (or_introl eq_refl) s) as [Hcache Hstop].
    destruct (body x s) as [[[|]|msg] s1]; simpl in *.
    + congruence.
    + destruct (IH (fun y Hy => Hbody y (or_intror Hy)) s1) as [Hcache' Hstop'].
      split; [eapply cache_only_trans; eassumption | exact Hstop'].
    + split; [exact Hcache | discriminate].
Qed.

(** X12: [oracleDelayStrategy] executes nothing when no debt asset of
    the liquidatable positions has an external price source: it returns
    with the timestamp, the history and the submitted transactions as they
    were, whatever the collateral assets and the estimates are. *)
Theorem oracleDelayStrategy_needs_external_debt_price cfg w s :
  (forall position debtAsset,
     In position (getLiquidatablePositions w) ->
     In debtAsset (LiquidationTarget.debtAssets position) ->
     PriceMonitor.tokenIdMap (toLowerCase (Asset.address debtAsset)) = None) ->
  exists s',
    StrategyManager.oracleDelayStrategy cfg w s = (Ok tt, s') /\ cache_only s s'.
Proof.
  intros Hunmapped.
  unfold StrategyManager.oracleDelayStrategy. cbv zeta.
  unfold try_catch. unfold bind at 1.
  match goal with
  | |- context [for_of (getLiquidatablePositions w) ?body s] =>
      assert (Hloop : passes (for_of (getLiquidatablePositions w) body))
  end.
  { apply passes_for_of. intros position Hp.
    apply passes_for_of. intros debtAsset Hd s0.
    specialize (Hunmapped position debtAsset Hp Hd).
    pose proof (writes_cache_only_getPriceData w (Asset.address debtAsset) s0) as Hcache.
    unfold bind, StrategyManager.hasPriceDiscrepancy.
    destruct (PriceMonitor.getPriceData w (Asset.address debtAsset) s0)
      as [[pd|msg] s1] eqn:Hrun; simpl in Hcache.
    - rewrite (getPriceData_unmapped cfg w _ _ _ _ Hunmapped Hrun). simpl.
      split; [exact Hcache | discriminate].
    - simpl. split; [exact Hcache | discriminate]. }
  destruct (Hloop s) as [Hcache _].
  match type of Hcache with
  | cache_only _ (snd (?c s)) => destruct (c s) as [[stop|msg] s1]
  end; simpl in Hcache; exists s1; split; try reflexivity; exact Hcache.
Qed.

Lemma oracleDelayStrategy_needs_external_debt_price_witness :
  exists s',
    StrategyManager.oracleDelayStrategy Scenario.cfg Cases.world_unmapped_debt
      (Scenario.idle 0) = (Ok tt, s')
    /\ cache_only (Scenario.idle 0) s'.
Proof.
  apply oracleDelayStrategy_needs_external_debt_price.
  intros position debtAsset [<-|[]] [<-|[]]. reflexivity.
Defined.

(** ** The strategy scanners *)

Lemma writes_cache_only_try_catch {A} (c : M A) (h : string -> M A) :
  writes_cache_only c -> (forall msg, writes_cache_only (h msg)) ->
  writes_cache_only (try_catch c h).
Proof.
  intros Hc Hh s. unfold try_catch. specialize (Hc s).
  destruct (c s) as [[a|msg] s1]; simpl in *; [exact Hc|].
  eapply cache_only_trans; [exact Hc | apply Hh].
Qed.

(** A loop that only appends elements with a property keeps the property
    of all the elements. *)
Lemma for_fold_grows {A B} (Q : B -> Prop) (xs : list A) (body : list B -> A -> M (list B)) :
  (forall x, In x xs -> forall acc s acc' s',
     body acc x s = (Ok acc', s') -> Forall Q acc -> Forall Q acc') ->
  forall acc s r s',
    for_fold xs acc body s = (Ok r, s') -> Forall Q acc -> Forall Q r.
Proof.
  induction xs as [|x xs IH]; intros Hbody acc s r s' H Hacc; simpl in H.
  - apply ret_Ok in H. destruct H as [-> _]. exact Hacc.
  - apply bind_Ok in H. destruct H as (mid & s1 & Hx & Hrest).
    apply (IH (fun y Hy => Hbody y (or_intror Hy)) mid s1 r s' Hrest).
    apply (Hbody x (or_introl eq_refl) acc s mid s1 Hx Hacc).
Qed.

Lemma rank_Permutation l : Permutation (rank l) l.
Proof. unfold rank. apply sort_Permutation. Qed.

Lemma rank_sorted l :
  Forall (fun c => PrimFloat.is_nan (LiquidationProfitCalculation.executionPriority c) = false)
    (rank l) ->
  StronglySorted
    (fun a b => (LiquidationProfitCalculation.executionPriority b
                 <=? LiquidationProfitCalculation.executionPriority a)%float = true)
    (rank l).
Proof.
  intros H. unfold rank. apply sort_sorted.
  apply (Permutation_Forall (rank_Permutation l)). exact H.
Qed.

Lemma writes_cache_only_eMode_scan cfg w isEnabled :
  writes_cache_only (EModeStrategy.scan cfg w isEnabled).
Proof.
  unfold EModeStrategy.scan, EModeStrategy.scan_position.
  destruct isEnabled; simpl; [|apply writes_cache_only_ret].
  apply writes_cache_only_try_catch; [|intros ?; apply writes_cache_only_ret].
  repeat first
    [ apply writes_cache_only_for_fold; intros ? ?
    | apply writes_cache_only_calculateLiquidationProfit
    | match goal with
      | |- writes_cache_only (if ?b then _ else _) => destruct b
      | |- writes_cache_only (match ?x with Some _ => _ | None => _ end) => destruct x
      end
    | cache_only_steps ].
Qed.

Lemma writes_cache_only_oracleDelay_scan cfg w isEnabled minPriceDiscrepancyPercent :
  writes_cache_only (OracleDelayStrategy.scan cfg w isEnabled minPriceDiscrepancyPercent).
Proof.
  unfold OracleDelayStrategy.scan, OracleDelayStrategy.scan_position.
  destruct isEnabled; simpl; [|apply writes_cache_only_ret].
  apply writes_cache_only_try_catch; [|intros ?; apply writes_cache_only_ret].
  repeat first
    [ apply writes_cache_only_for_fold; intros ? ?
    | apply writes_cache_only_calculateLiquidationProfit
    | match goal with
      | |- writes_cache_only (if ?b then _ else _) => destruct b
      | |- writes_cache_only (match ?x with Some _ => _ | None => _ end) => destruct x
      end
    | cache_only_steps ].
Qed.

(** Both scanners have a result on every input. *)
Lemma eMode_scan_total cfg w isEnabled s :
  exists opportunities s',
    EModeStrategy.scan cfg w isEnabled s = (Ok opportunities, s').
Proof.
  unfold EModeStrategy.scan. destruct isEnabled; simpl; [|eexists _, _; reflexivity].
  unfold try_catch.
  match goal with |- context [bind ?c ?k s] => destruct (bind c k s) as [[ops|msg] s1] end;
    eexists _, _; reflexivity.
Qed.

Lemma oracleDelay_scan_total cfg w isEnabled minPriceDiscrepancyPercent s :
  exists opportunities s',
    OracleDelayStrategy.scan cfg w isEnabled minPriceDiscrepancyPercent s
    = (Ok opportunities, s').
Proof.
  unfold OracleDelayStrategy.scan. destruct isEnabled; simpl; [|eexists _, _; reflexivity].
  unfold try_catch.
  match goal with |- context [bind ?c ?k s] => destruct (bind c k s) as [[ops|msg] s1] end;
    eexists _, _; reflexivity.
Qed.

Lemma boost_fields k r :
  LiquidationProfitCalculation.target (LiquidationProfitCalculation.boost k r)
  = LiquidationProfitCalculation.target r
  /\ LiquidationProfitCalculation.debtAsset (LiquidationProfitCalculation.boost k r)
     = LiquidationProfitCalculation.debtAsset r
  /\ LiquidationProfitCalculation.collateralAsset (LiquidationProfitCalculation.boost k r)
     = LiquidationProfitCalculation.collateralAsset r
  /\ LiquidationProfitCalculation.profitable (LiquidationProfitCalculation.boost k r)
     = LiquidationProfitCalculation.profitable r.
Proof. repeat split. Qed.

(** An entry of the E-mode scan: a profitable estimate of a pair of one
    of the positions, with the priority scaled. *)
Definition eMode_entry (cfg : Config.t) (w : World) (positions : list LiquidationTarget.t)
    (s : State) (o : LiquidationProfitCalculation.t) : Prop :=
  In (LiquidationProfitCalculation.target o) positions
  /\ In (LiquidationProfitCalculation.debtAsset o)
        (LiquidationTarget.debtAssets (LiquidationProfitCalculation.target o))
  /\ In (LiquidationProfitCalculation.collateralAsset o)
        (LiquidationTarget.collateralAssets (LiquidationProfitCalculation.target o))
  /\ LiquidationProfitCalculation.profitable o = true
  /\ exists r,
       fst (Liquidator.calculateLiquidationProfit cfg w
              (LiquidationProfitCalculation.target o)
              (LiquidationProfitCalculation.debtAsset o)
              (LiquidationProfitCalculation.collateralAsset o) s) = Ok r
       /\ o = LiquidationProfitCalculation.boost EModeStrategy.priorityMultiplier r.

Lemma eMode_scan_position_entries cfg w positions s0 position :
  In position positions ->
  forall acc s acc' s',
    EModeStrategy.scan_position cfg w position acc s = (Ok acc', s') ->
    Forall (eMode_entry cfg w positions s0) acc ->
    Forall (eMode_entry cfg w positions s0) acc'.
Proof.
  intros Hp. unfold EModeStrategy.scan_position.
  apply for_fold_grows. intros debtAsset Hd acc s acc' s' H.
  apply bind_Ok in H. destruct H as (pd & s1 & _ & H). revert H.
  apply for_fold_grows. clear acc s acc' s' pd s1.
  intros collateralAsset Hc acc s acc' s' H Hacc.
  apply bind_Ok in H. destruct H as (pd & s1 & _ & H).
  apply bind_Ok in H. destruct H as (r & s2 & Hr & H).
  destruct (calculateLiquidationProfit_echo _ _ _ _ _ _ _ _ Hr) as (Ht & Hda & Hca & _).
  destruct (LiquidationProfitCalculation.profitable r) eqn:Hprofit;
    apply ret_Ok in H; destruct H as [-> _]; [|exact Hacc].
  apply Forall_app. split; [exact Hacc|]. constructor; [|constructor].
  unfold eMode_entry. cbn [LiquidationProfitCalculation.boost
    LiquidationProfitCalculation.target LiquidationProfitCalculation.debtAsset
    LiquidationProfitCalculation.collateralAsset LiquidationProfitCalculation.profitable].
  rewrite Ht, Hda, Hca. repeat split; try assumption.
  exists r. split; [|reflexivity].
  rewrite (state_blind_calculateLiquidationProfit cfg w position debtAsset collateralAsset
             s0 s1), Hr. reflexivity.
Qed.

(** X13: the E-mode scan never throws and writes the price cache only.
    Disabled, it lists nothing.  Everything it lists is a profitable
    estimate of a debt and collateral pair of a liquidatable position
    with a non-zero E-mode category, carrying 1.2 times the priority of
    the plain estimate; and the list is in descending priority wherever
    the priorities are numbers. *)
Theorem eMode_scan_lists_profitable_eMode_pairs cfg w isEnabled s :
  exists opportunities s',
    EModeStrategy.scan cfg w isEnabled s = (Ok opportunities, s')
    /\ cache_only s s'
    /\ (isEnabled = false -> opportunities = [])
    /\ Forall
         (fun o =>
            eMode_entry cfg w (getLiquidatablePositions w) s o
            /\ LiquidationTarget.eModeCategoryId (LiquidationProfitCalculation.target o) <> 0)
         opportunities
    /\ (Forall (fun o => PrimFloat.is_nan (LiquidationProfitCalculation.executionPriority o)
                         = false) opportunities ->
        StronglySorted
          (fun a b => (LiquidationProfitCalculation.executionPriority b
                       <=? LiquidationProfitCalculation.executionPriority a)%float = true)
          opportunities).
Proof.
  pose proof (writes_cache_only_eMode_scan cfg w isEnabled s) as Hcache.
  unfold EModeStrategy.scan in *.
  destruct isEnabled; simpl in *;
    [|exists [], s; repeat split; try constructor; apply cache_only_refl].
  unfold try_catch, bind in *.
  match goal with
  | |- context [for_fold ?xs [] ?body s] =>
      destruct (for_fold xs [] body s) as [[raw|msg] s1] eqn:Hloop
  end; simpl in Hcache.
  - exists (rank raw), s1. split; [reflexivity|]. split; [exact Hcache|].
    split; [discriminate|]. split; [|apply rank_sorted].
    apply (Permutation_Forall (Permutation_sym (rank_Permutation raw))).
    eapply (for_fold_grows
              (fun o => eMode_entry cfg w (getLiquidatablePositions w) s o
                        /\ LiquidationTarget.eModeCategoryId
                             (LiquidationProfitCalculation.target o) <> 0));
      [|exact Hloop|constructor].
    intros position Hp acc s2 acc' s3 Hrun Hacc.
    apply filter_In in Hp. destruct Hp as [Hp Hmode].
    apply negb_true_iff, Z.eqb_neq in Hmode.
    assert (Hentries : Forall (eMode_entry cfg w
                                 (List.filter
                                    (fun p => negb (LiquidationTarget.eModeCategoryId p =? 0))
                                    (getLiquidatablePositions w)) s) acc').
    { eapply (eMode_scan_position_entries cfg w _ s position); [|exact Hrun|].
      - apply filter_In. split; [exact Hp|]. apply negb_true_iff, Z.eqb_neq, Hmode.
      - eapply List.Forall_impl; [|exact Hacc].
        intros o ((Ht & Hrest) & Hm). split; [|exact Hrest].
        apply filter_In. split; [exact Ht|]. apply negb_true_iff, Z.eqb_neq, Hm. }
    eapply List.Forall_impl; [|exact Hentries].
    intros o (Ht & Hrest). apply filter_In in Ht. destruct Ht as [Ht Hm].
    apply negb_true_iff, Z.eqb_neq in Hm. split; [split; assumption | exact Hm].
  - exists [], s1. split; [reflexivity|]. split; [exact Hcache|].
    repeat split; constructor.
Qed.

(** An entry of the oracle-delay scan: a profitable estimate of a pair
    whose two assets both have a discrepancy figure that is a non-zero
    number, one of them at least the threshold, with the priority scaled
    by one plus a hundredth of the sum of the two figures. *)
Definition oracleDelay_entry (cfg : Config.t) (w : World)
    (minPriceDiscrepancyPercent : float) (s : State)
    (o : LiquidationProfitCalculation.t) : Prop :=
  In (LiquidationProfitCalculation.target o) (getLiquidatablePositions w)
  /\ In (LiquidationProfitCalculation.debtAsset o)
        (LiquidationTarget.debtAssets (LiquidationProfitCalculation.target o))
  /\ In (LiquidationProfitCalculation.collateralAsset o)
        (LiquidationTarget.collateralAssets (LiquidationProfitCalculation.target o))
  /\ LiquidationProfitCalculation.profitable o = true
  /\ exists r debtPriceData collateralPriceData debtDiscrepancy collateralDiscrepancy,
       fst (Liquidator.calculateLiquidationProfit cfg w
              (LiquidationProfitCalculation.target o)
              (LiquidationProfitCalculation.debtAsset o)
              (LiquidationProfitCalculation.collateralAsset o) s) = Ok r
       /\ fst (PriceMonitor.getPriceData w
                 (Asset.address (LiquidationProfitCalculation.debtAsset o)) s)
          = Ok debtPriceData
       /\ fst (PriceMonitor.getPriceData w
                 (Asset.address (LiquidationProfitCalculation.collateralAsset o)) s)
          = Ok collateralPriceData
       /\ PriceData.discrepancyPercentage debtPriceData = Some debtDiscrepancy
       /\ PriceData.discrepancyPercentage collateralPriceData = Some collateralDiscrepancy
       /\ Number.falsy debtDiscrepancy = false
       /\ Number.falsy collateralDiscrepancy = false
       /\ ((minPriceDiscrepancyPercent <=? debtDiscrepancy)%float
           || (minPriceDiscrepancyPercent <=? collateralDiscrepancy)%float) = true
       /\ o = LiquidationProfitCalculation.boost
                (1 + (debtDiscrepancy + collateralDiscrepancy) / 100)%float r.

Lemma truthy_Some x v :
  OracleDelayStrategy.truthy x = Some v -> x = Some v /\ Number.falsy v = false.
Proof.
  unfold OracleDelayStrategy.truthy. destruct x as [y|]; [|discriminate].
  destruct (Number.falsy y) eqn:Hy; [discriminate|].
  intros H. injection H as <-. split; [reflexivity | exact Hy].
Qed.

Lemma oracleDelay_scan_position_entries cfg w minPriceDiscrepancyPercent s0 position :
  In position (getLiquidatablePositions w) ->
  forall acc s acc' s',
    OracleDelayStrategy.scan_position cfg w minPriceDiscrepancyPercent position acc s
    = (Ok acc', s') ->
    Forall (oracleDelay_entry cfg w minPriceDiscrepancyPercent s0) acc ->
    Forall (oracleDelay_entry cfg w minPriceDiscrepancyPercent s0) acc'.
Proof.
  intros Hp. unfold OracleDelayStrategy.scan_position.
  apply for_fold_grows. intros debtAsset Hd acc s acc' s' H.
  apply bind_Ok in H. destruct H as (dpd & s1 & Hdpd & H).
  destruct (OracleDelayStrategy.truthy (PriceData.discrepancyPercentage dpd))
    as [dd|] eqn:Hdd.
  2:{ apply ret_Ok in H. destruct H as [-> _]. auto. }
  apply truthy_Some in Hdd. destruct Hdd as [Hdd Hddt].
  revert H. cbv zeta.
  apply for_fold_grows. clear acc acc' s'.
  intros collateralAsset Hc acc s2 acc' s' H Hacc.
  apply bind_Ok in H. destruct H as (cpd & s3 & Hcpd & H).
  destruct (OracleDelayStrategy.truthy (PriceData.discrepancyPercentage cpd))
    as [cd|] eqn:Hcd.
  2:{ apply ret_Ok in H. destruct H as [-> _]. exact Hacc. }
  apply truthy_Some in Hcd. destruct Hcd as [Hcd Hcdt].
  cbv zeta in H.
  destruct ((minPriceDiscrepancyPercent <=? dd)%float
            || (minPriceDiscrepancyPercent <=? cd)%float) eqn:Hsig.
  2:{ apply ret_Ok in H. destruct H as [-> _]. exact Hacc. }
  apply bind_Ok in H. destruct H as (r & s4 & Hr & H).
  destruct (calculateLiquidationProfit_echo _ _ _ _ _ _ _ _ Hr) as (Ht & Hda & Hca & _).
  destruct (LiquidationProfitCalculation.profitable r) eqn:Hprofit;
    cbv zeta in H; apply ret_Ok in H; destruct H as [-> _]; [|exact Hacc].
  apply Forall_app. split; [exact Hacc|]. constructor; [|constructor].
  unfold oracleDelay_entry. cbn [LiquidationProfitCalculation.boost
    LiquidationProfitCalculation.target LiquidationProfitCalculation.debtAsset
    LiquidationProfitCalculation.collateralAsset LiquidationProfitCalculation.profitable].
  rewrite Ht, Hda, Hca. repeat split; try assumption.
  exists r, dpd, cpd, dd, cd.
  split; [rewrite (state_blind_calculateLiquidationProfit cfg w position debtAsset
                     collateralAsset s0 s3), Hr; reflexivity|].
  split; [rewrite (state_blind_getPriceData w (Asset.address debtAsset) s0 s), Hdpd;
          reflexivity|].
  split; [rewrite (state_blind_getPriceData w (Asset.address collateralAsset) s0 s2), Hcpd;
          reflexivity|].
  repeat split; try assumption.
  unfold Number.or_default. rewrite Hddt, Hcdt. reflexivity.
Qed.

(** X14: the oracle-delay scan never throws and writes the price cache
    only.  Disabled, it lists nothing.  Everything it lists is a
    profitable estimate of a pair of a liquidatable position whose debt
    and collateral assets both have a discrepancy figure that is a
    non-zero number, at least one of them reaching the strategy's minimum;
    its priority is that of the plain estimate times one plus a hundredth
    of the two figures' sum.  The list is in descending priority wherever
    the priorities are numbers. *)
Theorem oracleDelay_scan_lists_discrepant_pairs cfg w isEnabled minPriceDiscrepancyPercent s :
  exists opportunities s',
    OracleDelayStrategy.scan cfg w isEnabled minPriceDiscrepancyPercent s
    = (Ok opportunities, s')
    /\ cache_only s s'
    /\ (isEnabled = false -> opportunities = [])
    /\ Forall (oracleDelay_entry cfg w minPriceDiscrepancyPercent s) opportunities
    /\ (Forall (fun o => PrimFloat.is_nan (LiquidationProfitCalculation.executionPriority o)
                         = false) opportunities ->
        StronglySorted
          (fun a b => (LiquidationProfitCalculation.executionPriority b
                       <=? LiquidationProfitCalculation.executionPriority a)%float = true)
          opportunities).
Proof.
  pose proof (writes_cache_only_oracleDelay_scan cfg w isEnabled minPriceDiscrepancyPercent s)
    as Hcache.
  unfold OracleDelayStrategy.scan in *.
  destruct isEnabled; simpl in *;
    [|exists [], s; repeat split; try constructor; apply cache_only_refl].
  unfold try_catch, bind in *.
  match goal with
  | |- context [for_fold ?xs [] ?body s] =>
      destruct (for_fold xs [] body s) as [[raw|msg] s1] eqn:Hloop
  end; simpl in Hcache.
  - exists (rank raw), s1. split; [reflexivity|]. split; [exact Hcache|].
    split; [discriminate|]. split; [|apply rank_sorted].
    apply (Permutation_Forall (Permutation_sym (rank_Permutation raw))).
    eapply (for_fold_grows (oracleDelay_entry cfg w minPriceDiscrepancyPercent s));
      [|exact Hloop|constructor].
    intros position Hp. apply oracleDelay_scan_position_entries. exact Hp.
  - exists [], s1. split; [reflexivity|]. split; [exact Hcache|].
    repeat split; constructor.
Qed.

(** ** The [execute] methods of the scanners *)

(** What [execute] returns after [scan] from state [s]: nothing when the
    scan listed nothing, and otherwise the result of executing the first
    entry listed, which is then the one result added to the scanner's
    history.  The manager's timestamp and history are not touched. *)
Definition executes_first_listed (cfg : Config.t) (w : World)
    (scan : M (list LiquidationProfitCalculation.t))
    (history : list ExecutionResult.t) (s : State)
    (result : option ExecutionResult.t) (history' : list ExecutionResult.t) (s' : State)
    : Prop :=
  lastExecutionTime s' = lastExecutionTime s
  /\ executionHistory s' = executionHistory s
  /\ match result with
     | None => history' = history /\ sent s' = sent s /\ fst (scan s) = Ok []
     | Some r =>
         history' = (history ++ [r])%list
         /\ (sent s' = sent s \/ exists call, sent s' = (sent s ++ [call])%list)
         /\ exists best rest s1,
              scan s = (Ok (best :: rest), s1)
              /\ fst (Liquidator.executeLiquidation cfg w best s1) = Ok r
     end.

Lemma execute_runs_first_listed cfg w history
    (scan : M (list LiquidationProfitCalculation.t)) s :
  writes_cache_only scan ->
  (exists opportunities s', scan s = (Ok opportunities, s')) ->
  exists result history' s',
    try_catch (bind scan (fun opportunities =>
                 StrategyExecute.executeBest cfg w opportunities history))
      (StrategyExecute.caught w history) s
    = (Ok (result, history'), s')
    /\ executes_first_listed cfg w scan history s result history' s'.
Proof.
  intros Hquiet (ops & s1 & Hscan). specialize (Hquiet s).
  unfold try_catch, bind. rewrite Hscan in *. simpl in Hquiet.
  destruct Hquiet as (Ht & Hh & Hs).
  destruct ops as [|best rest]; simpl.
  - exists None, history, s1. split; [reflexivity|].
    unfold executes_first_listed. rewrite Hscan. repeat split; assumption.
  - destruct (executeLiquidation_footprint cfg w best s1) as (r & s2 & Hexec & Hsent).
    unfold bind. rewrite Hexec. unfold ret.
    exists (Some r), (history ++ [r])%list, s2. split; [reflexivity|].
    unfold executes_first_listed.
    split; [destruct Hsent as [->|(call & ->)]; exact Ht|].
    split; [destruct Hsent as [->|(call & ->)]; exact Hh|].
    split; [reflexivity|]. split.
    + destruct Hsent as [->|(call & ->)]; simpl; rewrite Hs;
        [left; reflexivity | right; exists call; reflexivity].
    + exists best, rest, s1. rewrite Hexec. split; [exact Hscan | reflexivity].
Qed.

(** X15: the [execute] method of either scanner never throws.  Disabled,
    or when its scan lists nothing, it returns [null], records nothing and
    submits nothing.  Otherwise it executes the first (top-ranked) entry
    of its scan and no other, returns that execution's result and appends
    it to the scanner's own history; at most one flash loan is submitted.
    The manager's cooldown timestamp and history are never updated, so
    these executions neither observe nor restart the cooldown. *)
Theorem scanner_execute_runs_first_listed cfg w isEnabled minPriceDiscrepancyPercent history s :
  (exists result history' s',
     StrategyExecute.eMode_execute cfg w isEnabled history s = (Ok (result, history'), s')
     /\ executes_first_listed cfg w (EModeStrategy.scan cfg w isEnabled) history s
          result history' s'
     /\ (isEnabled = false -> result = None))
  /\ (exists result history' s',
        StrategyExecute.oracleDelay_execute cfg w isEnabled minPriceDiscrepancyPercent
          history s = (Ok (result, history'), s')
        /\ executes_first_listed cfg w
             (OracleDelayStrategy.scan cfg w isEnabled minPriceDiscrepancyPercent)
             history s result history' s'
        /\ (isEnabled = false -> result = None)).
Proof.
  unfold StrategyExecute.eMode_execute, StrategyExecute.oracleDelay_execute.
  destruct isEnabled; simpl negb; cbv iota.
  - split.
    + destruct (execute_runs_first_listed cfg w history (EModeStrategy.scan cfg w true) s
                  (writes_cache_only_eMode_scan cfg w true)
                  (eMode_scan_total cfg w true s))
        as (result & history' & s' & Hrun & Hdone).
      exists result, history', s'.
      split; [exact Hrun|]. split; [exact Hdone | discriminate].
    + destruct (execute_runs_first_listed cfg w history
                  (OracleDelayStrategy.scan cfg w true minPriceDiscrepancyPercent) s
                  (writes_cache_only_oracleDelay_scan cfg w true minPriceDiscrepancyPercent)
                  (oracleDelay_scan_total cfg w true minPriceDiscrepancyPercent s))
        as (result & history' & s' & Hrun & Hdone).
      exists result, history', s'.
      split; [exact Hrun|]. split; [exact Hdone | discriminate].
  - split; exists None, history, s; (split; [reflexivity|]);
      (split; [|reflexivity]); repeat split.
Qed.

(** ** The executor contract *)

Lemma sol_bind_Some {A B} (c : Executor.Sol A) (k : A -> Executor.Sol B) calls b calls' :
  Executor.sol_bind c k calls = Some (b, calls') ->
  exists a calls1, c calls = Some (a, calls1) /\ k a calls1 = Some (b, calls').
Proof.
  unfold Executor.sol_bind. destruct (c calls) as [[a calls1]|]; [|discriminate].
  intros H. exists a, calls1. split; [reflexivity | exact H].
Qed.

Lemma require_Some condition calls u calls' :
  Executor.require condition calls = Some (u, calls') -> condition = true /\ calls' = calls.
Proof.
  unfold Executor.require. destruct condition; [|discriminate].
  intros H. injection H as _ <-. split; reflexivity.
Qed.

Lemma call_Some env c calls u calls' :
  Executor.call env c calls = Some (u, calls') ->
  Executor.returns env calls c = true /\ calls' = (calls ++ [c])%list.
Proof.
  unfold Executor.call. destruct (Executor.returns env calls c); [|discriminate].
  intros H. injection H as _ <-. split; reflexivity.
Qed.

Lemma balance_Some env token calls v calls' :
  Executor.balance env token calls = Some (v, calls') ->
  Executor.balanceOf env calls token = Some v
  /\ calls' = (calls ++ [Executor.BalanceOf token])%list.
Proof.
  unfold Executor.balance. destruct (Executor.balanceOf env calls token); [|discriminate].
  intros H. injection H as <- <-. split; reflexivity.
Qed.

Lemma first_Some array calls x calls' :
  Executor.first array calls = Some (x, calls') -> hd_error array = Some x /\ calls' = calls.
Proof.
  destruct array as [|y rest]; [discriminate|].
  intros H. injection H as <- <-. split; reflexivity.
Qed.

Lemma checked_add_Some a b calls v calls' :
  Executor.checked_add a b calls = Some (v, calls') ->
  a + b < 2 ^ 256 /\ v = a + b /\ calls' = calls.
Proof.
  unfold Executor.checked_add. destruct (a + b <? 2 ^ 256) eqn:H; [|discriminate].
  apply Z.ltb_lt in H. intros E. injection E as <- <-. repeat split. exact H.
Qed.

(** The transfer that hands a positive balance of a token to a
    recipient; none for a balance of zero. *)
Definition sweep (token recipient value : Z) : list Executor.Call :=
  if value >? 0 then [Executor.SafeTransfer token recipient value] else [].

Lemma sweep_Some env token recipient value calls u calls' :
  (if value >? 0
   then Executor.call env (Executor.SafeTransfer token recipient value)
   else Executor.sol_ret tt) calls = Some (u, calls') ->
  calls' = (calls ++ sweep token recipient value)%list.
Proof.
  unfold sweep. destruct (value >? 0).
  - intros H. apply call_Some in H. apply H.
  - intros H. injection H as _ <-. rewrite app_nil_r. reflexivity.
Qed.

Lemma sweep_to_recipient token recipient value :
  Forall (fun c => exists v, c = Executor.SafeTransfer token recipient v /\ 0 < v)
    (sweep token recipient value).
Proof.
  unfold sweep. destruct (value >? 0) eqn:H; constructor; [|constructor].
  exists value. split; [reflexivity|]. apply Z.gtb_lt in H. exact H.
Qed.

(** The calls of [_returnFunds] and of [rescueTokens] on one token: the
    balance is read, and handed to the recipient if positive. *)
Definition returned (token recipient value : Z) : list Executor.Call :=
  (Executor.BalanceOf token :: sweep token recipient value)%list.

Lemma returned_calls token recipient value :
  Forall (fun call =>
            call = Executor.BalanceOf token
            \/ exists v, call = Executor.SafeTransfer token recipient v /\ 0 < v)
    (returned token recipient value).
Proof.
  unfold returned. constructor; [left; reflexivity|].
  eapply List.Forall_impl; [|apply sweep_to_recipient].
  intros call H. right. exact H.
Qed.

Lemma returned_Some env token recipient calls u calls' :
  Executor.sol_bind (Executor.balance env token) (fun value =>
    if value >? 0
    then Executor.call env (Executor.SafeTransfer token recipient value)
    else Executor.sol_ret tt) calls = Some (u, calls') ->
  exists value,
    Executor.balanceOf env calls token = Some value
    /\ calls' = (calls ++ returned token recipient value)%list.
Proof.
  intros H. apply sol_bind_Some in H. destruct H as (value & calls1 & Hvalue & H).
  apply balance_Some in Hvalue. destruct Hvalue as [Hvalue ->].
  apply sweep_Some in H. subst calls'.
  exists value. split; [exact Hvalue|]. unfold returned.
  rewrite <- app_assoc. reflexivity.
Qed.

Lemma _returnFunds_Some env im collateralAsset debtAsset calls u calls' :
  Executor._returnFunds env im collateralAsset debtAsset calls = Some (u, calls') ->
  exists collateralBalance debtBalance,
    Executor.balanceOf env calls collateralAsset = Some collateralBalance
    /\ Executor.balanceOf env
         (calls ++ returned collateralAsset (Executor.owner im) collateralBalance)%list
         debtAsset = Some debtBalance
    /\ calls' = (calls ++ returned collateralAsset (Executor.owner im) collateralBalance
                 ++ returned debtAsset (Executor.owner im) debtBalance)%list.
Proof.
  unfold Executor._returnFunds. intros H.
  apply sol_bind_Some in H. destruct H as (cb & calls1 & Hcb & H).
  apply balance_Some in Hcb. destruct Hcb as [Hcb ->].
  apply sol_bind_Some in H. destruct H as ([] & calls2 & Hsweep & H).
  apply sweep_Some in Hsweep. subst calls2.
  apply returned_Some in H. destruct H as (db & Hdb & ->).
  assert (Hshape : ((calls ++ [Executor.BalanceOf collateralAsset])
                    ++ sweep collateralAsset (Executor.owner im) cb
                    = calls ++ returned collateralAsset (Executor.owner im) cb)%list)
    by (unfold returned; rewrite <- app_assoc; reflexivity).
  rewrite Hshape in *.
  exists cb, db. split; [exact Hcb|]. split; [exact Hdb|].
  rewrite <- app_assoc. reflexivity.
Qed.

(** X16: [rescueTokens] returns only for the owner.  A run that returns
    makes one call that reads the contract's balance of the token, and
    after it no call when that balance is zero, and otherwise exactly one:
    a transfer of the whole balance to the owner. *)
Theorem rescueTokens_pays_the_owner_only env im msg_sender token calls u calls' :
  Executor.rescueTokens env im msg_sender token calls = Some (u, calls') ->
  msg_sender = Executor.owner im
  /\ exists tokenBalance,
       Executor.balanceOf env calls token = Some tokenBalance
       /\ calls' = (calls ++ Executor.BalanceOf token
                            :: (if tokenBalance >? 0
                                then [Executor.SafeTransfer token (Executor.owner im)
                                        tokenBalance]
                                else []))%list
       /\ (tokenBalance <= 0 -> calls' = (calls ++ [Executor.BalanceOf token])%list)
       /\ (0 < tokenBalance ->
           calls' = (calls ++ [Executor.BalanceOf token;
                               Executor.SafeTransfer token (Executor.owner im)
                                 tokenBalance])%list).
Proof.
  unfold Executor.rescueTokens. intros H.
  apply sol_bind_Some in H. destruct H as ([] & calls1 & Hreq & H).
  apply require_Some in Hreq. destruct Hreq as [Hreq ->].
  apply Z.eqb_eq in Hreq.
  apply returned_Some in H. destruct H as (b & Hb & ->).
  split; [exact Hreq|]. exists b. split; [exact Hb|].
  unfold returned, sweep. split; [reflexivity|]. split.
  - intros Hzero. destruct (b >? 0) eqn:Hpositive; [|reflexivity].
    apply Z.gtb_lt in Hpositive. lia.
  - intros Hpositive. apply Z.gtb_lt in Hpositive. rewrite Hpositive. reflexivity.
Qed.

Lemma rescueTokens_pays_the_owner_only_witness :
  Executor.rescueTokens (Cases.token_env 25) Cases.immutables 1 77 []
  = Some (tt, [Executor.BalanceOf 77; Executor.SafeTransfer 77 1 25])
  /\ Executor.rescueTokens (Cases.token_env 0) Cases.immutables 1 77 []
     = Some (tt, [Executor.BalanceOf 77])
  /\ Executor.rescueTokens (Cases.token_env 25) Cases.immutables 3 77 [] = None
  /\ 1 = Executor.owner Cases.immutables.
Proof.
  assert (E : Executor.rescueTokens (Cases.token_env 25) Cases.immutables 1 77 []
              = Some (tt, [Executor.BalanceOf 77; Executor.SafeTransfer 77 1 25]))
    by reflexivity.
  split; [exact E|]. split; [reflexivity|]. split; [reflexivity|].
  exact (proj1 (rescueTokens_pays_the_owner_only _ _ _ _ _ _ _ E)).
Defined.

Lemma executeOperation_Some env im msg_sender assets amounts premiums initiator params
    calls r calls' :
  Executor.executeOperation env im msg_sender assets amounts premiums initiator params calls
  = Some (r, calls') ->
  r = true
  /\ msg_sender = Executor.POOL im
  /\ initiator = Executor.owner im
  /\ exists collateralAsset debtAsset user debtToCover receiveAToken asset amount premium
            collateralBalance debtBalance,
       FlashLoanLiquidator.decodeParams params
       = Some (collateralAsset, debtAsset, user, debtToCover, receiveAToken)
       /\ hd_error assets = Some asset
       /\ hd_error amounts = Some amount
       /\ hd_error premiums = Some premium
       /\ amount + premium < 2 ^ 256
       /\ let made :=
            (calls ++
             [Executor.SafeApprove debtAsset (Executor.POOL im) debtToCover;
              Executor.LiquidationCall collateralAsset debtAsset user debtToCover
                receiveAToken;
              Executor.SafeApprove asset (Executor.POOL im) (amount + premium)])%list in
          Executor.balanceOf env made collateralAsset = Some collateralBalance
          /\ Executor.balanceOf env
               (made ++ returned collateralAsset (Executor.owner im) collateralBalance)%list
               debtAsset = Some debtBalance
          /\ calls' = (made ++ returned collateralAsset (Executor.owner im) collateralBalance
                       ++ returned debtAsset (Executor.owner im) debtBalance)%list.
Proof.
  unfold Executor.executeOperation. intros H.
  apply sol_bind_Some in H. destruct H as ([] & calls0 & Hreq & H).
  apply require_Some in Hreq. destruct Hreq as [Hsender ->]. apply Z.eqb_eq in Hsender.
  apply sol_bind_Some in H. destruct H as ([] & calls0 & Hreq & H).
  apply require_Some in Hreq. destruct Hreq as [Hinit ->]. apply Z.eqb_eq in Hinit.
  destruct (FlashLoanLiquidator.decodeParams params) as [[[[[c d] user] n] b]|];
    [|discriminate].
  apply sol_bind_Some in H. destruct H as ([] & calls1 & H1 & H).
  apply call_Some in H1. destruct H1 as [_ ->].
  apply sol_bind_Some in H. destruct H as ([] & calls2 & H2 & H).
  apply call_Some in H2. destruct H2 as [_ ->].
  apply sol_bind_Some in H. destruct H as (amount & calls3 & Hamount & H).
  apply first_Some in Hamount. destruct Hamount as [Hamount ->].
  apply sol_bind_Some in H. destruct H as (premium & calls3 & Hpremium & H).
  apply first_Some in Hpremium. destruct Hpremium as [Hpremium ->].
  apply sol_bind_Some in H. destruct H as (owing & calls3 & Howing & H).
  apply checked_add_Some in Howing. destruct Howing as (Hfits & -> & ->).
  apply sol_bind_Some in H. destruct H as (asset & calls3 & Hasset & H).
  apply first_Some in Hasset. destruct Hasset as [Hasset ->].
  apply sol_bind_Some in H. destruct H as ([] & calls3 & H3 & H).
  apply call_Some in H3. destruct H3 as [_ ->].
  apply sol_bind_Some in H. destruct H as ([] & calls4 & Hfunds & H).
  injection H as <- <-.
  apply _returnFunds_Some in Hfunds.
  destruct Hfunds as (cb & db & Hcb & Hdb & ->).
  assert (Hmade : forall x y z : Executor.Call,
             (((calls ++ [x]) ++ [y]) ++ [z] = calls ++ [x; y; z])%list)
    by (intros; rewrite <- !app_assoc; reflexivity).
  rewrite Hmade in *.
  repeat split; try assumption.
  exists c, d, user, n, b, asset, amount, premium, cb, db.
  repeat split; assumption.
Qed.

(** X17: a run of [executeOperation] that returns was called by the
    pool on a loan the owner initiated, returns [true], and the calls its
    code has made are exactly these, in this order (a SafeERC20 library
    function counting as one call): an approval of [debtToCover] of the
    debt asset to the pool, the liquidation call with the five decoded
    parameters, an approval of [amounts[0] + premiums[0]] (which fits 256
    bits) of [assets[0]] to the pool, a reading of the contract's
    collateral balance, a transfer of that whole balance to the owner if
    it is positive, a reading of the contract's debt-asset balance, and a
    transfer of that whole balance to the owner if it is positive.  So
    after the second approval it only reads balances and transfers
    positive amounts to the owner. *)
Theorem executeOperation_call_sequence env im msg_sender assets amounts premiums initiator
    params calls r calls' :
  Executor.executeOperation env im msg_sender assets amounts premiums initiator params calls
  = Some (r, calls') ->
  r = true
  /\ msg_sender = Executor.POOL im
  /\ initiator = Executor.owner im
  /\ exists collateralAsset debtAsset user debtToCover receiveAToken asset amount premium
            collateralBalance debtBalance,
       FlashLoanLiquidator.decodeParams params
       = Some (collateralAsset, debtAsset, user, debtToCover, receiveAToken)
       /\ hd_error assets = Some asset
       /\ hd_error amounts = Some amount
       /\ hd_error premiums = Some premium
       /\ amount + premium < 2 ^ 256
       /\ let made :=
            (calls ++
             [Executor.SafeApprove debtAsset (Executor.POOL im) debtToCover;
              Executor.LiquidationCall collateralAsset debtAsset user debtToCover
                receiveAToken;
              Executor.SafeApprove asset (Executor.POOL im) (amount + premium)])%list in
          let collateralReturned :=
            (Executor.BalanceOf collateralAsset
             :: (if collateralBalance >? 0
                 then [Executor.SafeTransfer collateralAsset (Executor.owner im)
                         collateralBalance]
                 else []))%list in
          let debtReturned :=
            (Executor.BalanceOf debtAsset
             :: (if debtBalance >? 0
                 then [Executor.SafeTransfer debtAsset (Executor.owner im) debtBalance]
                 else []))%list in
          Executor.balanceOf env made collateralAsset = Some collateralBalance
          /\ Executor.balanceOf env (made ++ collateralReturned)%list debtAsset
             = Some debtBalance
          /\ calls' = (made ++ collateralReturned ++ debtReturned)%list
          /\ Forall (fun call =>
                       (exists token, call = Executor.BalanceOf token)
                       \/ exists token value,
                            call = Executor.SafeTransfer token (Executor.owner im) value
                            /\ 0 < value)
               (collateralReturned ++ debtReturned)%list.
Proof.
  intros Hrun. apply executeOperation_Some in Hrun.
  destruct Hrun as (Hr & Hsender & Hinitiator & c & d & u & n & b & asset & amount & premium
                    & cb & db & Hdecode & Hasset & Hamount & Hpremium & Hfits
                    & Hcb & Hdb & Hcalls).
  split; [exact Hr|]. split; [exact Hsender|]. split; [exact Hinitiator|].
  exists c, d, u, n, b, asset, amount, premium, cb, db.
  repeat (split; [assumption|]).
  change (Forall (fun call =>
                    (exists token, call = Executor.BalanceOf token)
                    \/ exists token value,
                         call = Executor.SafeTransfer token (Executor.owner im) value
                         /\ 0 < value)
            (returned c (Executor.owner im) cb ++ returned d (Executor.owner im) db)%list).
  apply Forall_app. split.
  - eapply List.Forall_impl; [|apply returned_calls].
    intros call [Hcall|(v & Hcall & Hv)];
      [left; exists c; exact Hcall | right; exists c, v; split; assumption].
  - eapply List.Forall_impl; [|apply returned_calls].
    intros call [Hcall|(v & Hcall & Hv)];
      [left; exists d; exact Hcall | right; exists d, v; split; assumption].
Qed.

Lemma executeOperation_call_sequence_witness :
  Executor.executeOperation (Cases.token_env 25) Cases.immutables 2
    [Cases.debt_address] [1000000000] [900000] 1 Cases.params [] = Some (true, Cases.callback_calls)
  /\ length Cases.callback_calls = 7%nat
  /\ 2 = Executor.POOL Cases.immutables.
Proof.
  assert (E : Executor.executeOperation (Cases.token_env 25) Cases.immutables 2
                [Cases.debt_address] [1000000000] [900000] 1 Cases.params []
              = Some (true, Cases.callback_calls)) by (vm_compute; reflexivity).
  split; [exact E|]. split; [vm_compute; reflexivity|].
  exact (proj1 (proj2 (executeOperation_call_sequence _ _ _ _ _ _ _ _ _ _ _ E))).
Defined.

(** X18: the two halves fit.  On the parameters [executeLiquidation]
    encodes for an estimate, and the single asset and amount it borrows,
    a returning callback approves exactly the estimate's [debtToCover] of
    the debt asset for the liquidation, liquidates the estimate's user on
    the estimate's pair without receiving aTokens, approves [debtToCover]
    plus the premium of the same asset for the repayment, and pays
    whatever it then holds of the two assets to the owner: it reads its
    collateral balance and transfers it if positive, then reads its
    debt-asset balance and transfers it if positive, so the whole of both
    balances read leaves the contract. *)
Theorem callback_liquidates_the_estimate w env im calculation params d premium
    msg_sender initiator calls r calls' :
  params_of w calculation = Ok params ->
  getAddress w (Asset.address (LiquidationProfitCalculation.debtAsset calculation)) = Some d ->
  Executor.executeOperation env im msg_sender
    [d] [LiquidationProfitCalculation.debtToCover calculation] [premium]
    initiator params calls = Some (r, calls') ->
  exists c u collateralBalance debtBalance,
    getAddress w (Asset.address (LiquidationProfitCalculation.collateralAsset calculation))
    = Some c
    /\ getAddress w (LiquidationTarget.user (LiquidationProfitCalculation.target calculation))
       = Some u
    /\ let made :=
         (calls ++
          [Executor.SafeApprove d (Executor.POOL im)
             (LiquidationProfitCalculation.debtToCover calculation);
           Executor.LiquidationCall c d u
             (LiquidationProfitCalculation.debtToCover calculation) false;
           Executor.SafeApprove d (Executor.POOL im)
             (LiquidationProfitCalculation.debtToCover calculation + premium)])%list in
       Executor.balanceOf env made c = Some collateralBalance
       /\ Executor.balanceOf env
            (made ++ Executor.BalanceOf c :: sweep c (Executor.owner im) collateralBalance)%list
            d = Some debtBalance
       /\ calls' = (made ++ Executor.BalanceOf c :: sweep c (Executor.owner im) collateralBalance
                    ++ Executor.BalanceOf d :: sweep d (Executor.owner im) debtBalance)%list.
Proof.
  intros Hparams Hd Hrun. unfold params_of in Hparams.
  apply encodeParams_decodes in Hparams.
  destruct Hparams as (c & d' & u & Hc & Hd' & Hu & Hdecode).
  rewrite Hd in Hd'. injection Hd' as <-.
  apply executeOperation_Some in Hrun.
  destruct Hrun as (_ & _ & _ & c' & d' & u' & n & b & asset & amount & premium'
                    & cb & db & Hdec & Hasset & Hamount & Hpremium & _ & Hcb & Hdb & Hcalls).
  rewrite Hdecode in Hdec. injection Hdec as <- <- <- <- <-.
  injection Hasset as <-. injection Hamount as <-. injection Hpremium as <-.
  exists c, u, cb, db.
  split; [exact Hc|]. split; [exact Hu|]. split; [exact Hcb|]. split; [exact Hdb|].
  exact Hcalls.
Qed.

Lemma callback_liquidates_the_estimate_witness :
  exists c u,
    Scenario.hex_address PriceMonitor.DAI = Some c
    /\ Scenario.hex_address Scenario.borrower = Some u
    /\ Cases.callback_calls
       = [Executor.SafeApprove Cases.debt_address 2 1000000000;
          Executor.LiquidationCall c Cases.debt_address u 1000000000 false;
          Executor.SafeApprove Cases.debt_address 2 (1000000000 + 900000);
          Executor.BalanceOf c;
          Executor.SafeTransfer c 1 25;
          Executor.BalanceOf Cases.debt_address;
          Executor.SafeTransfer Cases.debt_address 1 25].
Proof.
  destruct (callback_liquidates_the_estimate (Scenario.world_20gwei 1) (Cases.token_env 25)
              Cases.immutables Scenario.calculation_20gwei Cases.params Cases.debt_address
              900000 2 1 [] true Cases.callback_calls)
    as (c & u & cb & db & Hc & Hu & Hcb & Hdb & Hcalls).
  - vm_compute. reflexivity.
  - vm_compute. reflexivity.
  - vm_compute. reflexivity.
  - exists c, u. split; [exact Hc|]. split; [exact Hu|].
    injection Hcb as <-. injection Hdb as <-. exact Hcalls.
Defined.

(** X19: [executeOperation] does return, with [true], when the pool
    calls it on a loan the owner initiated, the parameters decode, the
    three arrays are not empty, the amount owed fits 256 bits, and the
    tokens and the pool accept every call and report balances. *)
Theorem executeOperation_returns env im assets amounts premiums params calls
    collateralAsset debtAsset user debtToCover receiveAToken asset amount premium :
  (forall made c, Executor.returns env made c = true) ->
  (forall made token, exists v, Executor.balanceOf env made token = Some v) ->
  FlashLoanLiquidator.decodeParams params
  = Some (collateralAsset, debtAsset, user, debtToCover, receiveAToken) ->
  hd_error assets = Some asset ->
  hd_error amounts = Some amount ->
  hd_error premiums = Some premium ->
  amount + premium < 2 ^ 256 ->
  exists calls',
    Executor.executeOperation env im (Executor.POOL im) assets amounts premiums
      (Executor.owner im) params calls = Some (true, calls').
Proof.
  intros Hreturns Hbalance Hdecode Hasset Hamount Hpremium Hfits.
  unfold Executor.executeOperation, Executor.sol_bind, Executor.require.
  rewrite !Z.eqb_refl. unfold Executor.sol_ret at 1 2. rewrite Hdecode.
  unfold Executor.call. rewrite !Hreturns.
  destruct assets as [|a assets]; [discriminate|]. injection Hasset as ->.
  destruct amounts as [|x amounts]; [discriminate|]. injection Hamount as ->.
  destruct premiums as [|p premiums]; [discriminate|]. injection Hpremium as ->.
  unfold Executor.first, Executor.sol_ret at 1 2.
  unfold Executor.checked_add. apply Z.ltb_lt in Hfits. rewrite Hfits.
  unfold Executor.sol_ret at 1 2. rewrite Hreturns.
  unfold Executor._returnFunds, Executor.sol_bind, Executor.balance.
  match goal with
  | |- context [Executor.balanceOf env ?made collateralAsset] =>
      destruct (Hbalance made collateralAsset) as (cb & ->)
  end.
  destruct (cb >? 0).
  - unfold Executor.call. rewrite Hreturns.
    match goal with
    | |- context [Executor.balanceOf env ?made debtAsset] =>
        destruct (Hbalance made debtAsset) as (db & ->)
    end.
    destruct (db >? 0); [rewrite Hreturns|]; eexists; reflexivity.
  - unfold Executor.sol_ret at 1.
    match goal with
    | |- context [Executor.balanceOf env ?made debtAsset] =>
        destruct (Hbalance made debtAsset) as (db & ->)
    end.
    destruct (db >? 0); [unfold Executor.call; rewrite Hreturns|]; eexists; reflexivity.
Qed.

Lemma executeOperation_returns_witness :
  exists calls',
    Executor.executeOperation (Cases.token_env 25) Cases.immutables 2
      [Cases.debt_address] [1000000000] [900000] 1 Cases.params [] = Some (true, calls').
Proof.
  destruct Cases.decoded_params as [[[[c d] u] n] b] eqn:Hdecoded.
  apply (executeOperation_returns (Cases.token_env 25) Cases.immutables
           [Cases.debt_address] [1000000000] [900000] Cases.params []
           c d u n b Cases.debt_address 1000000000 900000).
  - intros made call. reflexivity.
  - intros made token. exists 25. reflexivity.
  - rewrite <- Hdecoded. vm_compute. reflexivity.
  - reflexivity.
  - reflexivity.
  - reflexivity.
  - reflexivity.
Defined.

(** ** The health factor monitor *)

Lemma eff_bind_Ok {S A B} (c : Eff.T S A) (k : A -> Eff.T S B) s b s' :
  Eff.bind c k s = (Ok b, s') ->
  exists a s1, c s = (Ok a, s1) /\ k a s1 = (Ok b, s').
Proof.
  unfold Eff.bind. destruct (c s) as [[a|msg] s1]; intros H.
  - exists a, s1. split; [reflexivity | exact H].
  - discriminate H.
Qed.

Lemma eff_lift_Ok {S A} (r : result A) (s : S) a s' :
  Eff.lift r s = (Ok a, s') -> r = Ok a /\ s' = s.
Proof. unfold Eff.lift. intros H. inversion H. split; reflexivity. Qed.

Lemma eff_ret_Ok {S A} (a b : A) (s s' : S) :
  Eff.ret a s = (Ok b, s') -> b = a /\ s' = s.
Proof. unfold Eff.ret. intros H. inversion H. split; reflexivity. Qed.

Lemma eff_get_Ok {S} (s a s' : S) :
  Eff.get s = (Ok a, s') -> a = s /\ s' = s.
Proof. unfold Eff.get. intros H. inversion H. split; reflexivity. Qed.

Lemma eff_modify_Ok {S} (f : S -> S) s u s' :
  Eff.modify f s = (Ok u, s') -> s' = f s.
Proof. unfold Eff.modify. intros H. inversion H. reflexivity. Qed.

Ltac eff_steps :=
  repeat match goal with
    | H : Eff.bind _ _ _ = (Ok _, _) |- _ =>
        apply eff_bind_Ok in H; destruct H as (? & ? & ? & H); cbv beta zeta in H
    | H : Eff.lift _ _ = (Ok _, _) |- _ =>
        apply eff_lift_Ok in H; destruct H as [H ?]; subst
    | H : Eff.ret _ _ = (Ok _, _) |- _ =>
        apply eff_ret_Ok in H; destruct H as [? ?]; subst
    | H : Eff.get _ = (Ok _, _) |- _ =>
        apply eff_get_Ok in H; destruct H as [? ?]; subst
    | H : Eff.modify _ _ = (Ok _, _) |- _ =>
        apply eff_modify_Ok in H; subst
    end.

(** The monitored users and the reserve list are as they were, and no
    cached reserve info was dropped or replaced. *)
Definition caches_grow (s s' : HealthFactorMonitor.t) : Prop :=
  HealthFactorMonitor.monitoredUsers s' = HealthFactorMonitor.monitoredUsers s
  /\ HealthFactorMonitor.reservesList s' = HealthFactorMonitor.reservesList s
  /\ forall asset info,
       HealthFactorMonitor.reservesData s !! asset = Some info ->
       HealthFactorMonitor.reservesData s' !! asset = Some info.

Lemma caches_grow_refl s : caches_grow s s.
Proof. repeat split; auto. Qed.

Lemma caches_grow_trans s1 s2 s3 :
  caches_grow s1 s2 -> caches_grow s2 s3 -> caches_grow s1 s3.
Proof.
  intros (A1 & A2 & A3) (B1 & B2 & B3). repeat split; try congruence.
  intros asset info H. apply B3, A3, H.
Qed.

Lemma getReserveInfo_cached c asset s info :
  HealthFactorMonitor.reservesData s !! asset = Some info ->
  HealthFactorMonitor.getReserveInfo c asset s = (Ok info, s).
Proof.
  intros H. unfold HealthFactorMonitor.getReserveInfo, Eff.bind, Eff.get.
  rewrite H. reflexivity.
Qed.

Lemma getReserveInfo_Ok c asset s info s' :
  HealthFactorMonitor.getReserveInfo c asset s = (Ok info, s') ->
  HealthFactorMonitor.reservesData s' !! asset = Some info /\ caches_grow s s'.
Proof.
  unfold HealthFactorMonitor.getReserveInfo. intros H.
  apply eff_bind_Ok in H. destruct H as (s0 & s1 & Hget & H).
  apply eff_get_Ok in Hget. destruct Hget as [-> ->].
  destruct (HealthFactorMonitor.reservesData s !! asset) as [cached|] eqn:Hcached.
  - apply eff_ret_Ok in H. destruct H as [-> ->].
    split; [exact Hcached | apply caches_grow_refl].
  - eff_steps. cbn. split; [apply lookup_insert_eq|].
    repeat split. intros other v Hother. cbn.
    rewrite lookup_insert_ne; [exact Hother|]. congruence.
Qed.

Lemma getReserveInfo_Throw c asset s msg s' :
  HealthFactorMonitor.getReserveInfo c asset s = (Throw msg, s') -> s' = s.
Proof.
  unfold HealthFactorMonitor.getReserveInfo, Eff.bind, Eff.get, Eff.lift, Eff.modify, Eff.ret.
  destruct (HealthFactorMonitor.reservesData s !! asset); [discriminate|].
  destruct (Chain.getReserveConfigurationData c asset); [|intros H; inversion H; reflexivity].
  destruct (Chain.symbol c asset); [|intros H; inversion H; reflexivity].
  destruct (Chain.decimals c asset); [discriminate | intros H; inversion H; reflexivity].
Qed.

(** X20: [getReserveInfo] reads the chain at most once per reserve.  A
    call that returns leaves the info it returns cached under the asset,
    drops or replaces no other cached info, and from then on every call
    for the asset returns that same info without touching the state,
    whatever the chain would answer.  A call that throws leaves the
    state as it was. *)
Theorem reserve_info_is_fetched_once c asset s :
  match HealthFactorMonitor.getReserveInfo c asset s with
  | (Ok info, s') =>
      HealthFactorMonitor.reservesData s' !! asset = Some info
      /\ caches_grow s s'
      /\ forall c', HealthFactorMonitor.getReserveInfo c' asset s' = (Ok info, s')
  | (Throw _, s') => s' = s
  end.
Proof.
  destruct (HealthFactorMonitor.getReserveInfo c asset s) as [[info|msg] s'] eqn:H.
  - apply getReserveInfo_Ok in H. destruct H as [Hcached Hgrow].
    split; [exact Hcached|]. split; [exact Hgrow|].
    intros c'. apply getReserveInfo_cached. exact Hcached.
  - apply getReserveInfo_Throw in H. exact H.
Qed.

Lemma initialize_loop c reserves :
  forall s u s',
    Eff.for_fold reserves tt
      (fun _ asset =>
         Eff.bind (HealthFactorMonitor.getReserveInfo c asset) (fun _ => Eff.ret tt)) s
    = (Ok u, s') ->
    caches_grow s s'
    /\ forall asset, In asset reserves ->
         exists info, HealthFactorMonitor.reservesData s' !! asset = Some info.
Proof.
  induction reserves as [|asset reserves IH]; intros s u s' H; simpl in H.
  - apply eff_ret_Ok in H. destruct H as [_ ->].
    split; [apply caches_grow_refl | intros asset []].
  - apply eff_bind_Ok in H. destruct H as ([] & s1 & Hstep & Hrest).
    apply eff_bind_Ok in Hstep. destruct Hstep as (info & s2 & Hinfo & Hret).
    apply eff_ret_Ok in Hret. destruct Hret as [_ ->].
    apply getReserveInfo_Ok in Hinfo. destruct Hinfo as [Hcached Hgrow].
    apply IH in Hrest. destruct Hrest as [Hgrow' Hall].
    split; [eapply caches_grow_trans; eassumption|].
    intros a [<-|Ha]; [|apply Hall, Ha].
    exists info. apply Hgrow'. exact Hcached.
Qed.

(** X21: when [initialize] returns, the reserve list is the pool's, the
    info of every reserve in it is cached, and the monitored users are
    untouched; so none of these reserves is looked up on the chain
    again. *)
Theorem initialize_caches_every_reserve c s u s' :
  HealthFactorMonitor.initialize c s = (Ok u, s') ->
  Chain.getReservesList c = Ok (HealthFactorMonitor.reservesList s')
  /\ HealthFactorMonitor.monitoredUsers s' = HealthFactorMonitor.monitoredUsers s
  /\ forall asset, In asset (HealthFactorMonitor.reservesList s') ->
       exists info,
         HealthFactorMonitor.reservesData s' !! asset = Some info
         /\ forall c', HealthFactorMonitor.getReserveInfo c' asset s' = (Ok info, s').
Proof.
  unfold HealthFactorMonitor.initialize. intros H.
  apply eff_bind_Ok in H. destruct H as (reserves & s1 & Hlist & H).
  apply eff_lift_Ok in Hlist. destruct Hlist as [Hlist ->].
  apply eff_bind_Ok in H. destruct H as ([] & s2 & Hset & H).
  apply eff_modify_Ok in Hset. subst s2.
  apply initialize_loop in H. destruct H as [(Hmon & Hres & _) Hall].
  cbn in Hmon, Hres. rewrite Hres.
  split; [exact Hlist|]. split; [exact Hmon|].
  intros asset Ha. destruct (Hall asset Ha) as (info & Hinfo).
  exists info. split; [exact Hinfo|].
  intros c'. apply getReserveInfo_cached. exact Hinfo.
Qed.

Lemma initialize_caches_every_reserve_witness :
  match HealthFactorMonitor.initialize Cases.chain Cases.fresh with
  | (Ok _, s') =>
      Chain.getReservesList Cases.chain = Ok (HealthFactorMonitor.reservesList s')
  | (Throw _, _) => False
  end.
Proof.
  assert (Hf : fst (HealthFactorMonitor.initialize Cases.chain Cases.fresh) = Ok tt)
    by (vm_compute; reflexivity).
  destruct (HealthFactorMonitor.initialize Cases.chain Cases.fresh) as [[u|msg] s'] eqn:E;
    [|discriminate Hf].
  exact (proj1 (initialize_caches_every_reserve _ _ _ _ E)).
Defined.

(** *** The detailed position *)

(** Whether the user holds a reserve as collateral, and whether they owe
    it, by what the data provider answers. *)
Definition holdsCollateral (c : Chain.t) (userAddress asset : string) : bool :=
  match Chain.getUserReserveData c asset userAddress with
  | Ok d => (UserReserveData.currentATokenBalance d >? 0)
            && UserReserveData.usageAsCollateralEnabled d
  | Throw _ => false
  end.

Definition owes (c : Chain.t) (userAddress asset : string) : bool :=
  match Chain.getUserReserveData c asset userAddress with
  | Ok d => UserReserveData.currentStableDebt d + UserReserveData.currentVariableDebt d >? 0
  | Throw _ => false
  end.

(** A collateral entry: the positive aToken balance of a reserve enabled
    as collateral, with the symbol and decimals of the cached reserve
    info and its threshold and bonus converted from basis points. *)
Definition collateral_entry (c : Chain.t) (userAddress : string) (s : HealthFactorMonitor.t)
    (a : Asset.t) : Prop :=
  exists d info threshold bonus,
    Chain.getUserReserveData c (Asset.address a) userAddress = Ok d
    /\ HealthFactorMonitor.reservesData s !! Asset.address a = Some info
    /\ Asset.amount a = UserReserveData.currentATokenBalance d
    /\ 0 < Asset.amount a
    /\ UserReserveData.usageAsCollateralEnabled d = true
    /\ Asset.symbol a = ReserveInfo.symbol info
    /\ Asset.decimals a = ReserveInfo.decimals info
    /\ HealthFactorMonitor.toNumber (ReserveInfo.liquidationThreshold info) = Ok threshold
    /\ HealthFactorMonitor.toNumber (ReserveInfo.liquidationBonus info) = Ok bonus
    /\ Asset.liquidationThreshold a = Some (HealthFactorMonitor.fromBasisPoints threshold)
    /\ Asset.liquidationBonus a = Some (HealthFactorMonitor.fromBasisPoints bonus).

(** A debt entry: the positive sum of the stable and the variable debt
    in a reserve, without threshold or bonus. *)
Definition debt_entry (c : Chain.t) (userAddress : string) (s : HealthFactorMonitor.t)
    (a : Asset.t) : Prop :=
  exists d info,
    Chain.getUserReserveData c (Asset.address a) userAddress = Ok d
    /\ HealthFactorMonitor.reservesData s !! Asset.address a = Some info
    /\ Asset.amount a
       = UserReserveData.currentStableDebt d + UserReserveData.currentVariableDebt d
    /\ 0 < Asset.amount a
    /\ Asset.symbol a = ReserveInfo.symbol info
    /\ Asset.decimals a = ReserveInfo.decimals info
    /\ Asset.liquidationThreshold a = None
    /\ Asset.liquidationBonus a = None.

Lemma collateral_entry_grow c userAddress s s' a :
  caches_grow s s' -> collateral_entry c userAddress s a -> collateral_entry c userAddress s' a.
Proof.
  intros (_ & _ & Hkeep) (d & info & threshold & bonus & H1 & H2 & H).
  exists d, info, threshold, bonus. split; [exact H1|]. split; [apply Hkeep, H2 | exact H].
Qed.

Lemma debt_entry_grow c userAddress s s' a :
  caches_grow s s' -> debt_entry c userAddress s a -> debt_entry c userAddress s' a.
Proof.
  intros (_ & _ & Hkeep) (d & info & H1 & H2 & H).
  exists d, info. split; [exact H1|]. split; [apply Hkeep, H2 | exact H].
Qed.

Lemma collect_reserve_Ok c userAddress cs ds asset s cs' ds' s' :
  HealthFactorMonitor.collect_reserve c userAddress (cs, ds) asset s = (Ok (cs', ds'), s') ->
  caches_grow s s'
  /\ (exists ca,
        cs' = (cs ++ ca)%list
        /\ map Asset.address ca = (if holdsCollateral c userAddress asset then [asset] else [])
        /\ Forall (collateral_entry c userAddress s') ca)
  /\ (exists da,
        ds' = (ds ++ da)%list
        /\ map Asset.address da = (if owes c userAddress asset then [asset] else [])
        /\ Forall (debt_entry c userAddress s') da).
Proof.
  unfold HealthFactorMonitor.collect_reserve, holdsCollateral, owes. cbn [fst snd]. intros H.
  apply eff_bind_Ok in H. destruct H as (d & s0 & Hd & H).
  apply eff_lift_Ok in Hd. destruct Hd as [Hd ->]. rewrite Hd. cbv zeta in H.
  destruct ((UserReserveData.currentATokenBalance d >? 0)
            || (UserReserveData.currentStableDebt d >? 0)
            || (UserReserveData.currentVariableDebt d >? 0)) eqn:Hany.
  - apply eff_bind_Ok in H. destruct H as (info & s1 & Hinfo & H).
    apply getReserveInfo_Ok in Hinfo. destruct Hinfo as [Hcached Hgrow].
    apply eff_bind_Ok in H. destruct H as (cs1 & s2 & Hcs & H).
    apply eff_ret_Ok in H. destruct H as [Hpair ->]. injection Hpair as -> ->.
    assert (Hdebt :
              exists da,
                (if UserReserveData.currentStableDebt d
                    + UserReserveData.currentVariableDebt d >? 0
                 then (ds ++
                       [Asset.mk (ReserveInfo.symbol info) asset (ReserveInfo.decimals info)
                          (UserReserveData.currentStableDebt d
                           + UserReserveData.currentVariableDebt d) None None])%list
                 else ds) = (ds ++ da)%list
                /\ map Asset.address da
                   = (if UserReserveData.currentStableDebt d
                         + UserReserveData.currentVariableDebt d >? 0
                      then [asset] else [])
                /\ Forall (debt_entry c userAddress s1) da).
    { destruct (UserReserveData.currentStableDebt d
                + UserReserveData.currentVariableDebt d >? 0) eqn:Hdebt.
      - eexists. split; [reflexivity|]. split; [reflexivity|].
        constructor; [|constructor].
        exists d, info. cbn. apply Z.gtb_lt in Hdebt. repeat split; assumption.
      - exists []. rewrite app_nil_r. repeat split. constructor. }
    destruct ((UserReserveData.currentATokenBalance d >? 0)
              && UserReserveData.usageAsCollateralEnabled d) eqn:Hcoll.
    + apply eff_bind_Ok in Hcs. destruct Hcs as (threshold & s3 & Ht & Hcs).
      apply eff_lift_Ok in Ht. destruct Ht as [Ht ->].
      apply eff_bind_Ok in Hcs. destruct Hcs as (bonus & s3 & Hb & Hcs).
      apply eff_lift_Ok in Hb. destruct Hb as [Hb ->].
      apply eff_ret_Ok in Hcs. destruct Hcs as [-> ->].
      split; [exact Hgrow|]. split; [|exact Hdebt].
      eexists. split; [reflexivity|]. split; [reflexivity|].
      constructor; [|constructor].
      apply andb_true_iff in Hcoll. destruct Hcoll as [Hpos Husage].
      apply Z.gtb_lt in Hpos.
      exists d, info, threshold, bonus. cbn. repeat split; assumption.
    + apply eff_ret_Ok in Hcs. destruct Hcs as [-> ->].
      split; [exact Hgrow|]. split; [|exact Hdebt].
      exists []. rewrite app_nil_r. repeat split. constructor.
  - apply eff_ret_Ok in H. destruct H as [Hpair ->]. injection Hpair as -> ->.
    apply orb_false_iff in Hany. destruct Hany as [Hany Hvar].
    apply orb_false_iff in Hany. destruct Hany as [Hbal Hstable].
    rewrite Hbal. cbn [andb].
    assert (Hnone : (UserReserveData.currentStableDebt d
                     + UserReserveData.currentVariableDebt d >? 0) = false).
    { rewrite Z.gtb_ltb in *. apply Z.ltb_ge. apply Z.ltb_ge in Hstable, Hvar. lia. }
    rewrite Hnone.
    split; [apply caches_grow_refl|].
    split; exists []; rewrite app_nil_r; repeat split; constructor.
Qed.

Lemma collect_reserves_Ok c userAddress reserves :
  forall cs ds s cs' ds' s',
    Eff.for_fold reserves (cs, ds) (HealthFactorMonitor.collect_reserve c userAddress) s
    = (Ok (cs', ds'), s') ->
    caches_grow s s'
    /\ (exists ca,
          cs' = (cs ++ ca)%list
          /\ map Asset.address ca = List.filter (holdsCollateral c userAddress) reserves
          /\ Forall (collateral_entry c userAddress s') ca)
    /\ (exists da,
          ds' = (ds ++ da)%list
          /\ map Asset.address da = List.filter (owes c userAddress) reserves
          /\ Forall (debt_entry c userAddress s') da).
Proof.
  induction reserves as [|asset reserves IH]; intros cs ds s cs' ds' s' H; simpl in H.
  - apply eff_ret_Ok in H. destruct H as [Hpair ->]. injection Hpair as -> ->.
    split; [apply caches_grow_refl|].
    split; exists []; rewrite app_nil_r; repeat split; constructor.
  - apply eff_bind_Ok in H. destruct H as ([cs1 ds1] & s1 & Hstep & Hrest).
    apply collect_reserve_Ok in Hstep.
    destruct Hstep as (Hgrow1 & (ca1 & -> & Hca1 & Hce1) & (da1 & -> & Hda1 & Hde1)).
    apply IH in Hrest.
    destruct Hrest as (Hgrow2 & (ca2 & -> & Hca2 & Hce2) & (da2 & -> & Hda2 & Hde2)).
    split; [eapply caches_grow_trans; eassumption|].
    split.
    + exists (ca1 ++ ca2)%list. rewrite app_assoc. split; [reflexivity|].
      split.
      * rewrite map_app, Hca1, Hca2. cbn [List.filter].
        destruct (holdsCollateral c userAddress asset); reflexivity.
      * apply Forall_app. split; [|exact Hce2].
        eapply List.Forall_impl; [|exact Hce1].
        intros a. apply collateral_entry_grow. exact Hgrow2.
    + exists (da1 ++ da2)%list. rewrite app_assoc. split; [reflexivity|].
      split.
      * rewrite map_app, Hda1, Hda2. cbn [List.filter].
        destruct (owes c userAddress asset); reflexivity.
      * apply Forall_app. split; [|exact Hde2].
        eapply List.Forall_impl; [|exact Hde1].
        intros a. apply debt_entry_grow. exact Hgrow2.
Qed.

Lemma getUserDetailedPosition_Ok c userAddress s target s' :
  HealthFactorMonitor.getUserDetailedPosition c userAddress s = (Ok target, s') ->
  caches_grow s s'
  /\ LiquidationTarget.user target = userAddress
  /\ (exists data eMode,
        Chain.getUserAccountData c userAddress = Ok data
        /\ Chain.getUserEMode c userAddress = Ok eMode
        /\ Z.abs eMode < 2 ^ 53
        /\ LiquidationTarget.healthFactor target = UserAccountData.healthFactor data
        /\ LiquidationTarget.totalCollateralBase target
           = UserAccountData.totalCollateralBase data
        /\ LiquidationTarget.totalDebtBase target = UserAccountData.totalDebtBase data
        /\ LiquidationTarget.eModeCategoryId target = eMode)
  /\ map Asset.address (LiquidationTarget.collateralAssets target)
     = List.filter (holdsCollateral c userAddress) (HealthFactorMonitor.reservesList s)
  /\ map Asset.address (LiquidationTarget.debtAssets target)
     = List.filter (owes c userAddress) (HealthFactorMonitor.reservesList s)
  /\ Forall (collateral_entry c userAddress s') (LiquidationTarget.collateralAssets target)
  /\ Forall (debt_entry c userAddress s') (LiquidationTarget.debtAssets target).
Proof.
  unfold HealthFactorMonitor.getUserDetailedPosition, HealthFactorMonitor.getUserAccountData.
  intros H.
  apply eff_bind_Ok in H. destruct H as (accountData & s1 & Haccount & H).
  apply eff_bind_Ok in Haccount. destruct Haccount as (data & s2 & Hdata & Hret).
  apply eff_lift_Ok in Hdata. destruct Hdata as [Hdata ->].
  apply eff_ret_Ok in Hret. destruct Hret as [-> ->].
  apply eff_bind_Ok in H. destruct H as (eMode & s1 & HeMode & H).
  apply eff_lift_Ok in HeMode. destruct HeMode as [HeMode ->].
  apply eff_bind_Ok in H. destruct H as (s0 & s1 & Hget & H).
  apply eff_get_Ok in Hget. destruct Hget as [-> ->].
  apply eff_bind_Ok in H. destruct H as ([cs ds] & s1 & Hloop & H).
  apply eff_bind_Ok in H. destruct H as (n & s2 & Hn & H).
  apply eff_lift_Ok in Hn. destruct Hn as [Hn ->].
  apply eff_ret_Ok in H. destruct H as [-> ->].
  apply collect_reserves_Ok in Hloop.
  destruct Hloop as (Hgrow & (ca & Hcs & Hca & Hce) & (da & Hds & Hda & Hde)).
  cbn [app] in Hcs, Hds. subst cs ds.
  unfold HealthFactorMonitor.toNumber in Hn.
  destruct (Z.abs eMode <? 2 ^ 53) eqn:Hsafe; [|discriminate].
  injection Hn as <-. apply Z.ltb_lt in Hsafe.
  cbn. split; [exact Hgrow|]. split; [reflexivity|].
  split; [exists data, eMode; repeat split; assumption|].
  repeat split; assumption.
Qed.

(** X22: the position [getUserDetailedPosition] returns carries the
    account's health factor and totals and the E-mode category as the pool
    reports them.  Its collateral assets are exactly the reserves, in the
    order of the reserve list, of which the user holds a positive aToken
    balance enabled as collateral, each with that balance; its debt
    assets are exactly the reserves in which stable plus variable debt is
    positive, each with that sum.  So every asset listed is a reserve of
    the list, and none is listed twice on a side unless the list repeats
    it.  Symbol and decimals are those of the cached reserve info;
    threshold and bonus are converted from basis points on collateral
    entries and absent on debt entries.  The call leaves the monitored
    users and the reserve list as they were. *)
Theorem detailed_position_follows_reserve_list c userAddress s target s' :
  HealthFactorMonitor.getUserDetailedPosition c userAddress s = (Ok target, s') ->
  caches_grow s s'
  /\ LiquidationTarget.user target = userAddress
  /\ (exists data eMode,
        Chain.getUserAccountData c userAddress = Ok data
        /\ Chain.getUserEMode c userAddress = Ok eMode
        /\ Z.abs eMode < 2 ^ 53
        /\ LiquidationTarget.healthFactor target = UserAccountData.healthFactor data
        /\ LiquidationTarget.totalCollateralBase target
           = UserAccountData.totalCollateralBase data
        /\ LiquidationTarget.totalDebtBase target = UserAccountData.totalDebtBase data
        /\ LiquidationTarget.eModeCategoryId target = eMode)
  /\ map Asset.address (LiquidationTarget.collateralAssets target)
     = List.filter (holdsCollateral c userAddress) (HealthFactorMonitor.reservesList s)
  /\ map Asset.address (LiquidationTarget.debtAssets target)
     = List.filter (owes c userAddress) (HealthFactorMonitor.reservesList s)
  /\ Forall (collateral_entry c userAddress s') (LiquidationTarget.collateralAssets target)
  /\ Forall (debt_entry c userAddress s') (LiquidationTarget.debtAssets target)
  /\ Forall (fun a => In (Asset.address a) (HealthFactorMonitor.reservesList s))
       (LiquidationTarget.collateralAssets target ++ LiquidationTarget.debtAssets target)%list
  /\ (List.NoDup (HealthFactorMonitor.reservesList s) ->
      List.NoDup (map Asset.address (LiquidationTarget.collateralAssets target))
      /\ List.NoDup (map Asset.address (LiquidationTarget.debtAssets target))).
Proof.
  intros Hrun. apply getUserDetailedPosition_Ok in Hrun.
  destruct Hrun as (Hgrow & Huser & Haccount & Hcollateral & Hdebt & Hce & Hde).
  repeat (split; [assumption|]). split.
  - apply Forall_app. split; apply List.Forall_forall; intros a Ha.
    + assert (Hin : In (Asset.address a)
                      (map Asset.address (LiquidationTarget.collateralAssets target)))
        by (apply in_map; exact Ha).
      rewrite Hcollateral in Hin. apply filter_In in Hin. apply Hin.
    + assert (Hin : In (Asset.address a)
                      (map Asset.address (LiquidationTarget.debtAssets target)))
        by (apply in_map; exact Ha).
      rewrite Hdebt in Hin. apply filter_In in Hin. apply Hin.
  - intros Hnodup. rewrite Hcollateral, Hdebt.
    split; apply List.NoDup_filter; exact Hnodup.
Qed.

Lemma detailed_position_follows_reserve_list_witness :
  match HealthFactorMonitor.getUserDetailedPosition Cases.chain Scenario.borrower
          Cases.initialized with
  | (Ok target, _) =>
      map Asset.address (LiquidationTarget.collateralAssets target) = [PriceMonitor.DAI]
      /\ map Asset.address (LiquidationTarget.debtAssets target) = [PriceMonitor.WETH]
  | (Throw _, _) => False
  end.
Proof.
  assert (Hf : match fst (HealthFactorMonitor.getUserDetailedPosition Cases.chain
                            Scenario.borrower Cases.initialized) with
               | Ok _ => true
               | Throw _ => false
               end = true) by (vm_compute; reflexivity).
  destruct (HealthFactorMonitor.getUserDetailedPosition Cases.chain Scenario.borrower
              Cases.initialized) as [[target|msg] s'] eqn:E; [|discriminate Hf].
  destruct (detailed_position_follows_reserve_list _ _ _ _ _ E)
    as (_ & _ & _ & Hc & Hd & _).
  rewrite Hc, Hd. split; vm_compute; reflexivity.
Defined.

(** *** The monitored users *)

Lemma map_get_set_eq {V} key (value : V) m :
  HealthFactorMonitor.map_get key (HealthFactorMonitor.map_set key value m) = Some value.
Proof.
  induction m as [|[k v] m IH]; simpl.
  - rewrite String.eqb_refl. reflexivity.
  - destruct (String.eqb k key) eqn:Hk; simpl; rewrite Hk; [reflexivity | exact IH].
Qed.

Lemma map_get_set_ne {V} key other (value : V) m :
  other <> key ->
  HealthFactorMonitor.map_get other (HealthFactorMonitor.map_set key value m)
  = HealthFactorMonitor.map_get other m.
Proof.
  intros Hne. induction m as [|[k v] m IH]; simpl.
  - destruct (String.eqb_spec key other); [congruence | reflexivity].
  - destruct (String.eqb_spec k key) as [->|Hk]; simpl.
    + destruct (String.eqb_spec key other); [congruence | reflexivity].
    + destruct (String.eqb k other); [reflexivity | exact IH].
Qed.

Lemma map_get_Some_In {V} key (value : V) m :
  HealthFactorMonitor.map_get key m = Some value -> In key (HealthFactorMonitor.map_keys m).
Proof.
  induction m as [|[k v] m IH]; simpl; [discriminate|].
  destruct (String.eqb_spec k key) as [->|Hk]; [left; reflexivity|].
  intros H. right. apply IH, H.
Qed.

Lemma map_keys_set_In {V} key (value : V) m :
  In key (HealthFactorMonitor.map_keys (HealthFactorMonitor.map_set key value m))
  /\ forall other, In other (HealthFactorMonitor.map_keys m) ->
       In other (HealthFactorMonitor.map_keys (HealthFactorMonitor.map_set key value m)).
Proof.
  induction m as [|[k v] m [IH1 IH2]]; simpl.
  - split; [left; reflexivity | intros other []].
  - destruct (String.eqb_spec k key) as [->|Hk]; simpl.
    + split; [left; reflexivity | intros other H; exact H].
    + split; [right; exact IH1|].
      intros other [H|H]; [left; exact H | right; apply IH2, H].
Qed.

(** An entry of the monitored users after a refresh: the same key, and
    the same target but for its health factor. *)
Definition refreshed (old new : string * LiquidationTarget.t) : Prop :=
  fst new = fst old
  /\ exists healthFactor,
       snd new = HealthFactorMonitor.with_healthFactor healthFactor (snd old).

Lemma refreshed_refl m : Forall2 refreshed m m.
Proof.
  induction m as [|[k t] m IH]; constructor; [|exact IH].
  split; [reflexivity|]. exists (LiquidationTarget.healthFactor t).
  destruct t. reflexivity.
Qed.

Lemma refreshed_trans m1 m2 m3 :
  Forall2 refreshed m1 m2 -> Forall2 refreshed m2 m3 -> Forall2 refreshed m1 m3.
Proof.
  intros H12. revert m3. induction H12 as [|x y m1 m2 Hxy H12 IH]; intros m3 H23.
  - inversion H23. constructor.
  - inversion H23 as [|y' z m2' m3' Hyz H23']; subst. constructor; [|apply IH, H23'].
    destruct Hxy as (Hk1 & h1 & Ht1), Hyz as (Hk2 & h2 & Ht2).
    split; [congruence|]. exists h2. rewrite Ht2, Ht1. reflexivity.
Qed.

Lemma refreshed_set key healthFactor current m :
  HealthFactorMonitor.map_get key m = Some current ->
  Forall2 refreshed m
    (HealthFactorMonitor.map_set key
       (HealthFactorMonitor.with_healthFactor healthFactor current) m).
Proof.
  induction m as [|[k t] m IH]; simpl; [discriminate|].
  destruct (String.eqb k key).
  - intros H. injection H as ->. constructor; [|apply refreshed_refl].
    split; [reflexivity|]. exists healthFactor. reflexivity.
  - intros H. constructor; [|apply IH, H].
    split; [reflexivity|]. exists (LiquidationTarget.healthFactor t). destruct t. reflexivity.
Qed.

Lemma refreshed_keys m m' :
  Forall2 refreshed m m' -> HealthFactorMonitor.map_keys m' = HealthFactorMonitor.map_keys m.
Proof.
  induction 1 as [|x y m m' (Hk & _) H IH]; [reflexivity|].
  unfold HealthFactorMonitor.map_keys in *. simpl. rewrite Hk, IH. reflexivity.
Qed.

(** A computation that leaves the monitored users and the reserve list
    as they were, whether it returns or throws. *)
Definition keeps_users {A} (c : Eff.T HealthFactorMonitor.t A) : Prop :=
  forall s,
    HealthFactorMonitor.monitoredUsers (snd (c s)) = HealthFactorMonitor.monitoredUsers s
    /\ HealthFactorMonitor.reservesList (snd (c s)) = HealthFactorMonitor.reservesList s.

Lemma keeps_users_ret {A} (a : A) : keeps_users (Eff.ret a).
Proof. intros s. split; reflexivity. Qed.

Lemma keeps_users_lift {A} (r : result A) : keeps_users (Eff.lift r).
Proof. intros s. split; reflexivity. Qed.

Lemma keeps_users_get : keeps_users Eff.get.
Proof. intros s. split; reflexivity. Qed.

Lemma keeps_users_bind {A B} (c : Eff.T HealthFactorMonitor.t A)
    (k : A -> Eff.T HealthFactorMonitor.t B) :
  keeps_users c -> (forall a, keeps_users (k a)) -> keeps_users (Eff.bind c k).
Proof.
  intros Hc Hk s. unfold Eff.bind. destruct (Hc s) as [H1 H2].
  destruct (c s) as [[a|msg] s1]; simpl in *.
  - destruct (Hk a s1) as [H3 H4]. split; congruence.
  - split; assumption.
Qed.

Lemma keeps_users_for_fold {A B} (xs : list A) (body : B -> A -> Eff.T HealthFactorMonitor.t B)
    acc :
  (forall b a, keeps_users (body b a)) -> keeps_users (Eff.for_fold xs acc body).
Proof.
  intros Hbody. revert acc. induction xs as [|x xs IH]; intros acc; simpl.
  - apply keeps_users_ret.
  - apply keeps_users_bind; [apply Hbody | intros; apply IH].
Qed.

Lemma keeps_users_getReserveInfo c asset :
  keeps_users (HealthFactorMonitor.getReserveInfo c asset).
Proof.
  intros s.
  destruct (HealthFactorMonitor.getReserveInfo c asset s) as [[info|msg] s'] eqn:H; simpl.
  - apply getReserveInfo_Ok in H. destruct H as (_ & H1 & H2 & _). split; assumption.
  - apply getReserveInfo_Throw in H. subst. split; reflexivity.
Qed.

Ltac keeps_users_steps :=
  repeat first
    [ apply keeps_users_ret
    | apply keeps_users_lift
    | apply keeps_users_get
    | apply keeps_users_getReserveInfo
    | apply keeps_users_for_fold; intros ? ?
    | apply keeps_users_bind; [|intros ?]
    | match goal with
      | |- keeps_users (if ?b then _ else _) => destruct b
      end
    | progress cbv zeta ].

Lemma keeps_users_getUserAccountData c userAddress :
  keeps_users (HealthFactorMonitor.getUserAccountData c userAddress).
Proof. unfold HealthFactorMonitor.getUserAccountData. keeps_users_steps. Qed.

Lemma keeps_users_getUserDetailedPosition c userAddress :
  keeps_users (HealthFactorMonitor.getUserDetailedPosition c userAddress).
Proof.
  unfold HealthFactorMonitor.getUserDetailedPosition, HealthFactorMonitor.collect_reserve.
  repeat first [apply keeps_users_getUserAccountData | keeps_users_steps].
Qed.

Lemma getUserAccountData_run c userAddress s :
  HealthFactorMonitor.getUserAccountData c userAddress s
  = (match Chain.getUserAccountData c userAddress with
     | Ok data =>
         Ok (UserAccountData.mk
               (UserAccountData.totalCollateralBase data)
               (UserAccountData.totalDebtBase data)
               (UserAccountData.availableBorrowsBase data)
               (UserAccountData.currentLiquidationThreshold data)
               (UserAccountData.ltv data)
               (UserAccountData.healthFactor data)
               userAddress)
     | Throw msg => Throw msg
     end, s).
Proof.
  unfold HealthFactorMonitor.getUserAccountData, Eff.bind, Eff.lift, Eff.ret.
  destruct (Chain.getUserAccountData c userAddress); reflexivity.
Qed.

(** One turn of the loop of [getLiquidatablePositions]. *)
Lemma refresh_step th c acc address s :
  exists acc' s',
    Eff.try_catch (HealthFactorMonitor.refresh_address th c acc address)
      (fun _ => Eff.ret acc) s = (Ok acc', s')
    /\ HealthFactorMonitor.reservesList s' = HealthFactorMonitor.reservesList s
    /\ HealthFactorMonitor.monitoredUsers s'
       = match Chain.getUserAccountData c address,
               HealthFactorMonitor.map_get address (HealthFactorMonitor.monitoredUsers s) with
         | Ok data, Some current =>
             HealthFactorMonitor.map_set address
               (HealthFactorMonitor.with_healthFactor (UserAccountData.healthFactor data)
                  current)
               (HealthFactorMonitor.monitoredUsers s)
         | _, _ => HealthFactorMonitor.monitoredUsers s
         end
    /\ (acc' = acc
        \/ exists position data,
             acc' = (acc ++ [position])%list
             /\ LiquidationTarget.user position = address
             /\ Chain.getUserAccountData c address = Ok data
             /\ LiquidationTarget.healthFactor position = UserAccountData.healthFactor data
             /\ LiquidationTarget.healthFactor position
                < HealthFactorMonitor.healthFactorLiquidationThreshold th
             /\ HealthFactorMonitor.map_get address (HealthFactorMonitor.monitoredUsers s)
                <> None).
Proof.
  unfold Eff.try_catch, HealthFactorMonitor.refresh_address.
  unfold Eff.bind at 1. rewrite getUserAccountData_run.
  destruct (Chain.getUserAccountData c address) as [data|msg] eqn:Hdata.
  2:{ exists acc, s. repeat split. left. reflexivity. }
  unfold Eff.bind at 1. unfold Eff.get at 1. cbn [UserAccountData.healthFactor].
  destruct (HealthFactorMonitor.map_get address (HealthFactorMonitor.monitoredUsers s))
    as [current|] eqn:Hcurrent.
  2:{ exists acc, s. repeat split. left. reflexivity. }
  unfold Eff.bind at 1. unfold Eff.modify at 1.
  destruct (UserAccountData.healthFactor data
            <? HealthFactorMonitor.healthFactorLiquidationThreshold th) eqn:Hlow.
  2:{ eexists _, _. split; [reflexivity|]. repeat split. left. reflexivity. }
  apply Z.ltb_lt in Hlow.
  unfold Eff.bind.
  match goal with
  | |- context [HealthFactorMonitor.getUserDetailedPosition c address ?s0] =>
      pose proof (keeps_users_getUserDetailedPosition c address s0) as [Hmon Hres];
      destruct (HealthFactorMonitor.getUserDetailedPosition c address s0)
        as [[position|msg] s1] eqn:Hposition
  end; simpl in Hmon, Hres.
  - apply getUserDetailedPosition_Ok in Hposition.
    destruct Hposition as (_ & Huser & (data' & eMode & Hdata' & _ & _ & Hhf & _) & _).
    rewrite Hdata in Hdata'. injection Hdata' as <-.
    eexists _, s1. split; [reflexivity|]. split; [exact Hres|]. split; [exact Hmon|].
    right. exists position, data. repeat split; try assumption; [lia | discriminate].
  - exists acc, s1. split; [reflexivity|]. split; [exact Hres|]. split; [exact Hmon|].
    left. reflexivity.
Qed.

Lemma refresh_loop th c addresses :
  forall acc s,
  exists positions s',
    Eff.for_fold addresses acc
      (fun liquidatablePositions address =>
         Eff.try_catch
           (HealthFactorMonitor.refresh_address th c liquidatablePositions address)
           (fun _ => Eff.ret liquidatablePositions)) s = (Ok positions, s')
    /\ HealthFactorMonitor.reservesList s' = HealthFactorMonitor.reservesList s
    /\ Forall2 refreshed (HealthFactorMonitor.monitoredUsers s)
         (HealthFactorMonitor.monitoredUsers s')
    /\ (forall a, ~ In a addresses ->
          HealthFactorMonitor.map_get a (HealthFactorMonitor.monitoredUsers s')
          = HealthFactorMonitor.map_get a (HealthFactorMonitor.monitoredUsers s))
    /\ (forall a data target,
          In a addresses ->
          Chain.getUserAccountData c a = Ok data ->
          HealthFactorMonitor.map_get a (HealthFactorMonitor.monitoredUsers s') = Some target ->
          LiquidationTarget.healthFactor target = UserAccountData.healthFactor data)
    /\ exists added,
         positions = (acc ++ added)%list
         /\ Forall (fun p =>
                      In (LiquidationTarget.user p) addresses
                      /\ HealthFactorMonitor.map_get (LiquidationTarget.user p)
                           (HealthFactorMonitor.monitoredUsers s) <> None
                      /\ LiquidationTarget.healthFactor p
                         < HealthFactorMonitor.healthFactorLiquidationThreshold th)
              added.
Proof.
  induction addresses as [|x xs IH]; intros acc s.
  - exists acc, s. split; [reflexivity|]. split; [reflexivity|].
    split; [apply refreshed_refl|]. split; [reflexivity|].
    split; [intros a data target []|].
    exists []. rewrite app_nil_r. split; [reflexivity | constructor].
  - destruct (refresh_step th c acc x s) as (acc1 & s1 & Hstep & Hres1 & Hmon1 & Hacc1).
    destruct (IH acc1 s1) as (positions & s' & Hrest & Hres & Hrefreshed & Hother & Hhf
                              & added & Hpositions & Hadded).
    exists positions, s'.
    split; [cbn [Eff.for_fold]; unfold Eff.bind; rewrite Hstep; exact Hrest|].
    split; [congruence|].
    assert (Hstep_refreshed : Forall2 refreshed (HealthFactorMonitor.monitoredUsers s)
                                (HealthFactorMonitor.monitoredUsers s1)).
    { rewrite Hmon1. destruct (Chain.getUserAccountData c x) as [data|msg];
        [|apply refreshed_refl].
      destruct (HealthFactorMonitor.map_get x (HealthFactorMonitor.monitoredUsers s))
        as [current|] eqn:Hcurrent; [|apply refreshed_refl].
      apply refreshed_set. exact Hcurrent. }
    assert (Hstep_other : forall a, a <> x ->
              HealthFactorMonitor.map_get a (HealthFactorMonitor.monitoredUsers s1)
              = HealthFactorMonitor.map_get a (HealthFactorMonitor.monitoredUsers s)).
    { intros a Ha. rewrite Hmon1. destruct (Chain.getUserAccountData c x) as [data|msg];
        [|reflexivity].
      destruct (HealthFactorMonitor.map_get x (HealthFactorMonitor.monitoredUsers s))
        as [current|]; [|reflexivity].
      apply map_get_set_ne. exact Ha. }
    split; [eapply refreshed_trans; eassumption|].
    split.
    { intros a Ha. rewrite Hother by (intros Hin; apply Ha; right; exact Hin).
      apply Hstep_other. intros ->. apply Ha. left. reflexivity. }
    split.
    { intros a data target Ha Hdata Htarget.
      destruct (in_dec string_dec a xs) as [Hin|Hnotin];
        [exact (Hhf a data target Hin Hdata Htarget)|].
      destruct Ha as [<-|Ha]; [|contradiction].
      rewrite (Hother x Hnotin), Hmon1, Hdata in Htarget.
      destruct (HealthFactorMonitor.map_get x (HealthFactorMonitor.monitoredUsers s))
        as [current|] eqn:Hcurrent.
      - rewrite map_get_set_eq in Htarget. injection Htarget as <-. reflexivity.
      - rewrite Hcurrent in Htarget. discriminate Htarget. }
    assert (Hadded' : Forall (fun p =>
                        In (LiquidationTarget.user p) (x :: xs)
                        /\ HealthFactorMonitor.map_get (LiquidationTarget.user p)
                             (HealthFactorMonitor.monitoredUsers s) <> None
                        /\ LiquidationTarget.healthFactor p
                           < HealthFactorMonitor.healthFactorLiquidationThreshold th)
                        added).
    { eapply List.Forall_impl; [|exact Hadded].
      intros p (Hin & Hknown & Hlow). split; [right; exact Hin|]. split; [|exact Hlow].
      destruct (string_dec (LiquidationTarget.user p) x) as [Hx|Hx].
      - rewrite Hx in *. intros Hnone. apply Hknown. rewrite Hmon1, Hnone.
        destruct (Chain.getUserAccountData c x) as [data|msg]; exact Hnone.
      - rewrite (Hstep_other _ Hx) in Hknown. exact Hknown. }
    destruct Hacc1 as [->|(position & data & -> & Huser & _ & _ & Hlow & Hknown)].
    + exists added. split; assumption.
    + exists (position :: added). split; [rewrite Hpositions, <- app_assoc; reflexivity|].
      constructor; [|exact Hadded'].
      rewrite Huser. split; [left; reflexivity|]. split; assumption.
Qed.

(** X23: [getLiquidatablePositions] never throws.  It leaves the
    monitored users with the same keys in the same order and changes
    nothing in a stored target but its health factor, which afterwards is
    the one the pool reports for every user whose account data could be
    read.  Every position returned belongs to a monitored user and has a
    health factor below the liquidation threshold. *)
Theorem getLiquidatablePositions_refreshes_health_factors th c s :
  exists positions s',
    HealthFactorMonitor.getLiquidatablePositions th c s = (Ok positions, s')
    /\ HealthFactorMonitor.reservesList s' = HealthFactorMonitor.reservesList s
    /\ HealthFactorMonitor.map_keys (HealthFactorMonitor.monitoredUsers s')
       = HealthFactorMonitor.map_keys (HealthFactorMonitor.monitoredUsers s)
    /\ Forall2 refreshed (HealthFactorMonitor.monitoredUsers s)
         (HealthFactorMonitor.monitoredUsers s')
    /\ (forall address data target,
          Chain.getUserAccountData c address = Ok data ->
          HealthFactorMonitor.map_get address (HealthFactorMonitor.monitoredUsers s')
          = Some target ->
          LiquidationTarget.healthFactor target = UserAccountData.healthFactor data)
    /\ Forall (fun p =>
                 In (LiquidationTarget.user p)
                    (HealthFactorMonitor.map_keys (HealthFactorMonitor.monitoredUsers s))
                 /\ LiquidationTarget.healthFactor p
                    < HealthFactorMonitor.healthFactorLiquidationThreshold th)
         positions.
Proof.
  unfold HealthFactorMonitor.getLiquidatablePositions.
  unfold Eff.bind at 1. unfold Eff.get at 1. cbv zeta.
  destruct (refresh_loop th c
              (HealthFactorMonitor.map_keys (HealthFactorMonitor.monitoredUsers s)) [] s)
    as (positions & s' & Hrun & Hres & Hrefreshed & _ & Hhf & added & Hpositions & Hadded).
  exists positions, s'. split; [exact Hrun|]. split; [exact Hres|].
  pose proof (refreshed_keys _ _ Hrefreshed) as Hkeys.
  split; [exact Hkeys|]. split; [exact Hrefreshed|]. split.
  - intros address data target Hdata Htarget.
    apply (Hhf address data target); try assumption.
    rewrite <- Hkeys. eapply map_get_Some_In. exact Htarget.
  - cbn [app] in Hpositions. subst positions.
    eapply List.Forall_impl; [|exact Hadded].
    intros p (Hin & _ & Hlow). split; assumption.
Qed.

(** One turn of the loop of [scanForLowHealthFactors]. *)
Lemma scan_step th c acc address s :
  exists acc' s',
    Eff.try_catch (HealthFactorMonitor.scan_address th c acc address)
      (fun _ => Eff.ret acc) s = (Ok acc', s')
    /\ HealthFactorMonitor.reservesList s' = HealthFactorMonitor.reservesList s
    /\ ((acc' = acc
         /\ HealthFactorMonitor.monitoredUsers s' = HealthFactorMonitor.monitoredUsers s)
        \/ exists position data threshold,
             acc' = (acc ++ [position])%list
             /\ HealthFactorMonitor.monitoredUsers s'
                = HealthFactorMonitor.map_set address position
                    (HealthFactorMonitor.monitoredUsers s)
             /\ LiquidationTarget.user position = address
             /\ Chain.getUserAccountData c address = Ok data
             /\ HealthFactorMonitor.healthFactorThreshold th = Ok threshold
             /\ LiquidationTarget.healthFactor position = UserAccountData.healthFactor data
             /\ LiquidationTarget.healthFactor position < threshold).
Proof.
  unfold Eff.try_catch, HealthFactorMonitor.scan_address.
  unfold Eff.bind at 1. rewrite getUserAccountData_run.
  destruct (Chain.getUserAccountData c address) as [data|msg] eqn:Hdata.
  2:{ exists acc, s. repeat split. left. split; reflexivity. }
  unfold Eff.bind at 1. unfold Eff.lift at 1. cbn [UserAccountData.healthFactor].
  destruct (HealthFactorMonitor.healthFactorThreshold th) as [threshold|msg] eqn:Hthreshold.
  2:{ exists acc, s. repeat split. left. split; reflexivity. }
  destruct (UserAccountData.healthFactor data <? threshold) eqn:Hlow.
  2:{ exists acc, s. repeat split. left. split; reflexivity. }
  apply Z.ltb_lt in Hlow.
  unfold Eff.bind at 1.
  pose proof (keeps_users_getUserDetailedPosition c address s) as [Hmon Hres].
  destruct (HealthFactorMonitor.getUserDetailedPosition c address s)
    as [[position|msg] s1] eqn:Hposition; simpl in Hmon, Hres.
  - apply getUserDetailedPosition_Ok in Hposition.
    destruct Hposition as (_ & Huser & (data' & eMode & Hdata' & _ & _ & Hhf & _) & _).
    rewrite Hdata in Hdata'. injection Hdata' as <-.
    unfold Eff.bind, Eff.modify, Eff.ret.
    eexists _, _. split; [reflexivity|]. split; [exact Hres|].
    right. exists position, data, threshold. cbn. rewrite Hmon.
    repeat split; try assumption. lia.
  - exists acc, s1. split; [reflexivity|]. split; [exact Hres|].
    left. split; [reflexivity | exact Hmon].
Qed.

Lemma scan_loop th c addresses :
  forall acc s,
  exists targets s',
    Eff.for_fold addresses acc
      (fun targets address =>
         Eff.try_catch (HealthFactorMonitor.scan_address th c targets address)
           (fun _ => Eff.ret targets)) s = (Ok targets, s')
    /\ HealthFactorMonitor.reservesList s' = HealthFactorMonitor.reservesList s
    /\ (forall a, ~ In a addresses ->
          HealthFactorMonitor.map_get a (HealthFactorMonitor.monitoredUsers s')
          = HealthFactorMonitor.map_get a (HealthFactorMonitor.monitoredUsers s))
    /\ (forall a, In a (HealthFactorMonitor.map_keys (HealthFactorMonitor.monitoredUsers s)) ->
          In a (HealthFactorMonitor.map_keys (HealthFactorMonitor.monitoredUsers s')))
    /\ exists added,
         targets = (acc ++ added)%list
         /\ Forall (fun p =>
                      In (LiquidationTarget.user p) addresses
                      /\ In (LiquidationTarget.user p)
                           (HealthFactorMonitor.map_keys
                              (HealthFactorMonitor.monitoredUsers s'))
                      /\ exists data threshold,
                           Chain.getUserAccountData c (LiquidationTarget.user p) = Ok data
                           /\ HealthFactorMonitor.healthFactorThreshold th = Ok threshold
                           /\ LiquidationTarget.healthFactor p
                              = UserAccountData.healthFactor data
                           /\ LiquidationTarget.healthFactor p < threshold)
              added.
Proof.
  induction addresses as [|x xs IH]; intros acc s.
  - exists acc, s. split; [reflexivity|]. split; [reflexivity|].
    split; [reflexivity|]. split; [auto|].
    exists []. rewrite app_nil_r. split; [reflexivity | constructor].
  - destruct (scan_step th c acc x s) as (acc1 & s1 & Hstep & Hres1 & Hacc1).
    destruct (IH acc1 s1) as (targets & s' & Hrest & Hres & Hother & Hkeys
                              & added & Htargets & Hadded).
    exists targets, s'.
    split; [cbn [Eff.for_fold]; unfold Eff.bind; rewrite Hstep; exact Hrest|].
    split; [congruence|].
    assert (Hadded' : Forall (fun p =>
                        In (LiquidationTarget.user p) (x :: xs)
                        /\ In (LiquidationTarget.user p)
                             (HealthFactorMonitor.map_keys
                                (HealthFactorMonitor.monitoredUsers s'))
                        /\ exists data threshold,
                             Chain.getUserAccountData c (LiquidationTarget.user p) = Ok data
                             /\ HealthFactorMonitor.healthFactorThreshold th = Ok threshold
                             /\ LiquidationTarget.healthFactor p
                                = UserAccountData.healthFactor data
                             /\ LiquidationTarget.healthFactor p < threshold)
                        added).
    { eapply List.Forall_impl; [|exact Hadded].
      intros p (Hin & Hrest'). split; [right; exact Hin | exact Hrest']. }
    destruct Hacc1 as [(-> & Hmon1)
                      |(position & data & threshold & -> & Hmon1 & Huser & Hdata
                        & Hthreshold & Hhf & Hlow)].
    + rewrite Hmon1 in *.
      split; [intros a Ha; apply Hother; intros Hin; apply Ha; right; exact Hin|].
      split; [exact Hkeys|].
      exists added. split; assumption.
    + split.
      { intros a Ha. rewrite Hother by (intros Hin; apply Ha; right; exact Hin).
        rewrite Hmon1. apply map_get_set_ne. intros ->. apply Ha. left. reflexivity. }
      split.
      { intros a Ha. apply Hkeys. rewrite Hmon1.
        apply (proj2 (map_keys_set_In x position _)). exact Ha. }
      exists (position :: added). split; [rewrite Htargets, <- app_assoc; reflexivity|].
      constructor; [|exact Hadded'].
      rewrite Huser. split; [left; reflexivity|]. split.
      * apply Hkeys. rewrite Hmon1. apply (proj1 (map_keys_set_In x position _)).
      * exists data, threshold. repeat split; assumption.
Qed.

(** X24: [scanForLowHealthFactors] never throws.  Every target it
    returns is one of the given addresses whose health factor, as the pool
    reports it, is below the monitoring threshold, and is among the
    monitored users afterwards.  No monitored user is dropped, and the
    entries of users that were not scanned are as they were.  An address
    whose account data cannot be read is skipped as if it had not been
    given; and when the configured threshold cannot be parsed, every
    address is skipped. *)
Theorem scanForLowHealthFactors_monitors_what_it_returns th c addresses s :
  (exists targets s',
     HealthFactorMonitor.scanForLowHealthFactors th c addresses s = (Ok targets, s')
     /\ HealthFactorMonitor.reservesList s' = HealthFactorMonitor.reservesList s
     /\ (forall a, ~ In a addresses ->
           HealthFactorMonitor.map_get a (HealthFactorMonitor.monitoredUsers s')
           = HealthFactorMonitor.map_get a (HealthFactorMonitor.monitoredUsers s))
     /\ (forall a, In a (HealthFactorMonitor.map_keys (HealthFactorMonitor.monitoredUsers s)) ->
           In a (HealthFactorMonitor.map_keys (HealthFactorMonitor.monitoredUsers s')))
     /\ Forall (fun p =>
                  In (LiquidationTarget.user p) addresses
                  /\ In (LiquidationTarget.user p)
                       (HealthFactorMonitor.map_keys (HealthFactorMonitor.monitoredUsers s'))
                  /\ exists data threshold,
                       Chain.getUserAccountData c (LiquidationTarget.user p) = Ok data
                       /\ HealthFactorMonitor.healthFactorThreshold th = Ok threshold
                       /\ LiquidationTarget.healthFactor p = UserAccountData.healthFactor data
                       /\ LiquidationTarget.healthFactor p < threshold)
          targets)
  /\ (forall address msg,
        Chain.getUserAccountData c address = Throw msg ->
        HealthFactorMonitor.scanForLowHealthFactors th c (address :: addresses) s
        = HealthFactorMonitor.scanForLowHealthFactors th c addresses s)
  /\ (forall msg,
        HealthFactorMonitor.healthFactorThreshold th = Throw msg ->
        HealthFactorMonitor.scanForLowHealthFactors th c addresses s = (Ok [], s)).
Proof.
  unfold HealthFactorMonitor.scanForLowHealthFactors. split; [|split].
  - destruct (scan_loop th c addresses [] s)
      as (targets & s' & Hrun & Hres & Hother & Hkeys & added & Htargets & Hadded).
    cbn [app] in Htargets. subst added.
    exists targets, s'. repeat split; assumption.
  - intros address msg Hdata. cbn [Eff.for_fold]. unfold Eff.bind at 1.
    unfold Eff.try_catch at 1. unfold HealthFactorMonitor.scan_address at 1.
    unfold Eff.bind at 1. rewrite getUserAccountData_run, Hdata. reflexivity.
  - intros msg Hthreshold. induction addresses as [|x xs IH]; [reflexivity|].
    cbn [Eff.for_fold]. unfold Eff.bind at 1.
    unfold Eff.try_catch at 1. unfold HealthFactorMonitor.scan_address at 1.
    unfold Eff.bind at 1. rewrite getUserAccountData_run.
    destruct (Chain.getUserAccountData c x); [|exact IH].
    unfold Eff.bind at 1. unfold Eff.lift at 1. rewrite Hthreshold. exact IH.
Qed.

(** *** Basis points *)

(** The basis points the estimate uses for a bonus the monitor stored. *)
Definition bonusBps_of (bps : Z) : result Z :=
  BigNumber.from_floor
    (Number.or_default (Some (HealthFactorMonitor.fromBasisPoints bps)) 1.05 * 10000).

Definition within_a_point (bps : Z) : bool :=
  match bonusBps_of bps with
  | Ok b => (bps - 1 <=? b) && (b <=? bps)
  | Throw _ => false
  end.

(** [f] holds on the [n] integers from [from] on. *)
Fixpoint holds_from (f : Z -> bool) (n : nat) (from : Z) : bool :=
  match n with
  | O => true
  | S n' => f from && holds_from f n' (from + 1)
  end.

Lemma holds_from_spec f n :
  forall from, holds_from f n from = true ->
  forall z, from <= z < from + Z.of_nat n -> f z = true.
Proof.
  induction n as [|n IH]; intros from H z Hz; [lia|].
  cbn [holds_from] in H. apply andb_true_iff in H. destruct H as [Hfrom Hrest].
  destruct (Z.eq_dec z from) as [->|Hne]; [exact Hfrom|].
  apply (IH (from + 1) Hrest). lia.
Qed.

Lemma within_a_point_all : holds_from within_a_point (Z.to_nat 65535) 1 = true.
Proof. vm_compute. reflexivity. Qed.

(** X25: a liquidation bonus goes from basis points to a number in the
    monitor ([n / 10000]) and back to basis points in the estimate
    ([Math.floor(x * 10000)]).  For every bonus from 1 to 65535 basis
    points the estimate gets the same figure or one basis point less,
    never more and never an error; the loss does occur, for 10050. *)
Theorem bonus_round_trip_loses_at_most_a_point bps :
  1 <= bps <= 65535 ->
  exists b, bonusBps_of bps = Ok b /\ bps - 1 <= b <= bps.
Proof.
  intros Hrange.
  pose proof (holds_from_spec _ _ _ within_a_point_all bps) as Hall.
  rewrite Z2Nat.id in Hall by lia.
  specialize (Hall ltac:(lia)). unfold within_a_point in Hall.
  destruct (bonusBps_of bps) as [b|msg]; [|discriminate Hall].
  exists b. split; [reflexivity|]. lia.
Qed.

Lemma bonus_round_trip_loses_at_most_a_point_witness :
  bonusBps_of 10050 = Ok 10049
  /\ exists b, bonusBps_of 10050 = Ok b /\ 10050 - 1 <= b <= 10050.
Proof.
  split; [vm_compute; reflexivity|].
  apply bonus_round_trip_loses_at_most_a_point. lia.
Defined.

(** *** Positions from cached reserves *)

(** Two computations that do the same from [s] and leave it as it is. *)
Definition same_and_still {S A} (c c' : Eff.T S A) (s : S) : Prop :=
  c s = c' s /\ snd (c s) = s.

Lemma same_and_still_ret {S A} (a : A) (s : S) : same_and_still (Eff.ret a) (Eff.ret a) s.
Proof. split; reflexivity. Qed.

Lemma same_and_still_lift {S A} (r r' : result A) (s : S) :
  r = r' -> same_and_still (Eff.lift r) (Eff.lift r') s.
Proof. intros ->. split; reflexivity. Qed.

Lemma same_and_still_get {S} (s : S) : same_and_still Eff.get Eff.get s.
Proof. split; reflexivity. Qed.

Lemma same_and_still_bind {S A B} (c c' : Eff.T S A) (k k' : A -> Eff.T S B) s :
  same_and_still c c' s ->
  (forall a, c s = (Ok a, s) -> same_and_still (k a) (k' a) s) ->
  same_and_still (Eff.bind c k) (Eff.bind c' k') s.
Proof.
  intros [Hsame Hstill] Hk. unfold same_and_still, Eff.bind. rewrite <- Hsame.
  destruct (c s) as [[a|msg] s1]; simpl in Hstill; subst s1;
    [apply Hk; reflexivity|].
  split; reflexivity.
Qed.

Lemma same_and_still_getReserveInfo c c' asset s :
  (exists info, HealthFactorMonitor.reservesData s !! asset = Some info) ->
  same_and_still (HealthFactorMonitor.getReserveInfo c asset)
    (HealthFactorMonitor.getReserveInfo c' asset) s.
Proof.
  intros (info & Hinfo). unfold same_and_still.
  rewrite !(getReserveInfo_cached _ _ _ _ Hinfo). split; reflexivity.
Qed.

Lemma collect_reserve_cached c c' userAddress assets asset s :
  (exists info, HealthFactorMonitor.reservesData s !! asset = Some info) ->
  Chain.getUserReserveData c asset userAddress = Chain.getUserReserveData c' asset userAddress ->
  same_and_still (HealthFactorMonitor.collect_reserve c userAddress assets asset)
    (HealthFactorMonitor.collect_reserve c' userAddress assets asset) s.
Proof.
  intros Hinfo Hsame. unfold HealthFactorMonitor.collect_reserve. cbv zeta.
  apply same_and_still_bind; [apply same_and_still_lift, Hsame|]. intros d _.
  destruct (_ || _ || _); [|apply same_and_still_ret].
  apply same_and_still_bind; [apply same_and_still_getReserveInfo, Hinfo|]. intros info _.
  apply same_and_still_bind; [|intros; apply same_and_still_ret].
  destruct (_ && _); [|apply same_and_still_ret].
  apply same_and_still_bind; [apply same_and_still_lift; reflexivity|]. intros threshold _.
  apply same_and_still_bind; [apply same_and_still_lift; reflexivity|]. intros bonus _.
  apply same_and_still_ret.
Qed.

Lemma collect_reserves_cached c c' userAddress reserves s :
  (forall asset, In asset reserves ->
     (exists info, HealthFactorMonitor.reservesData s !! asset = Some info)
     /\ Chain.getUserReserveData c asset userAddress
        = Chain.getUserReserveData c' asset userAddress) ->
  forall assets,
    same_and_still
      (Eff.for_fold reserves assets (HealthFactorMonitor.collect_reserve c userAddress))
      (Eff.for_fold reserves assets (HealthFactorMonitor.collect_reserve c' userAddress)) s.
Proof.
  induction reserves as [|asset reserves IH]; intros Hall assets;
    [apply same_and_still_ret|].
  destruct (Hall asset (or_introl eq_refl)) as [Hcached Hsame].
  cbn [Eff.for_fold]. apply same_and_still_bind.
  - apply collect_reserve_cached; assumption.
  - intros assets1 _. apply IH. intros a Ha. apply Hall. right. exact Ha.
Qed.

(** X26: once the info of every reserve of the list is cached, as it
    is after [initialize], [getUserDetailedPosition] reads nothing about
    the reserves from the chain and leaves the monitor's state exactly as
    it was, whether it returns or throws: on two chains that give the same
    account data, E-mode category and reserve balances for the user it
    gives the same outcome, whatever they would answer about the reserves'
    configuration, symbols and decimals. *)
Theorem detailed_position_reads_cached_reserves c c' userAddress s :
  (forall asset, In asset (HealthFactorMonitor.reservesList s) ->
     exists info, HealthFactorMonitor.reservesData s !! asset = Some info) ->
  Chain.getUserAccountData c userAddress = Chain.getUserAccountData c' userAddress ->
  Chain.getUserEMode c userAddress = Chain.getUserEMode c' userAddress ->
  (forall asset, Chain.getUserReserveData c asset userAddress
                 = Chain.getUserReserveData c' asset userAddress) ->
  HealthFactorMonitor.getUserDetailedPosition c userAddress s
  = HealthFactorMonitor.getUserDetailedPosition c' userAddress s
  /\ snd (HealthFactorMonitor.getUserDetailedPosition c userAddress s) = s.
Proof.
  intros Hcached Haccount HeMode Hreserve.
  change (same_and_still (HealthFactorMonitor.getUserDetailedPosition c userAddress)
            (HealthFactorMonitor.getUserDetailedPosition c' userAddress) s).
  unfold HealthFactorMonitor.getUserDetailedPosition, HealthFactorMonitor.getUserAccountData.
  apply same_and_still_bind.
  { apply same_and_still_bind; [apply same_and_still_lift, Haccount|].
    intros data _. apply same_and_still_ret. }
  intros accountData _.
  apply same_and_still_bind; [apply same_and_still_lift, HeMode|]. intros eModeCategoryId _.
  apply same_and_still_bind; [apply same_and_still_get|]. intros s0 Hget.
  injection Hget as ->.
  apply same_and_still_bind.
  { apply collect_reserves_cached. intros asset Ha.
    split; [apply Hcached, Ha | apply Hreserve]. }
  intros assets _.
  apply same_and_still_bind; [apply same_and_still_lift; reflexivity|]. intros eMode _.
  apply same_and_still_ret.
Qed.

Lemma detailed_position_reads_cached_reserves_witness :
  HealthFactorMonitor.getUserDetailedPosition Cases.chain Scenario.borrower Cases.cached
  = HealthFactorMonitor.getUserDetailedPosition Cases.chain_without_reserve_data
      Scenario.borrower Cases.cached.
Proof.
  apply (detailed_position_reads_cached_reserves Cases.chain Cases.chain_without_reserve_data
           Scenario.borrower Cases.cached).
  - intros asset [<-|[<-|[]]]; eexists.
    + unfold Cases.cached, HealthFactorMonitor.cache_reserve. cbn.
      rewrite lookup_insert_ne by discriminate. apply lookup_insert_eq.
    + unfold Cases.cached, HealthFactorMonitor.cache_reserve. cbn.
      apply lookup_insert_eq.
  - reflexivity.
  - reflexivity.
  - intros asset. reflexivity.
Defined.
